(** * AuraMind / Haro companion AI: dialogue session, local responder,
      wake-word filter and speech queue.

    A shallow embedding of the Python sources under [companion_ai/]
    ([config.py], [ai_brain.py], [local_ai_brain.py], [voice_handler.py],
    [speech_engine.py], [main.py]) together with the properties of the
    dialogue engine that the specification states about them.

    Text is modelled as [string] (sequences of 8-bit characters), so the
    development is about ASCII text.  There the case mapping of
    [str.lower], the white space of [str.strip] and of [\s], and the
    digits of [\d] are as defined below; on other text Python also maps
    letters above 127 (and can change the length of the text in doing
    so), strips further Unicode blanks and takes further Unicode digits
    for [\d].  Logging calls have no effect on the modelled state and are
    omitted. *)

From Stdlib Require Import ZArith List String Ascii Bool Lia.
From Stdlib Require Import Numbers.DecimalString.
From Stdlib Require QArith.
From stdpp Require Import gmap strings list.

Open Scope string_scope.

(* ===================================================================== *)
(** * Python built-ins used by the sources *)
(* ===================================================================== *)

Module PyStr.

(** [str.isspace] on one ASCII character (also what [\s] matches below
    128): TAB, LF, VT, FF, CR, the separators FS GS RS US, and the blank.
    Above 127 Python has further blanks (U+0085, U+00A0 and others),
    which this model of text does not have. *)
Definition isspace (c : ascii) : bool :=
  let n := nat_of_ascii c in
  (((9 <=? n) && (n <=? 13)) || ((28 <=? n) && (n <=? 32)))%nat.

Definition isdigit (c : ascii) : bool :=
  let n := nat_of_ascii c in ((48 <=? n) && (n <=? 57))%nat.

(** The ASCII case mapping: A to Z go to a to z, every other character
    stays. *)
Definition lower_char (c : ascii) : ascii :=
  let n := nat_of_ascii c in
  if ((65 <=? n) && (n <=? 90))%nat then ascii_of_nat (n + 32) else c.

(** [s.lower()] on ASCII text. *)
Fixpoint lower (s : string) : string :=
  match s with
  | EmptyString => EmptyString
  | String c s' => String (lower_char c) (lower s')
  end.

(** [s.lstrip()] *)
Fixpoint lstrip (s : string) : string :=
  match s with
  | EmptyString => EmptyString
  | String c s' => if isspace c then lstrip s' else s
  end.

(** [s.rstrip()] *)
Fixpoint rstrip (s : string) : string :=
  match s with
  | EmptyString => EmptyString
  | String c s' =>
      match rstrip s' with
      | EmptyString => if isspace c then EmptyString else String c EmptyString
      | r => String c r
      end
  end.

(** [s.strip()] *)
Definition strip (s : string) : string := rstrip (lstrip s).

(** [sub in s] for two strings. *)
Fixpoint contains (sub s : string) : bool :=
  String.prefix sub s ||
  match s with
  | EmptyString => false
  | String _ s' => contains sub s'
  end.

(** [s.replace(old, new)]: occurrences of [old] are found left to right
    and do not overlap.  [skip] counts the characters of a match that
    are still to be passed over. *)
Fixpoint replace_from (old new : string) (skip : nat) (s : string) : string :=
  match s with
  | EmptyString => EmptyString
  | String c s' =>
      match skip with
      | S k => replace_from old new k s'
      | O =>
          if String.prefix old s
          then new ++ replace_from old new (String.length old - 1) s'
          else String c (replace_from old new 0 s')
      end
  end.

(** With an empty [old], Python puts [new] before every character and at
    the end. *)
Fixpoint intersperse (new s : string) : string :=
  match s with
  | EmptyString => new
  | String c s' => new ++ String c (intersperse new s')
  end.

Definition replace (old new s : string) : string :=
  match old with
  | EmptyString => intersperse new s
  | _ => replace_from old new 0 s
  end.

(** Truth value of a string: [if s:] holds for the non-empty ones. *)
Definition truthy (s : string) : bool :=
  match s with EmptyString => false | _ => true end.

(** [str(n)] for an integer. *)
Definition str_of_Z (n : Z) : string := NilZero.string_of_int (Z.to_int n).

End PyStr.

Module PyList.

(** [l[i:]] with Python's treatment of a negative or too large start. *)
Definition slice_from {A} (i : Z) (l : list A) : list A :=
  let n := Z.of_nat (length l) in
  let start := if (i <? 0)%Z then Z.max (n + i) 0 else Z.min i n in
  drop (Z.to_nat start) l.

(** [random.choice(pool)] where the generator draws [r]; the pools of the
    sources are never empty, [d] is only there for totality. *)
Definition choice {A} (d : A) (r : nat) (pool : list A) : A :=
  nth (r mod length pool) pool d.

End PyList.

(* ===================================================================== *)
(** * config.py *)
(* ===================================================================== *)

Record Config := {
  MAX_CONVERSATION_HISTORY : Z;      (* Number of exchanges to remember *)
  WAKE_WORDS : list string;
  AI_NAME : string;
  AI_PERSONALITY : string
}.

(** The values of the class attributes as [config.py] sets them. *)
Definition default_config : Config := {|
  MAX_CONVERSATION_HISTORY := 10;
  WAKE_WORDS := ["hey haro"; "haro"; "ai"];
  AI_NAME := "Haro";
  AI_PERSONALITY := "You are Haro, a helpful and friendly AI assistant. You are:
    - Conversational and engaging
    - Supportive and encouraging
    - Curious about the user's day and interests
    - Able to help with various tasks and questions
    - Designed to be a loyal companion
    Keep responses concise but warm, as they will be spoken aloud."
|}.

(* ===================================================================== *)
(** * Exceptions and stateful computations *)
(* ===================================================================== *)

Inductive exn :=
| IndexError
| ValueError
| SyntaxError
| ZeroDivisionError
| TypeError
| QueueEmpty
| UnknownValueError         (* speech_recognition: audio not understood *)
| RequestError (msg : string)  (* speech_recognition: service unreachable *)
| APIError (msg : string).     (* any failure of the completion endpoint *)

(** What a Python call does: return a value or raise. *)
Inductive outcome (A : Type) :=
| Returns (a : A)
| Raises (e : exn).
Arguments Returns {A} a.
Arguments Raises {A} e.

(** A method of an object with state [S]: attribute writes made before an
    exception is raised stay in place. *)
Definition M (S A : Type) : Type := S -> outcome A * S.

Definition ret {S A} (a : A) : M S A := fun s => (Returns a, s).
Definition raise {S A} (e : exn) : M S A := fun s => (Raises e, s).
Definition bind {S A B} (m : M S A) (k : A -> M S B) : M S B :=
  fun s => match m s with
           | (Returns a, s') => k a s'
           | (Raises e, s') => (Raises e, s')
           end.
Definition get_state {S} : M S S := fun s => (Returns s, s).
Definition modify {S} (f : S -> S) : M S unit := fun s => (Returns tt, f s).
(** [try: body  except Exception as e: handler e] *)
Definition try_except {S A} (body : M S A) (handler : exn -> M S A) : M S A :=
  fun s => match body s with
           | (Returns a, s') => (Returns a, s')
           | (Raises e, s') => handler e s'
           end.
Definition lift {S A} (o : outcome A) : M S A := fun s => (o, s).

Declare Scope py_scope.
Delimit Scope py_scope with py.
Notation "'let!' x ':=' m 'in' k" := (bind m (fun x => k))
  (at level 10, x name, m at level 100, k at level 200) : py_scope.
Notation "'do!' m 'in' k" := (bind m (fun _ => k))
  (at level 10, m at level 100, k at level 200) : py_scope.

(* ===================================================================== *)
(** * Conversation session: ai_brain.py and local_ai_brain.py *)
(* ===================================================================== *)

Inductive Role := system | user | assistant.

Global Instance Role_eq_dec : EqDecision Role.
Proof. solve_decision. Defined.

(** One entry of [conversation_history]: [{"role": ..., "content": ...}]. *)
Record Message := { role : Role; content : string }.

Record Brain := {
  conversation_history : list Message;
  user_context : gmap string string
}.

Definition set_history (h : list Message) (b : Brain) : Brain :=
  {| conversation_history := h; user_context := user_context b |}.

Record Summary := {
  total_exchanges : Z;
  history_length : Z;
  ai_name : string;
  model : string
}.

Definition error_responses : list string :=
  [ "I'm sorry, I'm having trouble understanding right now. Could you try again?";
    "I seem to be experiencing some technical difficulties. Please give me a moment.";
    "I'm not quite sure how to respond to that. Could you rephrase your question?" ].

(** The methods that [AIBrain] and [LocalAIBrain] have word for word in
    common.  The two classes differ in the system prompt, in the label of
    the model and in the generation step: [generate history user_input r]
    is what the responder does when the history reads [history], the
    utterance is [user_input] and the random generator draws [r]. *)
Section Session.

Variable cfg : Config.
Variable system_prompt : string.
Variable model_label : string.
Variable generate : list Message -> string -> nat -> outcome string.

Definition append_message (m : Message) : M Brain unit :=
  modify (fun b => set_history (conversation_history b ++ [m]) b).

Definition _initialize_conversation : M Brain unit :=
  let system_message := {| role := system; content := system_prompt |} in
  append_message system_message.

Definition _manage_conversation_history : M Brain unit :=
  fun b =>
    let h := conversation_history b in
    let max_messages := (MAX_CONVERSATION_HISTORY cfg * 2 + 1)%Z in
    if (Z.of_nat (length h) >? max_messages)%Z then
      match h with
      | [] => (Raises IndexError, b)
      | system_msg :: _ =>
          let recent_messages := PyList.slice_from (- (max_messages - 1)) h in
          (Returns tt, set_history ([system_msg] ++ recent_messages) b)
      end
    else (Returns tt, b).

Definition _get_error_response (r : nat) : M Brain string :=
  ret (PyList.choice "" r error_responses).

Definition process_input (user_input : string) (r : nat) : M Brain string :=
  (try_except
     (let user_message := {| role := user; content := user_input |} in
      do! append_message user_message in
      let! self := get_state in
      let! response := lift (generate (conversation_history self) user_input r) in
      let ai_message := {| role := assistant; content := response |} in
      do! append_message ai_message in
      do! _manage_conversation_history in
      ret response)
     (fun e => _get_error_response r))%py.

Definition get_conversation_summary (b : Brain) : Summary :=
  {| total_exchanges := (Z.of_nat (length (conversation_history b)) - 1) / 2;
     history_length := Z.of_nat (length (conversation_history b));
     ai_name := AI_NAME cfg;
     model := model_label |}.

Definition reset_conversation : M Brain unit :=
  (do! modify (set_history []) in
   _initialize_conversation)%py.

Definition set_user_context (key value : string) : M Brain unit :=
  modify (fun b => {| conversation_history := conversation_history b;
                      user_context := <[key := value]> (user_context b) |}).

Definition get_user_context (key : string) (b : Brain) : option string :=
  user_context b !! key.

(** [__init__]: empty history and context, then the system prompt. *)
Definition new_brain : Brain :=
  snd (_initialize_conversation
         {| conversation_history := []; user_context := ∅ |}).

(** A run of the session: each call comes with its utterance and the
    draw of the random generator. *)
Fixpoint process_all (calls : list (string * nat)) (b : Brain) : Brain :=
  match calls with
  | [] => b
  | (u, r) :: rest => process_all rest (snd (process_input u r b))
  end.

End Session.

(** Number of turns with a given role. *)
Definition count_role (ro : Role) (h : list Message) : nat :=
  length (filter (fun m => role m = ro) h).

(** The turns after the system prompt come in whole pairs, a user turn
    and then the reply to it. *)
Fixpoint paired (h : list Message) : bool :=
  match h with
  | [] => true
  | u :: a :: rest =>
      bool_decide (role u = user) && bool_decide (role a = assistant) && paired rest
  | _ => false
  end.

(* --------------------------------------------------------------------- *)
(** ** ai_brain.py: the remote responder *)
(* --------------------------------------------------------------------- *)

Module AIBrain.
Section AIBrain.

Variable cfg : Config.

(** The completion endpoint: given the role-tagged messages it answers
    with the content of the top completion, or the request fails. *)
Variable endpoint : list Message -> outcome string.

Definition _generate_response (history : list Message) : outcome string :=
  match endpoint history with
  | Returns text => Returns (PyStr.strip text)
  | Raises e => Raises e
  end.

Definition generate (history : list Message) (user_input : string) (r : nat)
  : outcome string :=
  _generate_response history.

Definition process_input : string -> nat -> M Brain string :=
  process_input cfg generate.

Definition reset_conversation : M Brain unit :=
  reset_conversation (AI_PERSONALITY cfg).

Definition get_conversation_summary : Brain -> Summary :=
  get_conversation_summary cfg "gpt-4o".

Definition new : Brain := new_brain (AI_PERSONALITY cfg).

End AIBrain.

(** A run in which the endpoint may behave differently from call to call
  (it is a remote service): each call carries its own endpoint. *)
Fixpoint run (cfg : Config)
  (calls : list ((list Message -> outcome string) * string * nat)) (b : Brain)
: Brain :=
match calls with
| [] => b
| (endpoint, u, r) :: rest => run cfg rest (snd (process_input cfg endpoint u r b))
end.

End AIBrain.

(* --------------------------------------------------------------------- *)
(** ** local_ai_brain.py: the rule-based responder *)
(* --------------------------------------------------------------------- *)

Module LocalAIBrain.

(** The four [datetime.now().strftime(...)] texts that
    [_load_knowledge_base] formats when the brain is built. *)
Record Clock := {
  now_HM_p : string;        (* '%H:%M %p' *)
  now_IM_p : string;        (* '%I:%M %p' *)
  now_long_date : string;   (* '%A, %B %d, %Y' *)
  now_short_date : string   (* '%m/%d/%Y' *)
}.

(** [knowledge_base["topics"][...]["responses"]] and
    [knowledge_base["personal_info"]["purpose"]]. *)
Record KnowledgeBase := {
  weather_responses : list string;
  time_responses : list string;
  date_responses : list string;
  math_responses : list string;
  robot_responses : list string;
  capabilities_responses : list string;
  purpose : string
}.

Definition _load_knowledge_base (clock : Clock) : KnowledgeBase := {|
  weather_responses :=
    [ "I'd love to help with weather information, but I need internet connectivity for current conditions.";
      "For accurate weather data, I'd need to connect to a weather service." ];
  time_responses :=
    [ "The current time is " ++ now_HM_p clock;
      "It's " ++ now_IM_p clock ++ " right now" ];
  date_responses :=
    [ "Today is " ++ now_long_date clock;
      "The date is " ++ now_short_date clock ];
  math_responses :=
    [ "I can help with basic calculations. What would you like me to calculate?";
      "I'm good with math! What calculation do you need?" ];
  robot_responses :=
    [ "I'm designed to be part of a robot companion! Right now I can talk, but in the future I could move around and interact with the physical world.";
      "My robot capabilities are currently in development. For now, I focus on being a great conversational companion!" ];
  capabilities_responses :=
    [ "I can have conversations, answer questions, help with basic calculations, tell you the time and date, and much more! What would you like help with?";
      "My main skills include conversation, basic information lookup, time/date queries, and being a friendly companion. How can I assist you today?" ];
  purpose := "I'm your personal AI assistant designed to help with daily tasks"
|}.

(** [response_patterns] *)
Definition greeting_patterns : list string :=
  [ "Hello! Great to see you again!";
    "Hi there! How can I help you today?";
    "Hey! What's on your mind?";
    "Good to see you! What would you like to talk about?" ].
Definition goodbye_patterns : list string :=
  [ "Goodbye! It was great talking with you!";
    "See you later! Have a wonderful day!";
    "Take care! I'll be here when you need me.";
    "Until next time! Stay safe!" ].
Definition thanks_patterns : list string :=
  [ "You're very welcome!";
    "Happy to help!";
    "My pleasure!";
    "Anytime! That's what I'm here for." ].
Definition unknown_patterns : list string :=
  [ "That's an interesting question! I'm still learning about that topic.";
    "I don't have specific information about that right now, but I'd love to help in other ways!";
    "Hmm, that's not in my current knowledge base. Is there something else I can help you with?";
    "I'm not sure about that particular topic, but I'm always eager to learn! What else can I assist you with?" ].

(** [any(word in text for word in words)] *)
Definition any_word_in (words : list string) (text : string) : bool :=
  existsb (fun word => PyStr.contains word text) words.

(** The character class of [math_pattern], [[\d\.\+\-\*/\(\)\s]], on
    ASCII text: [\d] is 0 to 9 and [\s] is [PyStr.isspace]. *)
Definition math_pattern_char (c : ascii) : bool :=
  PyStr.isdigit c
  || existsb (Ascii.eqb c) (list_ascii_of_string ".+-*/()")
  || PyStr.isspace c.

(** The longest match of [[...]+] that starts at the head of [s]. *)
Fixpoint match_here (s : string) : string :=
  match s with
  | EmptyString => EmptyString
  | String c s' => if math_pattern_char c then String c (match_here s') else EmptyString
  end.

(** [re.search(math_pattern, s)]: the match at the first position where
    there is one; [None] where there is none. *)
Fixpoint re_search (s : string) : option string :=
  match s with
  | EmptyString => None
  | String c s' => if math_pattern_char c then Some (match_here s) else re_search s'
  end.

Definition allowed_chars : list ascii :=
  list_ascii_of_string "0123456789+-*/.() ".

(** [all(c in allowed_chars for c in expression)] *)
Definition all_allowed (expression : string) : bool :=
  forallb (fun c => existsb (Ascii.eqb c) allowed_chars)
          (list_ascii_of_string expression).

Definition math_help : string :=
  "I can help with basic math! Try asking me something like 'what is 15 plus 7' or '10 times 3'".

Section Responder.

Variable cfg : Config.
Variable kb : KnowledgeBase.

(** Python's built-in [eval] on an expression, followed by the
    formatting of the result in the f-string: the text of the value, or
    the exception that either of the two raises. *)
Variable py_eval : string -> outcome string.

(** The body of the outer [try]; the outer handler, which has an apology
    of its own, is never entered: the search cannot fail on a string, and
    whatever the evaluation or the formatting raises is caught inside. *)
Definition _handle_math (user_input : string) : string :=
  match re_search user_input with
  | Some m =>
      let expression := PyStr.strip m in
      if all_allowed expression then
        match py_eval expression with
        | Returns result => "The answer is " ++ result
        | Raises _ => math_help           (* except: pass *)
        end
      else math_help
  | None => math_help
  end.

Definition _generate_local_response (user_input : string) (r : nat) : string :=
  let user_input_lower := PyStr.strip (PyStr.lower user_input) in
  if any_word_in ["hello"; "hi"; "hey"; "good morning"; "good afternoon"; "good evening"] user_input_lower
  then PyList.choice "" r greeting_patterns
  else if any_word_in ["goodbye"; "bye"; "see you"; "farewell"; "quit"; "exit"] user_input_lower
  then PyList.choice "" r goodbye_patterns
  else if any_word_in ["thank"; "thanks"; "appreciate"] user_input_lower
  then PyList.choice "" r thanks_patterns
  else if any_word_in ["time"; "clock"; "hour"] user_input_lower
  then PyList.choice "" r (time_responses kb)
  else if any_word_in ["date"; "day"; "today"; "calendar"] user_input_lower
  then PyList.choice "" r (date_responses kb)
  else if any_word_in ["weather"; "temperature"; "rain"; "sunny"; "cloudy"] user_input_lower
  then PyList.choice "" r (weather_responses kb)
  else if any_word_in ["calculate"; "math"; "plus"; "minus"; "multiply"; "divide"; "+"; "-"; "*"; "/"; "times"] user_input_lower
  then _handle_math user_input
  else if any_word_in ["robot"; "move"; "walk"; "drive"] user_input_lower
  then PyList.choice "" r (robot_responses kb)
  else if any_word_in ["can you"; "what can"; "help"; "do"; "abilities"; "capabilities"] user_input_lower
  then PyList.choice "" r (capabilities_responses kb)
  else if any_word_in ["who are you"; "what are you"; "tell me about yourself"; "introduce yourself"] user_input_lower
  then "I'm " ++ AI_NAME cfg ++ ", " ++ purpose kb
       ++ ". I can help you with many things like answering questions, basic calculations, and friendly conversation!"
  else PyList.choice "" r unknown_patterns.

Definition generate (history : list Message) (user_input : string) (r : nat)
  : outcome string :=
  Returns (_generate_local_response user_input r).

Definition system_prompt : string :=
  "You are " ++ AI_NAME cfg ++ ", a helpful AI assistant running locally.".

Definition process_input : string -> nat -> M Brain string :=
  process_input cfg generate.

Definition reset_conversation : M Brain unit :=
  reset_conversation system_prompt.

Definition get_conversation_summary : Brain -> Summary :=
  get_conversation_summary cfg "Local Knowledge Base".

Definition new : Brain := new_brain system_prompt.

End Responder.

End LocalAIBrain.

(* --------------------------------------------------------------------- *)
(** ** An evaluator for the integer fragment of Python expressions *)
(* --------------------------------------------------------------------- *)

(** [_handle_math] hands the extracted text to Python's [eval].  The
    properties below hold for any evaluator; for the worked examples this
    module evaluates the fragment built from decimal integer literals,
    [+], [-], [*], parentheses and blanks, where Python computes with
    unbounded integers.  Texts outside the fragment (divisions, floats,
    powers, calls, the empty tuple, texts of more than 64 characters) are
    reported as [Unsupported] and are never given a made-up value. *)
Module ArithEval.

Inductive token := TNum (n : Z) | TPlus | TMinus | TStar | TLParen | TRParen.

Inductive verdict :=
| Value (z : Z)       (* eval returns this integer *)
| SyntaxFails         (* eval raises SyntaxError *)
| Unsupported.        (* outside the fragment *)

Definition digit_value (c : ascii) : Z := Z.of_nat (nat_of_ascii c - 48).

(** Reads the digits at the head of [s]: their value (continuing [acc])
    and the rest of the text. *)
Fixpoint lex_number (s : string) (acc : Z) : Z * string :=
  match s with
  | String c s' =>
      if PyStr.isdigit c then lex_number s' (acc * 10 + digit_value c)%Z
      else (acc, s)
  | EmptyString => (acc, s)
  end.

Fixpoint all_zero_digits (s : string) : bool :=
  match s with
  | String c s' =>
      if PyStr.isdigit c then Ascii.eqb c "0" && all_zero_digits s' else true
  | EmptyString => true
  end.

(** [None]: a character outside the fragment; [Some None]: a literal
    with a leading zero, which Python rejects. *)
Fixpoint lex (fuel : nat) (s : string) : option (option (list token)) :=
  match fuel with
  | O => None
  | S fuel =>
      match s with
      | EmptyString => Some (Some [])
      | String c s' =>
          let cons t := match lex fuel s' with
                        | Some (Some ts) => Some (Some (t :: ts))
                        | other => other
                        end in
          if Ascii.eqb c " " then lex fuel s'
          else if Ascii.eqb c "+" then cons TPlus
          else if Ascii.eqb c "-" then cons TMinus
          else if Ascii.eqb c "(" then cons TLParen
          else if Ascii.eqb c ")" then cons TRParen
          else if Ascii.eqb c "*" then
            match s' with
            | String "*" _ => None            (* the power operator *)
            | _ => cons TStar
            end
          else if PyStr.isdigit c then
            let n := fst (lex_number s 0) in
            if Ascii.eqb c "0" && negb (all_zero_digits s) then
              match lex fuel (snd (lex_number s' 0)) with
              | None => None
              | Some _ => Some None
              end
            else
              match lex fuel (snd (lex_number s' 0)) with
              | Some (Some ts) => Some (Some (TNum n :: ts))
              | other => other
              end
          else None
      end
  end.

(** A parenthesis that opens a call or an empty tuple, or a starred
    argument: outside the fragment. *)
Fixpoint has_call_or_tuple (ts : list token) : bool :=
  match ts with
  | TNum _ :: (TLParen :: _) as rest => true
  | TRParen :: (TLParen :: _) as rest => true
  | TLParen :: (TRParen :: _) as rest => true
  | TLParen :: (TStar :: _) as rest => true
  | _ :: rest => has_call_or_tuple rest
  | [] => false
  end.

(** Recursive descent; [None] is a syntax error.
    expr ::= term (('+' | '-') term)*      term ::= factor ('*' factor)*
    factor ::= ('+' | '-') factor | atom   atom ::= NUM | '(' expr ')' *)
Fixpoint parse_expr (fuel : nat) (ts : list token) : option (Z * list token) :=
  match fuel with
  | O => None
  | S fuel =>
      let atom ts :=
        match ts with
        | TNum n :: rest => Some (n, rest)
        | TLParen :: rest =>
            match parse_expr fuel rest with
            | Some (v, TRParen :: rest') => Some (v, rest')
            | _ => None
            end
        | _ => None
        end in
      let factor :=
        fix factor (k : nat) (ts : list token) : option (Z * list token) :=
          match ts, k with
          | TPlus :: rest, S k => factor k rest
          | TMinus :: rest, S k =>
              match factor k rest with
              | Some (v, rest') => Some ((- v)%Z, rest')
              | None => None
              end
          | _, _ => atom ts
          end in
      let term_rest :=
        fix term_rest (k : nat) (acc : Z) (ts : list token) : option (Z * list token) :=
          match ts, k with
          | TStar :: rest, S k =>
              match factor (length rest) rest with
              | Some (v, rest') => term_rest k (acc * v)%Z rest'
              | None => None
              end
          | _, _ => Some (acc, ts)
          end in
      let term ts :=
        match factor (length ts) ts with
        | Some (v, rest) => term_rest (length rest) v rest
        | None => None
        end in
      let expr_rest :=
        fix expr_rest (k : nat) (acc : Z) (ts : list token) : option (Z * list token) :=
          match ts, k with
          | TPlus :: rest, S k =>
              match term rest with
              | Some (v, rest') => expr_rest k (acc + v)%Z rest'
              | None => None
              end
          | TMinus :: rest, S k =>
              match term rest with
              | Some (v, rest') => expr_rest k (acc - v)%Z rest'
              | None => None
              end
          | _, _ => Some (acc, ts)
          end in
      match term ts with
      | Some (v, rest) => expr_rest (length rest) v rest
      | None => None
      end
  end.

Definition eval (expression : string) : verdict :=
  if (64 <? String.length expression)%nat then Unsupported else
  match lex (S (String.length expression)) expression with
  | None => Unsupported
  | Some None => SyntaxFails
  | Some (Some ts) =>
      if has_call_or_tuple ts then Unsupported else
      match parse_expr (S (length ts)) ts with
      | Some (v, []) => Value v
      | _ => SyntaxFails
      end
  end.

(** As an evaluator for [_handle_math]: the text of the integer, or the
    exception.  Only to be read at texts inside the fragment. *)
Definition py_eval (expression : string) : outcome string :=
  match eval expression with
  | Value z => Returns (PyStr.str_of_Z z)
  | SyntaxFails => Raises SyntaxError
  | Unsupported => Raises TypeError
  end.

End ArithEval.

(* ===================================================================== *)
(** * speech_engine.py *)
(* ===================================================================== *)

Module SpeechEngine.

(** The engine object.  [speech_queue] and [unfinished_tasks] are the
    state of the [queue.Queue] (a [None] item is the shutdown signal);
    [said] lists the texts handed to the synthesis engine with
    [engine.say], oldest first, and [stops] counts [engine.stop()]. *)
Record t := {
  speech_queue : list (option string);
  unfinished_tasks : nat;
  is_speaking : bool;
  is_running : bool;
  said : list string;
  stops : nat
}.

Definition with_queue (q : list (option string)) (u : nat) (e : t) : t :=
  {| speech_queue := q; unfinished_tasks := u; is_speaking := is_speaking e;
     is_running := is_running e; said := said e; stops := stops e |}.

(** [Queue.put(item)] *)
Definition put (item : option string) : M t unit :=
  modify (fun e => with_queue (speech_queue e ++ [item]) (S (unfinished_tasks e)) e).

(** [Queue.get_nowait()] *)
Definition get_nowait : M t (option string) :=
  fun e => match speech_queue e with
           | [] => (Raises QueueEmpty, e)
           | item :: q => (Returns item, with_queue q (unfinished_tasks e) e)
           end.

(** [Queue.task_done()] *)
Definition task_done : M t unit :=
  fun e => match unfinished_tasks e with
           | O => (Raises ValueError, e)
           | S u => (Returns tt, with_queue (speech_queue e) u e)
           end.

(** After [__init__]: the worker has been started and nothing is queued. *)
Definition new : t :=
  {| speech_queue := []; unfinished_tasks := 0; is_speaking := false;
     is_running := true; said := []; stops := 0 |}.

Definition _speak_now (text : string) : M t unit :=
  modify (fun e =>
    {| speech_queue := speech_queue e; unfinished_tasks := unfinished_tasks e;
       is_speaking := false;           (* set, and cleared when the text is done *)
       is_running := is_running e;
       said := said e ++ [text]; stops := stops e |}).

Definition stop_speaking : M t unit :=
  modify (fun e =>
    if is_speaking e then
      {| speech_queue := speech_queue e; unfinished_tasks := unfinished_tasks e;
         is_speaking := is_speaking e; is_running := is_running e;
         said := said e; stops := S (stops e) |}
    else e).

(** [while not self.speech_queue.empty(): try: get_nowait(); task_done()
    except: break]; every round takes one item, so the length of the
    queue bounds the rounds. *)
Fixpoint clear_loop (rounds : nat) : M t unit :=
  fun e =>
    match rounds, speech_queue e with
    | S rounds', _ :: _ =>
        match (do! get_nowait in task_done)%py e with
        | (Returns _, e') => clear_loop rounds' e'
        | (Raises _, e') => (Returns tt, e')
        end
    | _, _ => (Returns tt, e)
    end.

Definition clear_queue : M t unit :=
  fun e => clear_loop (length (speech_queue e)) e.

Definition speak (text : string) (interrupt : bool) : M t unit :=
  if negb (PyStr.truthy (PyStr.strip text)) then ret tt
  else
    (do! (if interrupt then (do! stop_speaking in clear_queue) else ret tt) in
     put (Some text))%py.

(** The text is rendered on a thread of its own, which is modelled as
    running at once. *)
Definition speak_immediately (text : string) : M t unit :=
  if negb (PyStr.truthy (PyStr.strip text)) then ret tt
  else (do! stop_speaking in _speak_now text)%py.

Definition is_busy (e : t) : bool :=
  is_speaking e || negb (bool_decide (speech_queue e = [])).

(** One round of the [while self.is_running] loop of [_speech_worker],
    from the test of [is_running] to [task_done], taken as a whole; the
    boolean tells whether the loop goes on.  An empty queue makes
    [get(timeout=1)] raise, which the loop catches.  A worker that is
    already inside [get] when [is_running] is cleared, and the state
    while a text is being rendered, are not states of this round; they
    are in [SpeechThreads] below, where every queue operation is a step
    of its own. *)
Definition worker_iteration (e : t) : t * bool :=
  if is_running e then
    match speech_queue e with
    | [] => (e, true)
    | None :: q => (with_queue q (unfinished_tasks e) e, false)
    | Some text :: q =>
        let e1 := with_queue q (unfinished_tasks e) e in
        let e2 := snd (_speak_now text e1) in
        (snd (task_done e2), true)
    end
  else (e, false).

(** The part of [shutdown] before the worker thread is joined, run
    without a step of the worker in between.  The whole call, with the
    join and the final [engine.stop()], is in [SpeechThreads]. *)
Definition shutdown : M t unit :=
  (do! modify (fun e =>
         {| speech_queue := speech_queue e; unfinished_tasks := unfinished_tasks e;
            is_speaking := is_speaking e; is_running := false;
            said := said e; stops := stops e |}) in
   do! clear_queue in
   put None)%py.

(** *** The engine together with its worker thread *)

(** [worker_alive] tells whether the worker thread is still in its loop;
    [program] holds the [speak] calls that the calling thread has yet to
    make. *)
Record System := {
  engine : t;
  worker_alive : bool;
  program : list (string * bool)
}.

Inductive thread := Caller | Worker.

Definition worker_step (s : System) : System :=
  if worker_alive s then
    let '(e', goes_on) := worker_iteration (engine s) in
    {| engine := e'; worker_alive := goes_on; program := program s |}
  else s.

(** The calling thread makes its next [speak] call, as one step.  For a
    call that does not interrupt, which is a single [put], this loses
    nothing; the operations of an interrupting call are interleaved with
    the worker in [SpeechThreads]. *)
Definition caller_step (s : System) : System :=
  match program s with
  | [] => s
  | (text, interrupt) :: rest =>
      {| engine := snd (speak text interrupt (engine s));
         worker_alive := worker_alive s; program := rest |}
  end.

Definition step (who : thread) (s : System) : System :=
  match who with Caller => caller_step s | Worker => worker_step s end.

(** The threads run in the order that the schedule gives. *)
Definition run (schedule : list thread) (s : System) : System :=
  fold_left (fun s who => step who s) schedule s.

Definition start (prog : list (string * bool)) : System :=
  {| engine := new; worker_alive := true; program := prog |}.

(** [Queue.join()]: the calling thread is blocked while tasks are
    unfinished, and meanwhile only the worker runs.  [ticks] bounds the
    rounds of the worker that are waited for; [None] means that the
    call is still blocked after that many. *)
Fixpoint join (ticks : nat) (s : System) : option System :=
  if (unfinished_tasks (engine s) =? 0)%nat then Some s
  else match ticks with
       | O => None
       | S ticks' => join ticks' (worker_step s)
       end.

(** [wait_until_done(timeout)]; [timeout] is in seconds. *)
Definition wait_until_done (timeout : option Z) (ticks : nat) (s : System)
  : option (bool * System) :=
  match join ticks s with
  | Some s' => Some (true, s')
  | None => None
  end.

End SpeechEngine.

(* ===================================================================== *)
(** * voice_handler.py *)
(* ===================================================================== *)

Module VoiceHandler.
Section VoiceHandler.

Variable cfg : Config.

Definition _contains_wake_word (text : string) : bool :=
  existsb (fun wake_word => PyStr.contains wake_word text) (WAKE_WORDS cfg).

Definition _remove_wake_words (text : string) : string :=
  fold_left (fun text wake_word => PyStr.strip (PyStr.replace wake_word "" text))
            (WAKE_WORDS cfg) text.

Definition acknowledgement : string := "Hello! How can I help you?".

(** [recognized] is what [recognize_google] does on the clip;
    [on_speech_detected] is the callback given to the handler, acting on
    the state [S] of whoever owns it. *)
Definition _process_audio {S : Type} (recognized : outcome string)
    (on_speech_detected : string -> S -> S) (s : S) : S :=
  match recognized with
  | Returns text =>
      if _contains_wake_word (PyStr.lower text) then
        let cleaned_text := PyStr.strip (_remove_wake_words (PyStr.lower text)) in
        if PyStr.truthy cleaned_text then on_speech_detected cleaned_text s
        else on_speech_detected acknowledgement s
      else s
  | Raises _ => s
  end.

End VoiceHandler.
End VoiceHandler.

(* ===================================================================== *)
(** * main.py *)
(* ===================================================================== *)

Module HaroAI.

Record t := {
  ai_brain : Brain;
  speech_engine : SpeechEngine.t
}.

Definition error_msg : string :=
  "I'm sorry, I encountered an error processing your request.".

(** [brain_process_input] is [process_input] of the brain class chosen
    at start-up; [r] is the draw of the random generator. *)
Definition _on_speech_detected
    (brain_process_input : string -> nat -> M Brain string)
    (r : nat) (text : string) (app : t) : t :=
  match brain_process_input text r (ai_brain app) with
  | (Returns response, brain') =>
      {| ai_brain := brain';
         speech_engine := snd (SpeechEngine.speak response false (speech_engine app)) |}
  | (Raises _, brain') =>
      {| ai_brain := brain';
         speech_engine := snd (SpeechEngine.speak error_msg false (speech_engine app)) |}
  end.

(** The calls of [process_input] that a clip leads to: the callback is
    replaced by one that only notes its argument. *)
Definition forwarded (cfg : Config) (recognized : outcome string) : list string :=
  VoiceHandler._process_audio cfg recognized (fun text (log : list string) => (log ++ [text])%list) [].

End HaroAI.

(* ===================================================================== *)
(** * Notions used in the statements *)
(* ===================================================================== *)

(** [sub] occurs in [s]. *)
Definition occurs_in (sub s : string) : Prop :=
  exists pre post, s = pre ++ sub ++ post.

(** The history that a successful call of [process_input] builds before
    it is trimmed. *)
Definition extended (b : Brain) (u reply : string) : list Message :=
  conversation_history b
    ++ [{| role := user; content := u |}]
    ++ [{| role := assistant; content := reply |}].

(** Two behaviours of the completion endpoint: the request fails, or it
    is answered with [text]. *)
Definition endpoint_down : list Message -> outcome string :=
  fun _ => Raises (APIError "Connection error.").

Definition endpoint_answers (text : string) : list Message -> outcome string :=
  fun _ => Returns text.

(* --------------------------------------------------------------------- *)
(** ** The rule table of the local responder, as the specification has it *)
(* --------------------------------------------------------------------- *)

(** The specification describes [_generate_local_response] as ordered
    rule matching in which the first matching category wins.  The
    definitions below state that reading: the categories, their trigger
    words, the priority order and the pool of each category.  (The code
    tests the robot words and the capability words one after the other,
    each with a pool of its own.) *)
Inductive Category :=
| Greeting | Goodbye | Thanks | TimeQuery | DateQuery | WeatherQuery
| MathExpression | Robot | Capability | SelfIdentity | Unknown.

Definition trigger_words (c : Category) : list string :=
  match c with
  | Greeting => ["hello"; "hi"; "hey"; "good morning"; "good afternoon"; "good evening"]
  | Goodbye => ["goodbye"; "bye"; "see you"; "farewell"; "quit"; "exit"]
  | Thanks => ["thank"; "thanks"; "appreciate"]
  | TimeQuery => ["time"; "clock"; "hour"]
  | DateQuery => ["date"; "day"; "today"; "calendar"]
  | WeatherQuery => ["weather"; "temperature"; "rain"; "sunny"; "cloudy"]
  | MathExpression => ["calculate"; "math"; "plus"; "minus"; "multiply"; "divide";
                       "+"; "-"; "*"; "/"; "times"]
  | Robot => ["robot"; "move"; "walk"; "drive"]
  | Capability => ["can you"; "what can"; "help"; "do"; "abilities"; "capabilities"]
  | SelfIdentity => ["who are you"; "what are you"; "tell me about yourself";
                     "introduce yourself"]
  | Unknown => []
  end.

Definition priority_order : list Category :=
  [Greeting; Goodbye; Thanks; TimeQuery; DateQuery; WeatherQuery;
   MathExpression; Robot; Capability; SelfIdentity].

(** A category matches when one of its trigger words occurs in the text. *)
Definition category_matches (text : string) (c : Category) : bool :=
  LocalAIBrain.any_word_in (trigger_words c) text.

(** First matching category in priority order, else [Unknown]. *)
Definition classify (text : string) : Category :=
  match List.find (category_matches text) priority_order with
  | Some c => c
  | None => Unknown
  end.

Definition pool (kb : LocalAIBrain.KnowledgeBase) (c : Category) : list string :=
  match c with
  | Greeting => LocalAIBrain.greeting_patterns
  | Goodbye => LocalAIBrain.goodbye_patterns
  | Thanks => LocalAIBrain.thanks_patterns
  | TimeQuery => LocalAIBrain.time_responses kb
  | DateQuery => LocalAIBrain.date_responses kb
  | WeatherQuery => LocalAIBrain.weather_responses kb
  | Robot => LocalAIBrain.robot_responses kb
  | Capability => LocalAIBrain.capabilities_responses kb
  | Unknown => LocalAIBrain.unknown_patterns
  | MathExpression | SelfIdentity => []
  end.

Definition self_introduction (cfg : Config) (kb : LocalAIBrain.KnowledgeBase) : string :=
  "I'm " ++ AI_NAME cfg ++ ", " ++ LocalAIBrain.purpose kb
  ++ ". I can help you with many things like answering questions, basic calculations, and friendly conversation!".

(* --------------------------------------------------------------------- *)
(** ** Runs of expression characters *)
(* --------------------------------------------------------------------- *)

Definition all_chars (p : ascii -> bool) (s : string) : bool :=
  forallb p (list_ascii_of_string s).

Definition outside_class (c : ascii) : bool := negb (LocalAIBrain.math_pattern_char c).

(** [m] is the first maximal run of expression characters of [s]: no
    such character comes before it, and it cannot be extended to the
    right. *)
Definition first_maximal_run (s m : string) : Prop :=
  exists pre post,
    s = pre ++ m ++ post
    /\ all_chars outside_class pre = true
    /\ m <> ""
    /\ all_chars LocalAIBrain.math_pattern_char m = true
    /\ match post with
       | EmptyString => True
       | String c _ => LocalAIBrain.math_pattern_char c = false
       end.

(** The maximal runs of [s], left to right; [inside] tells whether the
    character before the head of [s] was in the class. *)
Fixpoint maximal_runs (inside : bool) (s : string) : list string :=
  match s with
  | EmptyString => []
  | String c s' =>
      if LocalAIBrain.math_pattern_char c then
        if inside then maximal_runs true s'
        else LocalAIBrain.match_here s :: maximal_runs true s'
      else maximal_runs false s'
  end.

(** The longest of the maximal runs (the first of them, among equals), as
    the specification words the extraction. *)
Definition longest_run (s : string) : option string :=
  fold_left
    (fun best m =>
       match best with
       | None => Some m
       | Some b => if (String.length b <? String.length m)%nat then Some m else Some b
       end)
    (maximal_runs false s) None.

(* --------------------------------------------------------------------- *)
(** ** Wake words *)
(* --------------------------------------------------------------------- *)

(** Some configured wake phrase occurs in the lower-cased utterance. *)
Definition has_wake_word (cfg : Config) (text : string) : Prop :=
  exists wake_word,
    In wake_word (WAKE_WORDS cfg) /\ occurs_in wake_word (PyStr.lower text).

(** The utterance without its wake phrases, as [_process_audio] forms it. *)
Definition cleaned (cfg : Config) (text : string) : string :=
  PyStr.strip (VoiceHandler._remove_wake_words cfg (PyStr.lower text)).

Definition example_clock : LocalAIBrain.Clock := {|
  LocalAIBrain.now_HM_p := "09:30 AM";
  LocalAIBrain.now_IM_p := "09:30 AM";
  LocalAIBrain.now_long_date := "Wednesday, November 04, 2026";
  LocalAIBrain.now_short_date := "11/04/2026"
|}.

(* --------------------------------------------------------------------- *)
(** ** The speech queue between the caller and the worker *)
(* --------------------------------------------------------------------- *)

(** The texts waiting in the queue, oldest first. *)
Definition queued_texts (q : list (option string)) : list string :=
  omap id q.

(** Whether [speak] enqueues the text at all: blank texts are dropped. *)
Definition nonblank (text : string) : bool := PyStr.truthy (PyStr.strip text).

(** The texts that a list of [speak] calls puts in the queue. *)
Definition enqueued (prog : list (string * bool)) : list string :=
  List.filter nonblank (map fst prog).

(** What holds of the system while the caller only makes [speak] calls
    without interruption: the worker is in its loop, no shutdown signal
    is queued, and the texts said, those waiting and those still to be
    enqueued make up [all], in this order. *)
Definition fifo_invariant (all : list string) (s : SpeechEngine.System) : Prop :=
  SpeechEngine.worker_alive s = true
  /\ SpeechEngine.is_running (SpeechEngine.engine s) = true
  /\ Forall (fun item => item <> None) (SpeechEngine.speech_queue (SpeechEngine.engine s))
  /\ Forall (fun call => snd call = false) (SpeechEngine.program s)
  /\ (SpeechEngine.said (SpeechEngine.engine s)
      ++ queued_texts (SpeechEngine.speech_queue (SpeechEngine.engine s))
      ++ enqueued (SpeechEngine.program s))%list = all.

(** The system right after [shutdown()] was called on a fresh engine. *)
Definition after_shutdown : SpeechEngine.System :=
  {| SpeechEngine.engine := snd (SpeechEngine.shutdown SpeechEngine.new);
     SpeechEngine.worker_alive := true;
     SpeechEngine.program := [] |}.

(** [config.py] with a budget of no exchange at all. *)
Definition zero_budget_config : Config := {|
  MAX_CONVERSATION_HISTORY := 0;
  WAKE_WORDS := WAKE_WORDS default_config;
  AI_NAME := AI_NAME default_config;
  AI_PERSONALITY := AI_PERSONALITY default_config
|}.

(* ===================================================================== *)
(** * local_ai_brain.py: intent analysis and added knowledge *)
(* ===================================================================== *)

Module Intent.

(** The dictionary that [analyze_intent] returns.  [confidence] is the
    decimal literal of the source, as a rational number. *)
Record IntentResult := {
  intent : string;
  confidence : QArith_base.Q;
  entities : list string;
  requires_action : bool
}.

Definition tenths (n : Z) : QArith_base.Q := QArith_base.Qmake n 10.

(** [LocalAIBrain.analyze_intent] *)
Definition analyze_intent (user_input : string) : IntentResult :=
  let user_input_lower := PyStr.lower user_input in
  let '(intent, confidence) :=
    if LocalAIBrain.any_word_in ["hello"; "hi"; "hey"] user_input_lower
    then ("greeting", tenths 9)
    else if LocalAIBrain.any_word_in ["goodbye"; "bye"] user_input_lower
    then ("goodbye", tenths 9)
    else if LocalAIBrain.any_word_in ["time"; "clock"] user_input_lower
    then ("time_query", tenths 8)
    else if LocalAIBrain.any_word_in ["date"; "today"] user_input_lower
    then ("date_query", tenths 8)
    else if LocalAIBrain.any_word_in ["calculate"; "math"; "+"; "-"; "*"; "/"] user_input_lower
    then ("calculation", tenths 7)
    else if LocalAIBrain.any_word_in ["weather"] user_input_lower
    then ("weather_query", tenths 8)
    else if PyStr.contains "?" user_input
    then ("question", tenths 6)
    else ("casual_chat", tenths 5) in
  {| intent := intent;
     confidence := confidence;
     entities := [];
     requires_action :=
       existsb (String.eqb intent) ["calculation"; "time_query"; "date_query"] |}.

End Intent.

Module Knowledge.

(** [knowledge_base]: the tables that [_load_knowledge_base] builds, and
    the ["custom"] table, which is absent until [add_knowledge] makes it. *)
Record t := {
  builtin : LocalAIBrain.KnowledgeBase;
  custom : option (gmap string string)
}.

(** [knowledge_base["topics"]], each topic with its ["responses"]. *)
Definition topics (kb : LocalAIBrain.KnowledgeBase) : gmap string (list string) :=
  list_to_map
    [ ("weather", LocalAIBrain.weather_responses kb);
      ("time", LocalAIBrain.time_responses kb);
      ("date", LocalAIBrain.date_responses kb);
      ("math", LocalAIBrain.math_responses kb);
      ("robot", LocalAIBrain.robot_responses kb);
      ("capabilities", LocalAIBrain.capabilities_responses kb) ].

(** [knowledge_base["facts"]] *)
Definition facts : gmap string string :=
  list_to_map
    [ ("raspberry_pi", "I'm running on a Raspberry Pi, which is a small but powerful computer perfect for robotics and AI projects!");
      ("open_source", "I'm built with open-source technologies and can work completely offline for privacy and independence.");
      ("expandable", "My knowledge base can be easily expanded by adding new topics and responses to my configuration files.") ].

Definition loaded (clock : LocalAIBrain.Clock) : t :=
  {| builtin := LocalAIBrain._load_knowledge_base clock; custom := None |}.

Definition add_knowledge (topic information : string) (k : t) : t :=
  let table := match custom k with Some table => table | None => ∅ end in
  {| builtin := builtin k; custom := Some (<[topic := information]> table) |}.

(** [r] is the draw of the random generator. *)
Definition get_knowledge (topic : string) (r : nat) (k : t) : option string :=
  match (match custom k with Some table => table !! topic | None => None end) with
  | Some information => Some information
  | None =>
      match topics (builtin k) !! topic with
      | Some responses =>
          match responses with
          | [] => None
          | _ => Some (PyList.choice "" r responses)
          end
      | None => facts !! topic
      end
  end.

End Knowledge.

(* ===================================================================== *)
(** * utils.py *)
(* ===================================================================== *)

Module Utils.

(** The first [n] characters of [s]. *)
Fixpoint take_chars (n : nat) (s : string) : string :=
  match n, s with
  | S n', String c s' => String c (take_chars n' s')
  | _, _ => EmptyString
  end.

(** [s[:k]] with Python's treatment of a negative or too large stop. *)
Definition slice_to (k : Z) (s : string) : string :=
  let n := Z.of_nat (String.length s) in
  let stop := if (k <? 0)%Z then Z.max (n + k) 0 else Z.min k n in
  take_chars (Z.to_nat stop) s.

Definition truncate_text (text : string) (max_length : Z) : string :=
  if (Z.of_nat (String.length text) <=? max_length)%Z then text
  else slice_to (max_length - 3) text ++ "...".

(** [PerformanceMonitor].  The readings of [time.time()] are values of
    [T]; [minus] is their subtraction and [zero] the value [0.0]. *)
Section PerformanceMonitor.

Variable T : Type.
Variable minus : T -> T -> T.
Variable zero : T.

(** One entry of [measurements]: ["start"], and ["duration"] once the
    timer was stopped. *)
Record Measurement := {
  started : T;
  duration : option T
}.

Record Monitor := {
  start_time : option T;
  measurements : gmap string Measurement
}.

Definition new_monitor : Monitor :=
  {| start_time := None; measurements := ∅ |}.

(** [start(name)] when the clock reads [now]. *)
Definition start (now : T) (name : string) (m : Monitor) : Monitor :=
  {| start_time := Some now;
     measurements := <[name := {| started := now; duration := None |}]> (measurements m) |}.

(** [stop(name)] when the clock reads [now]: the value returned and the
    monitor afterwards. *)
Definition stop (now : T) (name : string) (m : Monitor) : T * Monitor :=
  match measurements m !! name with
  | None => (zero, m)
  | Some entry =>
      let d := minus now (started entry) in
      (d, {| start_time := start_time m;
             measurements :=
               <[name := {| started := started entry; duration := Some d |}]>
                 (measurements m) |})
  end.

Definition get_measurement (name : string) (m : Monitor) : option T :=
  match measurements m !! name with
  | Some entry => duration entry
  | None => None
  end.

Definition reset (m : Monitor) : Monitor :=
  {| start_time := None; measurements := ∅ |}.

End PerformanceMonitor.

End Utils.

(* ===================================================================== *)
(** * speech_engine.py, one queue operation at a time *)
(* ===================================================================== *)

(** [SpeechEngine.System] takes a whole [speak] call and a whole round of
    the worker as one step each.  A [speak] that does not interrupt is a
    single [put], so nothing is lost there.  An interrupting [speak] and
    [shutdown] empty the queue in a loop of their own, and the worker can
    take an item between two rounds of that loop, or be inside
    [get(timeout=1)] when the call begins.  In this module every queue
    operation is a step of its own, and each thread has a place in its
    code.  There is one calling thread. *)
Module SpeechThreads.

Inductive call :=
| Speak (text : string) (interrupt : bool)
| Shutdown.

(** Where the calling thread stands.  [item] is what the call in progress
    puts once it has left the clearing loop: the text of an interrupting
    [speak], or [None] for [shutdown]. *)
Inductive caller_pc :=
| CIdle                              (* between two calls *)
| CEmpty (item : option string)      (* at [while not self.speech_queue.empty()] *)
| CGet (item : option string)        (* at [self.speech_queue.get_nowait()] *)
| CTaskDone (item : option string)   (* at [self.speech_queue.task_done()] *)
| CPut (item : option string)        (* at [self.speech_queue.put(item)] *)
| CJoin.                             (* at [self.speech_thread.join(timeout=2)] *)

(** Where the worker stands in [_speech_worker]. *)
Inductive worker_pc :=
| WLoop                  (* at [while self.is_running] *)
| WGet                   (* inside [self.speech_queue.get(timeout=1)] *)
| WSay (text : string)   (* at [self._speak_now(text)] *)
| WSaid                  (* inside [runAndWait()], [is_speaking] being set *)
| WTaskDone              (* at [self.speech_queue.task_done()] *)
| WExit.                 (* the loop is left *)

Record System := {
  engine : SpeechEngine.t;
  caller : caller_pc;
  program : list call;
  worker : worker_pc
}.

Definition with_flags (speaking running : bool) (e : SpeechEngine.t) : SpeechEngine.t :=
  {| SpeechEngine.speech_queue := SpeechEngine.speech_queue e;
     SpeechEngine.unfinished_tasks := SpeechEngine.unfinished_tasks e;
     SpeechEngine.is_speaking := speaking;
     SpeechEngine.is_running := running;
     SpeechEngine.said := SpeechEngine.said e;
     SpeechEngine.stops := SpeechEngine.stops e |}.

(** [self.is_speaking = True; self.engine.say(text)] *)
Definition say (text : string) (e : SpeechEngine.t) : SpeechEngine.t :=
  {| SpeechEngine.speech_queue := SpeechEngine.speech_queue e;
     SpeechEngine.unfinished_tasks := SpeechEngine.unfinished_tasks e;
     SpeechEngine.is_speaking := true;
     SpeechEngine.is_running := SpeechEngine.is_running e;
     SpeechEngine.said := SpeechEngine.said e ++ [text];
     SpeechEngine.stops := SpeechEngine.stops e |}.

(** [self.engine.stop()] *)
Definition engine_stop (e : SpeechEngine.t) : SpeechEngine.t :=
  {| SpeechEngine.speech_queue := SpeechEngine.speech_queue e;
     SpeechEngine.unfinished_tasks := SpeechEngine.unfinished_tasks e;
     SpeechEngine.is_speaking := SpeechEngine.is_speaking e;
     SpeechEngine.is_running := SpeechEngine.is_running e;
     SpeechEngine.said := SpeechEngine.said e;
     SpeechEngine.stops := S (SpeechEngine.stops e) |}.

(** One step of the worker.  A step inside [get(timeout=1)] with nothing
    queued is the timeout: [Empty] is raised and caught by the loop.  The
    exception that [task_done] raises when no task is unfinished is
    caught by the loop as well. *)
Definition worker_step (s : System) : System :=
  let e := engine s in
  let goes_to e' w :=
    {| engine := e'; caller := caller s; program := program s; worker := w |} in
  match worker s with
  | WLoop => goes_to e (if SpeechEngine.is_running e then WGet else WExit)
  | WGet =>
      match SpeechEngine.get_nowait e with
      | (Raises _, e') => goes_to e' WLoop
      | (Returns None, e') => goes_to e' WExit
      | (Returns (Some text), e') => goes_to e' (WSay text)
      end
  | WSay text => goes_to (say text e) WSaid
  | WSaid => goes_to (with_flags false (SpeechEngine.is_running e) e) WTaskDone
  | WTaskDone => goes_to (snd (SpeechEngine.task_done e)) WLoop
  | WExit => s
  end.

(** One step of the calling thread.  A [speak] without interruption is
    the test of the text and one [put].  With interruption it is the
    test, [stop_speaking()] and then the clearing loop, in which the
    bare [except] leaves the loop when [get_nowait] finds nothing or
    [task_done] has nothing to mark.  [shutdown] clears [is_running],
    goes through the same loop, puts the signal, waits for the worker for
    at most two seconds and stops the synthesis engine. *)
Definition caller_step (s : System) : System :=
  let e := engine s in
  let goes_to e' c p :=
    {| engine := e'; caller := c; program := p; worker := worker s |} in
  match caller s with
  | CIdle =>
      match program s with
      | [] => s
      | Speak text interrupt :: rest =>
          if negb (PyStr.truthy (PyStr.strip text)) then goes_to e CIdle rest
          else if interrupt
               then goes_to (snd (SpeechEngine.stop_speaking e)) (CEmpty (Some text)) (program s)
               else goes_to (snd (SpeechEngine.put (Some text) e)) CIdle rest
      | Shutdown :: _ =>
          goes_to (with_flags (SpeechEngine.is_speaking e) false e) (CEmpty None) (program s)
      end
  | CEmpty item =>
      match SpeechEngine.speech_queue e with
      | [] => goes_to e (CPut item) (program s)
      | _ :: _ => goes_to e (CGet item) (program s)
      end
  | CGet item =>
      match SpeechEngine.get_nowait e with
      | (Returns _, e') => goes_to e' (CTaskDone item) (program s)
      | (Raises _, e') => goes_to e' (CPut item) (program s)
      end
  | CTaskDone item =>
      match SpeechEngine.task_done e with
      | (Returns _, e') => goes_to e' (CEmpty item) (program s)
      | (Raises _, e') => goes_to e' (CPut item) (program s)
      end
  | CPut item =>
      let e' := snd (SpeechEngine.put item e) in
      match item with
      | Some _ => goes_to e' CIdle (tail (program s))
      | None => goes_to e' CJoin (program s)
      end
  | CJoin => goes_to (engine_stop e) CIdle (tail (program s))
  end.

Definition step (who : SpeechEngine.thread) (s : System) : System :=
  match who with
  | SpeechEngine.Caller => caller_step s
  | SpeechEngine.Worker => worker_step s
  end.

Definition run (schedule : list SpeechEngine.thread) (s : System) : System :=
  fold_left (fun s who => step who s) schedule s.

(** After [__init__]: the worker has been started. *)
Definition start (prog : list call) : System :=
  {| engine := SpeechEngine.new; caller := CIdle; program := prog; worker := WLoop |}.

(** The text that the worker has taken from the queue and not yet handed
    to the synthesis engine. *)
Definition held (s : System) : list string :=
  match worker s with
  | WSay text => [text]
  | _ => []
  end.

(** The texts that the worker has taken so far, oldest first. *)
Definition taken (s : System) : list string :=
  (SpeechEngine.said (engine s) ++ held s)%list.

(** The items that were taken from the queue and are not yet marked
    done. *)
Definition in_hand (s : System) : nat :=
  match worker s with
  | WSay _ | WSaid | WTaskDone => 1
  | _ => 0
  end
  + match caller s with
    | CTaskDone _ => 1
    | _ => 0
    end.

End SpeechThreads.

(* ===================================================================== *)
(** * Further notions used in the statements *)
(* ===================================================================== *)

(** The queue never holds more items than there are unfinished tasks. *)
Definition accounted (e : SpeechEngine.t) : Prop :=
  length (SpeechEngine.speech_queue e) <= SpeechEngine.unfinished_tasks e.

(** An evaluator that refuses every text that is not trimmed or has a
    character outside [allowed_chars], and otherwise is [py_eval]. *)
Definition guarded (py_eval : string -> outcome string) (expression : string)
  : outcome string :=
  if LocalAIBrain.all_allowed expression
     && String.eqb (PyStr.strip expression) expression
  then py_eval expression
  else Raises TypeError.

(** The labels of [analyze_intent], each with its confidence. *)
Definition intent_labels : list (string * QArith_base.Q) :=
  [ ("greeting", Intent.tenths 9); ("goodbye", Intent.tenths 9);
    ("time_query", Intent.tenths 8); ("date_query", Intent.tenths 8);
    ("calculation", Intent.tenths 7); ("weather_query", Intent.tenths 8);
    ("question", Intent.tenths 6); ("casual_chat", Intent.tenths 5) ].

(** The system while only [speak] calls are made: the worker is in its
    loop, no shutdown signal is queued, nothing is being said, and every
    queued text is an unfinished task. *)
Definition steady (s : SpeechEngine.System) : Prop :=
  SpeechEngine.worker_alive s = true
  /\ SpeechEngine.is_running (SpeechEngine.engine s) = true
  /\ SpeechEngine.is_speaking (SpeechEngine.engine s) = false
  /\ Forall (fun item => item <> None) (SpeechEngine.speech_queue (SpeechEngine.engine s))
  /\ SpeechEngine.unfinished_tasks (SpeechEngine.engine s)
     = length (SpeechEngine.speech_queue (SpeechEngine.engine s)).

(** ** Calls that clear the queue, under every interleaving *)

Definition speak_calls (prog : list (string * bool)) : list SpeechThreads.call :=
  map (fun c => SpeechThreads.Speak (fst c) (snd c)) prog.

(** What a clearing call puts in the end, and the texts in it. *)
Definition item_of (final : SpeechThreads.call) : option string :=
  match final with
  | SpeechThreads.Speak text _ => Some text
  | SpeechThreads.Shutdown => None
  end.

Definition item_texts (final : SpeechThreads.call) : list string :=
  queued_texts [item_of final].

(** The calls that go through the clearing loop: an interrupting [speak]
    of a text that is not blank, and [shutdown]. *)
Definition clears (final : SpeechThreads.call) : Prop :=
  match final with
  | SpeechThreads.Speak text interrupt => interrupt = true /\ nonblank text = true
  | SpeechThreads.Shutdown => True
  end.

(** Every item in the queue or in the hands of a thread is an unfinished
    task. *)
Definition thread_accounted (s : SpeechThreads.System) : Prop :=
  length (SpeechEngine.speech_queue (SpeechThreads.engine s)) + SpeechThreads.in_hand s
  <= SpeechEngine.unfinished_tasks (SpeechThreads.engine s).

(** The texts that the worker has taken, followed by those that wait. *)
Definition taken_and_waiting (s : SpeechThreads.System) : list string :=
  (SpeechThreads.taken s
   ++ queued_texts (SpeechEngine.speech_queue (SpeechThreads.engine s)))%list.

(** After the clearing call has put its item: the queue holds nothing
    else, and what the worker has taken and what waits is a selection of
    the earlier texts, in the order of the calls, followed by the text
    of the call. *)
Definition after_put (prog : list (string * bool)) (final : SpeechThreads.call)
    (s : SpeechThreads.System) : Prop :=
  Forall (fun item => item = item_of final)
         (SpeechEngine.speech_queue (SpeechThreads.engine s))
  /\ exists p, p `sublist_of` enqueued prog
               /\ taken_and_waiting s = (p ++ item_texts final)%list.

(** What holds while the caller makes the calls [prog], none of them
    interrupting, and then the clearing call [final]: before [final] the
    texts taken, waiting and still to come make up those of [prog];
    inside the clearing loop the texts taken and waiting are a selection
    of them; when the loop is left the queue is empty. *)
Definition clearing_invariant (prog : list (string * bool)) (final : SpeechThreads.call)
    (s : SpeechThreads.System) : Prop :=
  thread_accounted s
  /\ match SpeechThreads.caller s with
     | SpeechThreads.CIdle =>
         (exists rest,
             SpeechThreads.program s = (speak_calls rest ++ [final])%list
             /\ Forall (fun call => snd call = false) rest
             /\ (taken_and_waiting s ++ enqueued rest)%list = enqueued prog)
         \/ (SpeechThreads.program s = []
             /\ (final = SpeechThreads.Shutdown ->
                 SpeechEngine.is_running (SpeechThreads.engine s) = false)
             /\ after_put prog final s)
     | SpeechThreads.CEmpty item | SpeechThreads.CGet item
     | SpeechThreads.CTaskDone item =>
         item = item_of final
         /\ SpeechThreads.program s = [final]
         /\ (final = SpeechThreads.Shutdown ->
             SpeechEngine.is_running (SpeechThreads.engine s) = false)
         /\ taken_and_waiting s `sublist_of` enqueued prog
     | SpeechThreads.CPut item =>
         item = item_of final
         /\ SpeechThreads.program s = [final]
         /\ (final = SpeechThreads.Shutdown ->
             SpeechEngine.is_running (SpeechThreads.engine s) = false)
         /\ SpeechEngine.speech_queue (SpeechThreads.engine s) = []
         /\ SpeechThreads.taken s `sublist_of` enqueued prog
     | SpeechThreads.CJoin =>
         final = SpeechThreads.Shutdown
         /\ SpeechThreads.program s = [final]
         /\ SpeechEngine.is_running (SpeechThreads.engine s) = false
         /\ after_put prog final s
     end.

(** After [shutdown] has returned: the caller makes no further call and
    the queue holds shutdown signals only. *)
Definition shut_down (s : SpeechThreads.System) : Prop :=
  SpeechThreads.caller s = SpeechThreads.CIdle
  /\ SpeechThreads.program s = []
  /\ SpeechEngine.is_running (SpeechThreads.engine s) = false
  /\ Forall (fun item => item = None)
            (SpeechEngine.speech_queue (SpeechThreads.engine s)).

(** The steps that the worker needs at most to leave its loop once the
    engine is shut down. *)
Definition steps_to_exit (s : SpeechThreads.System) : nat :=
  match SpeechThreads.worker s with
  | SpeechThreads.WExit => 0
  | SpeechThreads.WLoop => 1
  | SpeechThreads.WGet =>
      match SpeechEngine.speech_queue (SpeechThreads.engine s) with
      | [] => 2
      | _ :: _ => 1
      end
  | SpeechThreads.WTaskDone => 2
  | SpeechThreads.WSaid => 3
  | SpeechThreads.WSay _ => 4
  end.

(** How many steps of the worker a schedule has. *)
Definition worker_steps (schedule : list SpeechEngine.thread) : nat :=
  length (List.filter (fun who => match who with
                                  | SpeechEngine.Worker => true
                                  | SpeechEngine.Caller => false
                                  end) schedule).
Example lower_ex : PyStr.lower "Hey HARO, 4*5?" = "hey haro, 4*5?".
Proof. reflexivity. Qed.

Example strip_ex : PyStr.strip "  what time  is it " = "what time  is it".
Proof. reflexivity. Qed.

Example contains_ex :
  PyStr.contains "ai" "rain" = true /\ PyStr.contains "ai" "what time is it" = false
  /\ PyStr.contains "" "" = true.
Proof. repeat split; reflexivity. Qed.

Example replace_ex :
  PyStr.replace "haro" "" "haharoro haro" = "haro "
  /\ PyStr.replace "aa" "b" "aaaaa" = "bba"
  /\ PyStr.replace "" "-" "ab" = "-a-b-".
Proof. repeat split; reflexivity. Qed.

Example slice_ex :
  PyList.slice_from (-2) [1;2;3;4] = [3;4]
  /\ PyList.slice_from (-0) [1;2;3;4] = [1;2;3;4]
  /\ PyList.slice_from (-9) [1;2;3;4] = [1;2;3;4]
  /\ PyList.slice_from 9 [1;2;3;4] = [].
Proof. repeat split; reflexivity. Qed.

Example str_of_Z_ex : PyStr.str_of_Z 20 = "20" /\ PyStr.str_of_Z (-7) = "-7".
Proof. split; reflexivity. Qed.

(* ===================================================================== *)
(** * Substrings *)
(* ===================================================================== *)

Lemma append_cons (c : ascii) (s t : string) : String c s ++ t = String c (s ++ t).
Proof. reflexivity. Qed.

Lemma append_nil (t : string) : "" ++ t = t.
Proof. reflexivity. Qed.

Lemma prefix_iff (p s : string) :
  String.prefix p s = true <-> exists post, s = p ++ post.
Proof.
  revert s. induction p as [|c p IH]; intros s; simpl.
  - split; [intros _; exists s; reflexivity | destruct s; reflexivity].
  - destruct s as [|d s]; simpl.
    + split; [discriminate | intros [post H]; discriminate].
    + destruct (Ascii.ascii_dec c d) as [->|Hne].
      * rewrite IH. split; intros [post H]; exists post;
          rewrite append_cons in *; congruence.
      * split; [discriminate | intros [post H]; rewrite append_cons in H; congruence].
Qed.

Lemma contains_nil (sub : string) :
  PyStr.contains sub "" = String.prefix sub "" || false.
Proof. reflexivity. Qed.

Lemma contains_cons (sub : string) (c : ascii) (s : string) :
  PyStr.contains sub (String c s)
  = String.prefix sub (String c s) || PyStr.contains sub s.
Proof. reflexivity. Qed.

Lemma contains_iff (sub s : string) :
  PyStr.contains sub s = true <-> occurs_in sub s.
Proof.
  induction s as [|c s IH]; [rewrite contains_nil | rewrite contains_cons].
  - rewrite orb_false_r, prefix_iff. split.
    + intros [post H]. exists "", post. exact H.
    + intros [pre [post H]]. destruct pre.
      * exists post. exact H.
      * discriminate.
  - rewrite orb_true_iff, prefix_iff, IH. split.
    + intros [[post H] | [pre [post H]]].
      * exists "", post. exact H.
      * exists (String c pre), post. rewrite append_cons. congruence.
    + intros [pre [post H]]. destruct pre as [|d pre].
      * left. exists post. exact H.
      * right. exists pre, post. rewrite append_cons in H. congruence.
Qed.

Lemma contains_false_iff (sub s : string) :
  PyStr.contains sub s = false <-> ~ occurs_in sub s.
Proof.
  split.
  - intros H Hocc. apply contains_iff in Hocc. congruence.
  - intros H. destruct (PyStr.contains sub s) eqn:E; [|reflexivity].
    exfalso. apply H, contains_iff, E.
Qed.

Lemma truthy_iff (s : string) : PyStr.truthy s = true <-> s <> "".
Proof. destruct s; simpl; split; intros H; congruence. Qed.

(* ===================================================================== *)
(** * The session *)
(* ===================================================================== *)

Lemma choice_In {A} (d : A) (r : nat) (pool : list A) :
  pool <> [] -> In (PyList.choice d r pool) pool.
Proof.
  intros Hne. unfold PyList.choice. apply nth_In.
  apply Nat.mod_upper_bound. destruct pool; simpl; [congruence | lia].
Qed.

Section SessionFacts.

Variable cfg : Config.
Variable generate : list Message -> string -> nat -> outcome string.

(** What the body of [process_input] leaves when the responder fails. *)
Lemma process_input_failure (u : string) (r : nat) (b : Brain) (e : exn) :
  generate (conversation_history b ++ [{| role := user; content := u |}]) u r = Raises e ->
  process_input cfg generate u r b
  = (Returns (PyList.choice "" r error_responses),
     set_history (conversation_history b ++ [{| role := user; content := u |}]) b).
Proof.
  intros Hgen. unfold process_input, try_except, bind, append_message, modify,
    get_state, lift, _get_error_response, ret. simpl. rewrite Hgen. reflexivity.
Qed.

Lemma process_input_success (u : string) (r : nat) (b : Brain) (reply : string) :
  generate (conversation_history b ++ [{| role := user; content := u |}]) u r = Returns reply ->
  process_input cfg generate u r b
  = (Returns reply,
     snd (_manage_conversation_history cfg (set_history (extended b u reply) b)))
  /\ fst (_manage_conversation_history cfg (set_history (extended b u reply) b)) = Returns tt.
Proof.
  intros Hgen.
  assert (Hm : fst (_manage_conversation_history cfg (set_history (extended b u reply) b))
               = Returns tt).
  { unfold _manage_conversation_history. simpl.
    destruct (_ >? _)%Z; [|reflexivity].
    unfold extended. destruct (conversation_history b); reflexivity. }
  split; [|exact Hm].
  unfold process_input, try_except, bind, append_message, modify,
    get_state, lift, ret. simpl. rewrite Hgen. simpl.
  unfold extended in Hm |- *. rewrite <- app_assoc. simpl in *.
  destruct (_manage_conversation_history cfg _) as [[[]|e] b']; simpl in *;
    [reflexivity | discriminate].
Qed.

End SessionFacts.

(* --------------------------------------------------------------------- *)
(** ** Trimming *)
(* --------------------------------------------------------------------- *)

Lemma last_drop_lt {A} (l : list A) (k : nat) :
  k < length l -> last (drop k l) = last l.
Proof.
  intros Hk. rewrite <- (take_drop k l) at 2. rewrite last_app.
  destruct (drop k l) as [|x d] eqn:E.
  - apply (f_equal length) in E. rewrite length_drop in E. simpl in E. lia.
  - destruct (last (x :: d)) eqn:El; [reflexivity|].
    rewrite last_cons in El. destruct (last d); discriminate.
Qed.

Lemma slice_from_neg {A} (k : Z) (l : list A) :
  (0 < k)%Z -> PyList.slice_from (- k) l = drop (length l - Z.to_nat k) l.
Proof.
  intros Hk. unfold PyList.slice_from.
  destruct (Z.ltb_spec (- k) 0); [|lia]. f_equal. lia.
Qed.

Lemma slice_from_zero {A} (l : list A) : PyList.slice_from 0 l = l.
Proof.
  unfold PyList.slice_from. simpl. rewrite Z.min_l by lia. reflexivity.
Qed.

Section Trimming.

Variable cfg : Config.
Local Abbreviation B := (MAX_CONVERSATION_HISTORY cfg).

Lemma manage_keep (b : Brain) :
  (Z.of_nat (length (conversation_history b)) <= B * 2 + 1)%Z ->
  _manage_conversation_history cfg b = (Returns tt, b).
Proof.
  intros Hle. unfold _manage_conversation_history.
  destruct (Z.gtb_spec (Z.of_nat (length (conversation_history b))) (B * 2 + 1));
    [lia | reflexivity].
Qed.

Lemma manage_trim (b : Brain) (h0 : Message) (tl : list Message) :
  conversation_history b = h0 :: tl ->
  (0 < B)%Z ->
  (B * 2 + 1 < Z.of_nat (length (h0 :: tl)))%Z ->
  _manage_conversation_history cfg b
  = (Returns tt, set_history (h0 :: drop (length tl - Z.to_nat (B * 2)) tl) b).
Proof.
  intros Hh HB Hlt. unfold _manage_conversation_history. rewrite Hh.
  destruct (Z.gtb_spec (Z.of_nat (length (h0 :: tl))) (B * 2 + 1)); [|lia].
  replace (B * 2 + 1 - 1)%Z with (B * 2)%Z by lia.
  rewrite slice_from_neg by lia. simpl length in *.
  replace (S (length tl) - Z.to_nat (B * 2)) with (S (length tl - Z.to_nat (B * 2))) by lia.
  reflexivity.
Qed.

Lemma manage_trim_zero (b : Brain) (h0 : Message) (tl : list Message) :
  conversation_history b = h0 :: tl ->
  B = 0%Z ->
  tl <> [] ->
  _manage_conversation_history cfg b
  = (Returns tt, set_history (h0 :: h0 :: tl) b).
Proof.
  intros Hh HB Hne. unfold _manage_conversation_history. rewrite Hh, HB.
  destruct tl as [|x tl]; [congruence|].
  destruct (Z.gtb_spec (Z.of_nat (length (h0 :: x :: tl))) (0 * 2 + 1)) as [_|Hc];
    [| simpl length in Hc; lia].
  simpl. rewrite slice_from_zero. reflexivity.
Qed.

(** Trimming keeps the last turn, whatever the budget (from 0 on). *)
Lemma manage_last (b : Brain) :
  (0 <= B)%Z ->
  2 <= length (conversation_history b) ->
  last (conversation_history (snd (_manage_conversation_history cfg b)))
  = last (conversation_history b).
Proof.
  intros HB Hlen.
  destruct (conversation_history b) as [|h0 tl] eqn:Hh; [simpl in Hlen; lia|].
  destruct (Z.le_gt_cases (Z.of_nat (length (h0 :: tl))) (B * 2 + 1)) as [Hle|Hgt].
  - rewrite manage_keep by (rewrite Hh; exact Hle). simpl. rewrite Hh. reflexivity.
  - destruct (Z.eq_dec B 0%Z) as [H0|Hn0].
    + rewrite (manage_trim_zero b h0 tl Hh H0).
      * simpl conversation_history. rewrite last_cons_cons. reflexivity.
      * destruct tl; simpl in Hlen; [lia | congruence].
    + rewrite (manage_trim b h0 tl Hh) by lia. simpl conversation_history.
      simpl length in Hgt.
      assert (Hk : length tl - Z.to_nat (B * 2) < length tl) by lia.
      rewrite !last_cons, (last_drop_lt tl _ Hk).
      destruct (last tl) eqn:El; [reflexivity|].
      destruct tl; [simpl in Hk; lia|].
      rewrite last_cons in El. destruct (last tl); discriminate.
Qed.

(** After a trim with a budget of at least one exchange the history has
    the system prompt and the latest [2 * B] turns. *)
Lemma manage_length (b : Brain) :
  (1 <= B)%Z ->
  (Z.of_nat (length (conversation_history (snd (_manage_conversation_history cfg b))))
   <= Z.max (Z.of_nat (length (conversation_history b))) 0)%Z
  /\ ((B * 2 + 1 < Z.of_nat (length (conversation_history b)))%Z ->
      Z.of_nat (length (conversation_history (snd (_manage_conversation_history cfg b))))
      = (B * 2 + 1)%Z).
Proof.
  intros HB.
  destruct (Z.le_gt_cases (Z.of_nat (length (conversation_history b))) (B * 2 + 1)) as [Hle|Hgt].
  - rewrite manage_keep by exact Hle. simpl. split; lia.
  - destruct (conversation_history b) as [|h0 tl] eqn:Hh; [simpl in Hgt; lia|].
    rewrite (manage_trim b h0 tl Hh) by lia. simpl conversation_history.
    simpl length in *. rewrite length_drop. split; lia.
Qed.

End Trimming.

(* --------------------------------------------------------------------- *)
(** ** Counting turns and pairing *)
(* --------------------------------------------------------------------- *)

Lemma count_role_cons (ro : Role) (m : Message) (h : list Message) :
  count_role ro (m :: h)
  = (if decide (role m = ro) then 1 else 0) + count_role ro h.
Proof.
  unfold count_role. rewrite filter_cons. destruct (decide (role m = ro)); reflexivity.
Qed.

Lemma count_role_app (ro : Role) (h1 h2 : list Message) :
  count_role ro (h1 ++ h2) = count_role ro h1 + count_role ro h2.
Proof. unfold count_role. rewrite filter_app, length_app. reflexivity. Qed.

Lemma count_user_assistant_le (h : list Message) :
  count_role user h + count_role assistant h <= length h.
Proof.
  induction h as [|m h IH]; [reflexivity|].
  rewrite !count_role_cons. simpl length.
  destruct (decide (role m = user)) as [E|], (decide (role m = assistant)); try lia.
  rewrite E in *. discriminate.
Qed.

Lemma count_system_head (m : Message) (h : list Message) :
  role m = system ->
  count_role user (m :: h) + count_role assistant (m :: h)
  = count_role user h + count_role assistant h.
Proof.
  intros E. rewrite !count_role_cons, E.
  destruct (decide (system = user)), (decide (system = assistant)); try discriminate.
  reflexivity.
Qed.

Lemma paired_app (l1 l2 : list Message) :
  paired l1 = true -> paired (l1 ++ l2) = paired l2.
Proof.
  revert l1. fix IH 1. intros [|u [|a rest]]; simpl; intros H.
  - reflexivity.
  - discriminate.
  - apply andb_true_iff in H as [H1 H2]. rewrite H1. simpl. apply IH, H2.
Qed.

Lemma paired_drop_even (j : nat) (l : list Message) :
  paired l = true -> paired (drop (2 * j) l) = true.
Proof.
  revert l. induction j as [|j IH]; intros l H.
  - rewrite drop_0. exact H.
  - replace (2 * S j) with (2 + 2 * j) by lia. rewrite <- drop_drop.
    destruct l as [|u [|a rest]]; simpl in H |- *; try discriminate.
    + rewrite drop_nil. reflexivity.
    + apply andb_true_iff in H as [_ H2]. replace (j + (j + 0)) with (2 * j) by lia.
      apply IH, H2.
Qed.

Lemma paired_length_even (l : list Message) :
  paired l = true -> exists j, length l = 2 * j.
Proof.
  revert l. fix IH 1. intros [|u [|a rest]]; simpl; intros H.
  - exists 0. reflexivity.
  - discriminate.
  - apply andb_true_iff in H as [_ H2]. destruct (IH rest H2) as [j Hj].
    exists (S j). lia.
Qed.

(* --------------------------------------------------------------------- *)
(** ** Calls that succeed *)
(* --------------------------------------------------------------------- *)

Section SuccessfulCalls.

Variable cfg : Config.
Variable generate : list Message -> string -> nat -> outcome string.
Local Abbreviation B := (MAX_CONVERSATION_HISTORY cfg).

(** With a budget of at least one exchange, a call whose responder
    answers leaves the system prompt in front, at most [2 * B] user and
    assistant turns, and whole pairs if there were whole pairs before. *)
Lemma successful_call_keeps_bound (u : string) (r : nat) (b : Brain)
    (reply : string) (h0 : Message) (tl : list Message) :
  (1 <= B)%Z ->
  conversation_history b = h0 :: tl ->
  role h0 = system ->
  generate (conversation_history b ++ [{| role := user; content := u |}]) u r = Returns reply ->
  exists tl',
    conversation_history (snd (process_input cfg generate u r b)) = h0 :: tl'
    /\ (Z.of_nat (length tl') <= 2 * B)%Z
    /\ (Z.of_nat (count_role user (h0 :: tl') + count_role assistant (h0 :: tl')) <= 2 * B)%Z
    /\ (paired tl = true -> paired tl' = true).
Proof.
  intros HB Hh Hsys Hgen.
  destruct (process_input_success cfg generate u r b reply Hgen) as [-> _].
  simpl snd. set (b1 := set_history (extended b u reply) b).
  set (tl1 := (tl ++ [{| role := user; content := u |};
                      {| role := assistant; content := reply |}])%list).
  assert (Hh1 : conversation_history b1 = h0 :: tl1).
  { subst b1 tl1. simpl. unfold extended. rewrite Hh. reflexivity. }
  assert (Hp1 : paired tl = true -> paired tl1 = true).
  { intros Hp. subst tl1. rewrite paired_app by exact Hp. reflexivity. }
  assert (Hfin : forall tl', (Z.of_nat (length tl') <= 2 * B)%Z ->
     (Z.of_nat (count_role user (h0 :: tl') + count_role assistant (h0 :: tl')) <= 2 * B)%Z).
  { intros tl' Hl. rewrite count_system_head by exact Hsys.
    pose proof (count_user_assistant_le tl'). lia. }
  destruct (Z.le_gt_cases (Z.of_nat (length (h0 :: tl1))) (B * 2 + 1)) as [Hle|Hgt].
  - rewrite manage_keep by (rewrite Hh1; exact Hle). exists tl1.
    simpl length in Hle. repeat split; [exact Hh1 | lia | apply Hfin; lia | exact Hp1].
  - rewrite (manage_trim cfg b1 h0 tl1 Hh1) by lia.
    exists (drop (length tl1 - Z.to_nat (B * 2)) tl1).
    simpl length in Hgt.
    assert (Hl : (Z.of_nat (length (drop (length tl1 - Z.to_nat (B * 2)) tl1)) <= 2 * B)%Z)
      by (rewrite length_drop; lia).
    repeat split; [exact Hl | apply Hfin, Hl |].
    intros Hp. specialize (Hp1 Hp).
    destruct (paired_length_even tl1 Hp1) as [j Hj].
    replace (length tl1 - Z.to_nat (B * 2)) with (2 * (j - Z.to_nat B)) by lia.
    apply paired_drop_even, Hp1.
Qed.

End SuccessfulCalls.

(* ===================================================================== *)
(** * Properties of the session *)
(* ===================================================================== *)

(** Failed calls only ever add user turns: nothing trims them. *)
Lemma failed_calls_accumulate (cfg : Config) (u : string) (r n : nat) (b : Brain) :
  conversation_history
    (AIBrain.run cfg (repeat (endpoint_down, u, r) n) b)
  = (conversation_history b ++ repeat {| role := user; content := u |} n)%list.
Proof.
  revert b. induction n as [|n IH]; intros b.
  - simpl. rewrite app_nil_r. reflexivity.
  - change (AIBrain.run cfg (repeat (endpoint_down, u, r) (S n)) b)
      with (AIBrain.run cfg (repeat (endpoint_down, u, r) n)
              (snd (AIBrain.process_input cfg endpoint_down u r b))).
    rewrite IH. unfold AIBrain.process_input.
    rewrite (process_input_failure cfg _ u r b (APIError "Connection error."))
      by reflexivity.
    simpl. rewrite <- app_assoc. reflexivity.
Qed.

(** The local responder never raises, so every call of the local brain is
    a successful one: from a fresh brain, and for a budget of at least one
    exchange, every run leaves the system prompt in front, followed by at
    most [2 * B] turns in whole pairs. *)
Lemma local_run_keeps_invariants (cfg : Config) (kb : LocalAIBrain.KnowledgeBase)
    (py_eval : string -> outcome string) (calls : list (string * nat)) (b : Brain)
    (h0 : Message) (tl : list Message) :
  (1 <= MAX_CONVERSATION_HISTORY cfg)%Z ->
  conversation_history b = h0 :: tl ->
  role h0 = system ->
  (Z.of_nat (length tl) <= 2 * MAX_CONVERSATION_HISTORY cfg)%Z ->
  paired tl = true ->
  exists tl',
    conversation_history
      (process_all cfg (LocalAIBrain.generate cfg kb py_eval) calls b) = h0 :: tl'
    /\ (Z.of_nat (length tl') <= 2 * MAX_CONVERSATION_HISTORY cfg)%Z
    /\ (Z.of_nat (count_role user (h0 :: tl') + count_role assistant (h0 :: tl'))
        <= 2 * MAX_CONVERSATION_HISTORY cfg)%Z
    /\ paired tl' = true.
Proof.
  intros HB. revert b tl. induction calls as [|[u r] calls IH]; intros b tl Hh Hsys Hlen Hp.
  - exists tl. simpl. repeat split; try assumption.
    rewrite count_system_head by exact Hsys.
    pose proof (count_user_assistant_le tl). lia.
  - simpl.
    destruct (successful_call_keeps_bound cfg (LocalAIBrain.generate cfg kb py_eval)
                u r b (LocalAIBrain._generate_local_response cfg kb py_eval u r)
                h0 tl HB Hh Hsys eq_refl) as (tl1 & Hh1 & Hl1 & _ & Hp1).
    apply (IH _ tl1 Hh1 Hsys Hl1 (Hp1 Hp)).
Qed.

(** With a budget of 0 the slice [history[-0:]] is the whole history:
    the trim then puts a second copy of the system prompt in front and
    removes nothing. *)
Lemma zero_budget_duplicates_system_turn :
  map role
    (conversation_history
       (AIBrain.run zero_budget_config [(endpoint_answers "reply", "hello", 0)]
          (AIBrain.new zero_budget_config)))
  = [system; system; user; assistant].
Proof. reflexivity. Qed.

(** C1 (history bound), on the code: with the budget of [config.py]
    (10 exchanges, so at most 20 user and assistant turns), 21 calls in a
    row whose completion request fails leave 21 user turns in the history:
    the failure path of [process_input] appends the user turn and returns
    before [_manage_conversation_history] runs, so the bound that the
    claim states for every call, failed ones included, is exceeded. *)
Theorem history_bound_exceeded_by_failed_calls :
  let calls := repeat (endpoint_down, "hello", 0) 21 in
  let h := conversation_history
             (AIBrain.run default_config calls (AIBrain.new default_config)) in
  count_role user h + count_role assistant h = 21
  /\ (2 * MAX_CONVERSATION_HISTORY default_config = 20)%Z
  /\ length h = 22.
Proof. vm_compute. repeat split; try reflexivity. Qed.

(** C2 (failure fallback): when the responder raises, [process_input]
    returns (it does not raise) one of the three fallback apologies, and
    the history is the former history followed by the user turn alone:
    it grows by exactly one turn and no assistant turn is recorded. *)
Theorem failure_returns_fallback_and_one_turn
    (cfg : Config) (generate : list Message -> string -> nat -> outcome string)
    (u : string) (r : nat) (b : Brain) (e : exn) :
  generate (conversation_history b ++ [{| role := user; content := u |}])%list u r = Raises e ->
  exists reply b',
    process_input cfg generate u r b = (Returns reply, b')
    /\ In reply error_responses
    /\ conversation_history b'
       = (conversation_history b ++ [{| role := user; content := u |}])%list
    /\ length (conversation_history b') = S (length (conversation_history b))
    /\ count_role assistant (conversation_history b')
       = count_role assistant (conversation_history b)
    /\ user_context b' = user_context b.
Proof.
  intros Hgen. eexists _, _. split; [apply (process_input_failure _ _ _ _ _ e Hgen)|].
  split; [apply choice_In; discriminate|].
  simpl. repeat split.
  - rewrite length_app. simpl. lia.
  - rewrite count_role_app. unfold count_role at 2. simpl. lia.
Qed.

Lemma failure_returns_fallback_and_one_turn_witness :
  exists reply b',
    process_input default_config (AIBrain.generate endpoint_down) "hello" 0
      (AIBrain.new default_config) = (Returns reply, b')
    /\ In reply error_responses
    /\ conversation_history b'
       = (conversation_history (AIBrain.new default_config)
            ++ [{| role := user; content := "hello" |}])%list
    /\ length (conversation_history b')
       = S (length (conversation_history (AIBrain.new default_config)))
    /\ count_role assistant (conversation_history b')
       = count_role assistant (conversation_history (AIBrain.new default_config))
    /\ user_context b' = user_context (AIBrain.new default_config).
Proof.
  apply (failure_returns_fallback_and_one_turn default_config
           (AIBrain.generate endpoint_down) "hello" 0 (AIBrain.new default_config)
           (APIError "Connection error.")).
  reflexivity.
Defined.

(** C3 (pairing), on the code: a call whose completion request fails
    leaves its user turn in the history without a reply.  After a failed
    call and a successful one the turns behind the system prompt read
    user, user, assistant; and with ten exchanges before them the trim
    drops three turns, so that the history goes on from the system prompt
    with an assistant turn whose user turn was evicted. *)
Theorem pairing_broken_by_failed_call :
  let b0 := AIBrain.new default_config in
  let b2 := AIBrain.run default_config
              [(endpoint_down, "first", 0); (endpoint_answers "reply", "second", 0)] b0 in
  let b12 := AIBrain.run default_config
               (repeat (endpoint_answers "reply", "question", 0) 10
                ++ [(endpoint_down, "first", 0); (endpoint_answers "reply", "second", 0)])%list
               b0 in
  map role (conversation_history b2) = [system; user; user; assistant]
  /\ paired (tail (conversation_history b2)) = false
  /\ map role (take 3 (conversation_history b12)) = [system; assistant; user]
  /\ length (conversation_history b12) = 21
  /\ paired (tail (conversation_history b12)) = false.
Proof. vm_compute. repeat split; try reflexivity. Qed.

(** C8 (reset): [reset_conversation] leaves exactly the system turn in
    the history, leaves the user context as it was, under every key, and
    the summary taken right afterwards counts no exchange. *)
Theorem reset_leaves_system_turn_only
    (cfg : Config) (system_prompt model_label : string) (b : Brain) :
  let b' := snd (reset_conversation system_prompt b) in
  fst (reset_conversation system_prompt b) = Returns tt
  /\ conversation_history b' = [{| role := system; content := system_prompt |}]
  /\ user_context b' = user_context b
  /\ (forall key, get_user_context key b' = get_user_context key b)
  /\ total_exchanges (get_conversation_summary cfg model_label b') = 0%Z
  /\ history_length (get_conversation_summary cfg model_label b') = 1%Z.
Proof. repeat split. Qed.

(** C10 (the reply is the last turn): when the responder answers, the
    call returns its answer, and the last element of the history is then
    the assistant turn with that answer: the trim never removes the turn
    that was just appended.  The budget is an integer from 0 on. *)
Theorem reply_is_last_turn
    (cfg : Config) (generate : list Message -> string -> nat -> outcome string)
    (u : string) (r : nat) (b : Brain) (reply : string) :
  (0 <= MAX_CONVERSATION_HISTORY cfg)%Z ->
  generate (conversation_history b ++ [{| role := user; content := u |}])%list u r
    = Returns reply ->
  exists b',
    process_input cfg generate u r b = (Returns reply, b')
    /\ last (conversation_history b') = Some {| role := assistant; content := reply |}.
Proof.
  intros HB Hgen.
  destruct (process_input_success cfg generate u r b reply Hgen) as [Heq _].
  eexists. split; [exact Heq|].
  rewrite manage_last.
  - simpl. unfold extended. rewrite app_assoc. apply last_snoc.
  - exact HB.
  - simpl. unfold extended. rewrite !length_app. simpl. lia.
Qed.

Lemma reply_is_last_turn_witness :
  exists b',
    process_input default_config (AIBrain.generate (endpoint_answers "It is noon."))
      "what time is it" 0 (AIBrain.new default_config)
    = (Returns "It is noon.", b')
    /\ last (conversation_history b')
       = Some {| role := assistant; content := "It is noon." |}.
Proof.
  apply (reply_is_last_turn default_config
           (AIBrain.generate (endpoint_answers "It is noon."))
           "what time is it" 0 (AIBrain.new default_config) "It is noon.").
  - simpl. lia.
  - reflexivity.
Defined.

(* ===================================================================== *)
(** * The local responder *)
(* ===================================================================== *)

Lemma find_first_match {A} (p : A -> bool) (l : list A) :
  match List.find p l with
  | Some x => exists before after,
                l = (before ++ x :: after)%list /\ p x = true
                /\ Forall (fun y => p y = false) before
  | None => Forall (fun y => p y = false) l
  end.
Proof.
  induction l as [|a l IH]; simpl.
  - constructor.
  - destruct (p a) eqn:E.
    + exists [], l. repeat split; [exact E | constructor].
    + destruct (List.find p l) as [x|].
      * destruct IH as (before & after & -> & Hx & Hb).
        exists (a :: before), after. repeat split; [exact Hx | constructor; assumption].
      * constructor; assumption.
Qed.

(** What [classify] means: the category found is the first one, in
    priority order, with a trigger word in the text. *)
Lemma classify_first_match (text : string) :
  (exists before after,
      priority_order = (before ++ classify text :: after)%list
      /\ category_matches text (classify text) = true
      /\ Forall (fun c => category_matches text c = false) before)
  \/ (classify text = Unknown
      /\ Forall (fun c => category_matches text c = false) priority_order).
Proof.
  unfold classify.
  pose proof (find_first_match (category_matches text) priority_order) as H.
  destruct (List.find (category_matches text) priority_order) as [c|].
  - left. exact H.
  - right. split; [reflexivity | exact H].
Qed.

Section LocalResponder.

Variable cfg : Config.
Variable clock : LocalAIBrain.Clock.
Variable py_eval : string -> outcome string.

Local Abbreviation kb := (LocalAIBrain._load_knowledge_base clock).

Lemma generate_by_category (u : string) (r : nat) :
  LocalAIBrain._generate_local_response cfg kb py_eval u r
  = match classify (PyStr.strip (PyStr.lower u)) with
    | MathExpression => LocalAIBrain._handle_math py_eval u
    | SelfIdentity => self_introduction cfg kb
    | c => PyList.choice "" r (pool kb c)
    end.
Proof.
  unfold LocalAIBrain._generate_local_response, classify, priority_order.
  set (text := PyStr.strip (PyStr.lower u)).
  cbn [List.find]. unfold category_matches. cbn [trigger_words].
  repeat (match goal with
          | |- context [LocalAIBrain.any_word_in ?ws text] =>
              destruct (LocalAIBrain.any_word_in ws text); [reflexivity|]
          end).
  reflexivity.
Qed.

End LocalResponder.

(** C9 (classification): the local responder answers by the first
    category, in the order greeting, goodbye, thanks, time, date,
    weather, math, robot, capability, self-identity, that has a trigger
    word in the lower-cased, trimmed utterance, and by the unknown
    category when none has.  Math answers with the math handler,
    self-identity with the fixed introduction, and every other category
    with the member of its own pool that the random draw selects. *)
Theorem local_response_follows_priority_order
    (cfg : Config) (clock : LocalAIBrain.Clock)
    (py_eval : string -> outcome string) (u : string) (r : nat) :
  let kb := LocalAIBrain._load_knowledge_base clock in
  let text := PyStr.strip (PyStr.lower u) in
  let response := LocalAIBrain._generate_local_response cfg kb py_eval u r in
  ((exists before after,
       priority_order = (before ++ classify text :: after)%list
       /\ category_matches text (classify text) = true
       /\ Forall (fun c => category_matches text c = false) before)
   \/ (classify text = Unknown
       /\ Forall (fun c => category_matches text c = false) priority_order))
  /\ match classify text with
     | MathExpression => response = LocalAIBrain._handle_math py_eval u
     | SelfIdentity => response = self_introduction cfg kb
     | c => response = PyList.choice "" r (pool kb c) /\ In response (pool kb c)
     end.
Proof.
  intros kb text response. split; [apply classify_first_match|].
  subst response kb text. rewrite generate_by_category.
  destruct (classify (PyStr.strip (PyStr.lower u)));
    try reflexivity; (split; [reflexivity | apply choice_In; discriminate]).
Qed.

(** Earlier categories win: a greeting word hides a time word, and "hi"
    inside "this" is a greeting. *)
Example priority_examples :
  classify "hello what time is it" = Greeting
  /\ classify "what time is it" = TimeQuery
  /\ classify "is this the weather" = Greeting
  /\ classify "will it rain today" = DateQuery
  /\ classify "calculate 4*5" = MathExpression
  /\ classify "can you walk" = Robot
  /\ classify "who are you" = SelfIdentity
  /\ classify "tell me a story" = Unknown.
Proof. repeat split; reflexivity. Qed.

(* --------------------------------------------------------------------- *)
(** ** The math handler *)
(* --------------------------------------------------------------------- *)

Lemma all_chars_cons (p : ascii -> bool) (c : ascii) (s : string) :
  all_chars p (String c s) = p c && all_chars p s.
Proof. reflexivity. Qed.

Lemma match_here_spec (s : string) :
  exists post,
    s = LocalAIBrain.match_here s ++ post
    /\ all_chars LocalAIBrain.math_pattern_char (LocalAIBrain.match_here s) = true
    /\ match post with
       | EmptyString => True
       | String c _ => LocalAIBrain.math_pattern_char c = false
       end.
Proof.
  induction s as [|c s (post & Heq & Hall & Hpost)]; simpl.
  - exists "". repeat split.
  - destruct (LocalAIBrain.math_pattern_char c) eqn:E.
    + exists post. rewrite append_cons, all_chars_cons, E, Hall, <- Heq.
      repeat split. exact Hpost.
    + exists (String c s). repeat split. exact E.
Qed.

Lemma re_search_first_maximal (s m : string) :
  LocalAIBrain.re_search s = Some m -> first_maximal_run s m.
Proof.
  revert m. induction s as [|c s IH]; intros m; simpl; [discriminate|].
  destruct (LocalAIBrain.math_pattern_char c) eqn:E.
  - intros [= <-]. destruct (match_here_spec s) as (post & Heq & Hall & Hpost).
    exists "", post. rewrite append_nil, append_cons, all_chars_cons, E, Hall, <- Heq.
    repeat split; [discriminate | exact Hpost].
  - intros Hm. destruct (IH m Hm) as (pre & post & Heq & Hpre & Hne & Hall & Hpost).
    exists (String c pre), post. rewrite append_cons, all_chars_cons, <- Heq.
    unfold outside_class at 1. rewrite E, Hpre. repeat split; assumption.
Qed.

Lemma re_search_None (s : string) :
  LocalAIBrain.re_search s = None <-> all_chars outside_class s = true.
Proof.
  induction s as [|c s IH]; simpl; [split; reflexivity|].
  rewrite all_chars_cons. unfold outside_class at 1.
  destruct (LocalAIBrain.math_pattern_char c); simpl.
  - split; discriminate.
  - exact IH.
Qed.

(** What the math handler does on every utterance: it takes the first
    maximal run of expression characters (digits, [.+-*/()] and white
    space) and trims it.  When every character of the trimmed run is one
    of [0123456789+-*/.()] or a blank and the evaluation succeeds, the
    reply is "The answer is " followed by the result; when there is no
    run, when a character is not allowed or when the evaluation raises,
    the reply is the fixed help text.  The handler returns in every case.
    "calculate 4*5" gives "The answer is 20" and "calculate" gives the
    help text. *)
Lemma handle_math_takes_first_run
    (py_eval : string -> outcome string) (u : string) :
  (forall m, LocalAIBrain.re_search u = Some m -> first_maximal_run u m)
  /\ (LocalAIBrain.re_search u = None <-> all_chars outside_class u = true)
  /\ (LocalAIBrain.re_search u = None ->
      LocalAIBrain._handle_math py_eval u = LocalAIBrain.math_help)
  /\ (forall m result,
        LocalAIBrain.re_search u = Some m ->
        LocalAIBrain.all_allowed (PyStr.strip m) = true ->
        py_eval (PyStr.strip m) = Returns result ->
        LocalAIBrain._handle_math py_eval u = "The answer is " ++ result)
  /\ (forall m e,
        LocalAIBrain.re_search u = Some m ->
        py_eval (PyStr.strip m) = Raises e ->
        LocalAIBrain._handle_math py_eval u = LocalAIBrain.math_help)
  /\ (forall m,
        LocalAIBrain.re_search u = Some m ->
        LocalAIBrain.all_allowed (PyStr.strip m) = false ->
        LocalAIBrain._handle_math py_eval u = LocalAIBrain.math_help)
  /\ ((exists result, LocalAIBrain._handle_math py_eval u = "The answer is " ++ result)
      \/ LocalAIBrain._handle_math py_eval u = LocalAIBrain.math_help)
  /\ LocalAIBrain._handle_math ArithEval.py_eval "calculate 4*5" = "The answer is 20"
  /\ LocalAIBrain._handle_math py_eval "calculate" = LocalAIBrain.math_help.
Proof.
  split; [intros m; apply re_search_first_maximal|].
  split; [apply re_search_None|].
  unfold LocalAIBrain._handle_math.
  repeat split.
  - intros ->. reflexivity.
  - intros m result -> -> ->. reflexivity.
  - intros m e -> ->. destruct (LocalAIBrain.all_allowed _); reflexivity.
  - intros m -> ->. reflexivity.
  - destruct (LocalAIBrain.re_search u) as [m|]; [|right; reflexivity].
    destruct (LocalAIBrain.all_allowed _); [|right; reflexivity].
    destruct (py_eval _) as [result|e]; [left; exists result|right]; reflexivity.
Qed.

(** C5 (math handler), at "what is 4*5", at "what is 15 plus 7" (the
    example that the help text of the handler itself gives) and at
    "calculate 1 or 20+30".  The responder routes all three to the math
    handler.  The comment in the handler says "Extract numbers and basic
    operators", but the search stops at the first run of expression
    characters, and white space is one of them.  On "what is 4*5" the run
    taken is the blank after "what": trimmed it is empty, the evaluation
    raises, and the reply is the help text, although the longest run,
    " 4*5", evaluates to 20.  On "what is 15 plus 7" the reply is the help
    text as well, although the longest run holds 15.  On
    "calculate 1 or 20+30" the run taken is " 1 " and the reply is
    "The answer is 1", although the longest run, " 20+30", evaluates to
    50. *)
Theorem handle_math_misses_later_expression :
  let kb := LocalAIBrain._load_knowledge_base example_clock in
  let respond u :=
    LocalAIBrain._generate_local_response default_config kb ArithEval.py_eval u 0 in
  (respond "what is 4*5" = LocalAIBrain._handle_math ArithEval.py_eval "what is 4*5"
   /\ longest_run "what is 4*5" = Some " 4*5"
   /\ ArithEval.py_eval "4*5" = Returns "20"
   /\ LocalAIBrain.re_search "what is 4*5" = Some " "
   /\ ArithEval.py_eval "" = Raises SyntaxError
   /\ respond "what is 4*5" = LocalAIBrain.math_help)
  /\ (respond "what is 15 plus 7"
      = LocalAIBrain._handle_math ArithEval.py_eval "what is 15 plus 7"
      /\ longest_run "what is 15 plus 7" = Some " 15 "
      /\ ArithEval.py_eval "15" = Returns "15"
      /\ LocalAIBrain.re_search "what is 15 plus 7" = Some " "
      /\ respond "what is 15 plus 7" = LocalAIBrain.math_help)
  /\ (respond "calculate 1 or 20+30"
      = LocalAIBrain._handle_math ArithEval.py_eval "calculate 1 or 20+30"
      /\ longest_run "calculate 1 or 20+30" = Some " 20+30"
      /\ ArithEval.py_eval "20+30" = Returns "50"
      /\ LocalAIBrain.re_search "calculate 1 or 20+30" = Some " 1 "
      /\ respond "calculate 1 or 20+30" = "The answer is 1")
  /\ LocalAIBrain.math_help
     = "I can help with basic math! Try asking me something like 'what is 15 plus 7' or '10 times 3'".
Proof. vm_compute. repeat split. Qed.

(* ===================================================================== *)
(** * The wake-word filter *)
(* ===================================================================== *)

Lemma contains_wake_word_iff (cfg : Config) (text : string) :
  VoiceHandler._contains_wake_word cfg (PyStr.lower text) = true
  <-> has_wake_word cfg text.
Proof.
  unfold VoiceHandler._contains_wake_word, has_wake_word.
  rewrite existsb_exists. split; intros (w & Hin & Hw); exists w; split;
    try exact Hin; apply contains_iff; exact Hw.
Qed.

Lemma lower_idempotent (s : string) : PyStr.lower (PyStr.lower s) = PyStr.lower s.
Proof.
  induction s as [|c s IH]; simpl; [reflexivity|]. rewrite IH. f_equal.
  unfold PyStr.lower_char at 1.
  destruct ((65 <=? nat_of_ascii (PyStr.lower_char c))%nat
            && (nat_of_ascii (PyStr.lower_char c) <=? 90)%nat) eqn:E; [|reflexivity].
  exfalso. apply andb_true_iff in E as [E1 E2].
  apply Nat.leb_le in E1, E2. unfold PyStr.lower_char in E1, E2.
  destruct ((65 <=? nat_of_ascii c)%nat && (nat_of_ascii c <=? 90)%nat) eqn:F.
  - apply andb_true_iff in F as [F1 F2]. apply Nat.leb_le in F1, F2.
    rewrite nat_ascii_embedding in E2 by lia. lia.
  - apply andb_false_iff in F as [F|F]; apply Nat.leb_gt in F; lia.
Qed.

(** What the filter does on every utterance.  One in which no configured
    wake phrase occurs (after lower-casing) never reaches the callback,
    whatever the callback is.  One with a wake phrase reaches it exactly
    once: with the lower-cased text from which the wake phrases and the
    surrounding white space are removed, when that text is not empty,
    and with the fixed prompt "Hello! How can I help you?" in its place
    when it is.  The callback of the application passes what it receives
    to [process_input] in both cases.  "hey haro what time is it" forwards
    "what time is it"; "what time is it" forwards nothing. *)
Lemma wake_word_filter
    (cfg : Config) (text : string) (S : Type)
    (on_speech_detected : string -> S -> S) (s : S) :
  (~ has_wake_word cfg text ->
     VoiceHandler._process_audio cfg (Returns text) on_speech_detected s = s)
  /\ (has_wake_word cfg text -> cleaned cfg text <> "" ->
     VoiceHandler._process_audio cfg (Returns text) on_speech_detected s
     = on_speech_detected (cleaned cfg text) s)
  /\ (has_wake_word cfg text -> cleaned cfg text = "" ->
     VoiceHandler._process_audio cfg (Returns text) on_speech_detected s
     = on_speech_detected VoiceHandler.acknowledgement s)
  /\ VoiceHandler._process_audio cfg (Returns (PyStr.lower text)) on_speech_detected s
     = VoiceHandler._process_audio cfg (Returns text) on_speech_detected s
  /\ (forall brain_process_input r heard app,
        HaroAI.ai_brain (HaroAI._on_speech_detected brain_process_input r heard app)
        = snd (brain_process_input heard r (HaroAI.ai_brain app)))
  /\ HaroAI.forwarded default_config (Returns "hey haro what time is it")
     = ["what time is it"]
  /\ HaroAI.forwarded default_config (Returns "what time is it") = []
  /\ HaroAI.forwarded default_config (Returns "Hey Haro") = [VoiceHandler.acknowledgement].
Proof.
  unfold VoiceHandler._process_audio. fold (cleaned cfg text).
  repeat split.
  - intros Hno. destruct (VoiceHandler._contains_wake_word cfg (PyStr.lower text)) eqn:E;
      [|reflexivity].
    exfalso. apply Hno, contains_wake_word_iff, E.
  - intros Hw Hne. apply contains_wake_word_iff in Hw. rewrite Hw.
    apply truthy_iff in Hne. rewrite Hne. reflexivity.
  - intros Hw He. apply contains_wake_word_iff in Hw. rewrite Hw, He. reflexivity.
  - unfold cleaned. rewrite lower_idempotent. reflexivity.
  - intros pi r heard app. unfold HaroAI._on_speech_detected.
    destruct (pi heard r (HaroAI.ai_brain app)) as [[response|e] brain']; reflexivity.
Qed.

(** C4 (wake-word filter), at the bare wake word "haro".  The branch
    of [_process_audio] for an utterance that is empty once the wake
    phrases are removed carries the comment "Just wake word,
    acknowledge", but it hands the prompt "Hello! How can I help you?" to
    the callback as if the user had said it.  So [process_input] is called
    on the prompt and the responder is run: the history records the
    prompt as a user turn, and what is queued for speaking is the reply
    of the responder to the prompt, not the prompt. *)
Theorem bare_wake_word_reaches_responder :
  let kb := LocalAIBrain._load_knowledge_base example_clock in
  let brain_process_input := LocalAIBrain.process_input default_config kb ArithEval.py_eval in
  let app := {| HaroAI.ai_brain := LocalAIBrain.new default_config;
                HaroAI.speech_engine := SpeechEngine.new |} in
  let app' := VoiceHandler._process_audio default_config (Returns "haro")
                (HaroAI._on_speech_detected brain_process_input 0) app in
  cleaned default_config "haro" = ""
  /\ HaroAI.forwarded default_config (Returns "haro") = ["Hello! How can I help you?"]
  /\ app' = HaroAI._on_speech_detected brain_process_input 0
              "Hello! How can I help you?" app
  /\ conversation_history (HaroAI.ai_brain app')
     = [ {| role := system;
            content := "You are Haro, a helpful AI assistant running locally." |};
         {| role := user; content := "Hello! How can I help you?" |};
         {| role := assistant; content := "Hello! Great to see you again!" |} ]
  /\ SpeechEngine.speech_queue (HaroAI.speech_engine app')
     = [Some "Hello! Great to see you again!"]
  /\ ~ In (Some "Hello! How can I help you?")
          (SpeechEngine.speech_queue (HaroAI.speech_engine app'))
  /\ SpeechEngine.said (HaroAI.speech_engine app') = []
  /\ LocalAIBrain._generate_local_response default_config kb ArithEval.py_eval
       "Hello! How can I help you?" 0
     = "Hello! Great to see you again!".
Proof.
  vm_compute. repeat split; try reflexivity.
  intros [H | []]. discriminate H.
Qed.

(* ===================================================================== *)
(** * The speech queue *)
(* ===================================================================== *)

Lemma queued_texts_snoc (q : list (option string)) (text : string) :
  queued_texts (q ++ [Some text]) = (queued_texts q ++ [text])%list.
Proof. unfold queued_texts. rewrite omap_app. reflexivity. Qed.

Lemma queued_texts_length (q : list (option string)) :
  Forall (fun item => item <> None) q -> length (queued_texts q) = length q.
Proof.
  induction 1 as [|[x|] q Hx _ IH]; simpl; [reflexivity | | congruence].
  unfold queued_texts in *. simpl. rewrite IH. reflexivity.
Qed.

Lemma fifo_invariant_start (prog : list (string * bool)) :
  Forall (fun call => snd call = false) prog ->
  fifo_invariant (enqueued prog) (SpeechEngine.start prog).
Proof.
  intros Hprog. unfold fifo_invariant. simpl. repeat split; [constructor | exact Hprog].
Qed.

Lemma fifo_invariant_step (all : list string) (who : SpeechEngine.thread)
    (s : SpeechEngine.System) :
  fifo_invariant all s -> fifo_invariant all (SpeechEngine.step who s).
Proof.
  destruct s as [[q u sp run_flag sd st] alive prog].
  unfold fifo_invariant. simpl. intros (Halive & Hrun & Hq & Hprog & <-).
  subst alive run_flag. destruct who; simpl.
  - (* the caller makes its next call *)
    unfold SpeechEngine.caller_step. simpl.
    destruct prog as [|[text interrupt] rest]; simpl.
    + repeat split; assumption.
    + inversion Hprog as [|? ? Hi Hrest]; subst. simpl in Hi. subst interrupt.
      unfold enqueued. simpl. unfold SpeechEngine.speak.
      fold (nonblank text). destruct (nonblank text) eqn:Hnb; simpl.
      * repeat split; try assumption.
        -- apply Forall_app. split; [exact Hq | repeat constructor; discriminate].
        -- rewrite queued_texts_snoc, <- !app_assoc. reflexivity.
      * repeat split; assumption.
  - (* the worker makes one round *)
    unfold SpeechEngine.worker_step, SpeechEngine.worker_iteration. simpl.
    destruct q as [|[text|] q]; simpl.
    + repeat split; assumption.
    + inversion Hq; subst. unfold queued_texts. simpl.
      destruct u; simpl; repeat split; try assumption;
        rewrite <- !app_assoc; reflexivity.
    + inversion Hq; subst. congruence.
Qed.

Lemma fifo_invariant_run (all : list string) (schedule : list SpeechEngine.thread)
    (s : SpeechEngine.System) :
  fifo_invariant all s -> fifo_invariant all (SpeechEngine.run schedule s).
Proof.
  revert s. induction schedule as [|who schedule IH]; intros s H; simpl.
  - exact H.
  - apply IH, fifo_invariant_step, H.
Qed.

Lemma run_app (l1 l2 : list SpeechEngine.thread) (s : SpeechEngine.System) :
  SpeechEngine.run (l1 ++ l2) s = SpeechEngine.run l2 (SpeechEngine.run l1 s).
Proof. unfold SpeechEngine.run. apply fold_left_app. Qed.

(** Once the caller is done, as many rounds of the worker as there are
    texts waiting say all of them. *)
Lemma worker_drains (all : list string) (n : nat) (s : SpeechEngine.System) :
  fifo_invariant all s ->
  SpeechEngine.program s = [] ->
  length (SpeechEngine.speech_queue (SpeechEngine.engine s)) <= n ->
  SpeechEngine.said
    (SpeechEngine.engine (SpeechEngine.run (repeat SpeechEngine.Worker n) s)) = all
  /\ SpeechEngine.speech_queue
       (SpeechEngine.engine (SpeechEngine.run (repeat SpeechEngine.Worker n) s)) = [].
Proof.
  revert s. induction n as [|n IH]; intros s Hinv Hprog Hlen.
  - simpl. destruct (SpeechEngine.speech_queue (SpeechEngine.engine s)) eqn:Hq;
      [|simpl in Hlen; lia].
    destruct Hinv as (_ & _ & _ & _ & Hall). rewrite Hq, Hprog in Hall.
    simpl in Hall. rewrite app_nil_r in Hall. split; [exact Hall | reflexivity].
  - simpl. apply IH.
    + apply (fifo_invariant_step all SpeechEngine.Worker), Hinv.
    + destruct s as [e alive prog]. simpl in *. unfold SpeechEngine.worker_step. simpl.
      destruct alive; [|exact Hprog].
      destruct (SpeechEngine.worker_iteration e). exact Hprog.
    + destruct Hinv as (Halive & Hrun & Hq & _).
      destruct s as [[q u sp run_flag sd st] alive prog]. simpl in *. subst.
      unfold SpeechEngine.worker_step, SpeechEngine.worker_iteration. simpl.
      destruct q as [|[text|] q]; simpl in *; try lia.
      * destruct u; simpl; lia.
Qed.

Lemma caller_step_program (s : SpeechEngine.System) :
  SpeechEngine.program (SpeechEngine.caller_step s) = tail (SpeechEngine.program s).
Proof.
  unfold SpeechEngine.caller_step.
  destruct (SpeechEngine.program s) as [|[text interrupt] rest] eqn:E; simpl;
    [exact E | reflexivity].
Qed.

Lemma step_program_length (who : SpeechEngine.thread) (s : SpeechEngine.System) :
  length (SpeechEngine.program (SpeechEngine.step who s))
  <= length (SpeechEngine.program s).
Proof.
  destruct who; simpl.
  - rewrite caller_step_program. destruct (SpeechEngine.program s); simpl; lia.
  - unfold SpeechEngine.worker_step. destruct (SpeechEngine.worker_alive s); [|lia].
    destruct (SpeechEngine.worker_iteration (SpeechEngine.engine s)). simpl. lia.
Qed.

Lemma run_program_length (schedule : list SpeechEngine.thread) (s : SpeechEngine.System) :
  length (SpeechEngine.program (SpeechEngine.run schedule s))
  <= length (SpeechEngine.program s).
Proof.
  revert s. induction schedule as [|who schedule IH]; intros s; simpl; [lia|].
  etransitivity; [apply IH | apply step_program_length].
Qed.

(** Any number of [speak] calls without interruption: whatever the
    interleaving of the caller and the worker, what has been said is an
    initial part of the texts in the order of the calls, and all of them
    once the caller is done and the queue is empty. *)
Lemma fifo_order_general (prog : list (string * bool))
    (schedule : list SpeechEngine.thread) :
  Forall (fun call => snd call = false) prog ->
  let s := SpeechEngine.run schedule (SpeechEngine.start prog) in
  SpeechEngine.said (SpeechEngine.engine s)
  = take (length (SpeechEngine.said (SpeechEngine.engine s))) (enqueued prog)
  /\ (SpeechEngine.program s = [] ->
      SpeechEngine.speech_queue (SpeechEngine.engine s) = [] ->
      SpeechEngine.said (SpeechEngine.engine s) = enqueued prog).
Proof.
  intros Hprog s.
  pose proof (fifo_invariant_run _ schedule _ (fifo_invariant_start prog Hprog)) as Hinv.
  fold s in Hinv. destruct Hinv as (_ & _ & _ & _ & Hall). split.
  - rewrite <- Hall, take_app_length. reflexivity.
  - intros Hp Hq. rewrite Hp, Hq in Hall. simpl in Hall.
    rewrite app_nil_r in Hall. exact Hall.
Qed.

(** C7 (FIFO order): for two texts that are enqueued one after the other
    without interruption (blank texts are not enqueued at all), and for
    every interleaving of the calling thread and the worker: what the
    worker has rendered is at any moment an initial part of [a; b], it is
    exactly [a; b] once both calls are made and the queue is empty, and
    that moment comes as soon as the caller has made its calls and the
    worker has made two more rounds. *)
Theorem speech_is_rendered_in_fifo_order
    (a b : string) (schedule : list SpeechEngine.thread) :
  PyStr.strip a <> "" ->
  PyStr.strip b <> "" ->
  let prog := [(a, false); (b, false)] in
  let s := SpeechEngine.run schedule (SpeechEngine.start prog) in
  (exists k, SpeechEngine.said (SpeechEngine.engine s) = take k [a; b])
  /\ (SpeechEngine.program s = [] ->
      SpeechEngine.speech_queue (SpeechEngine.engine s) = [] ->
      SpeechEngine.said (SpeechEngine.engine s) = [a; b])
  /\ SpeechEngine.said
       (SpeechEngine.engine
          (SpeechEngine.run
             (schedule ++ [SpeechEngine.Caller; SpeechEngine.Caller;
                           SpeechEngine.Worker; SpeechEngine.Worker])
             (SpeechEngine.start prog)))
     = [a; b].
Proof.
  intros Ha Hb prog s.
  assert (Hprog : Forall (fun call : string * bool => snd call = false) prog)
    by (repeat constructor).
  assert (Henq : enqueued prog = [a; b]).
  { unfold enqueued, prog, nonblank. simpl.
    apply truthy_iff in Ha, Hb. rewrite Ha, Hb. reflexivity. }
  destruct (fifo_order_general prog schedule Hprog) as [Hpre Hdone].
  fold s in Hpre, Hdone. rewrite Henq in Hpre, Hdone.
  split; [eexists; exact Hpre|]. split; [exact Hdone|].
  change [SpeechEngine.Caller; SpeechEngine.Caller; SpeechEngine.Worker; SpeechEngine.Worker]
    with ([SpeechEngine.Caller; SpeechEngine.Caller] ++ repeat SpeechEngine.Worker 2)%list.
  rewrite app_assoc, run_app.
  set (s2 := SpeechEngine.run (schedule ++ [SpeechEngine.Caller; SpeechEngine.Caller])
               (SpeechEngine.start prog)).
  pose proof (fifo_invariant_run _ (schedule ++ [SpeechEngine.Caller; SpeechEngine.Caller])
                _ (fifo_invariant_start prog Hprog)) as Hinv.
  fold s2 in Hinv. rewrite Henq in Hinv.
  assert (Hp2 : SpeechEngine.program s2 = []).
  { subst s2. rewrite run_app. fold s. simpl.
    rewrite !caller_step_program.
    pose proof (run_program_length schedule (SpeechEngine.start prog)) as Hl.
    fold s in Hl. simpl in Hl.
    destruct (SpeechEngine.program s) as [|x [|y [|z rest]]]; simpl in *;
      try reflexivity; lia. }
  apply (worker_drains [a; b] 2 s2 Hinv Hp2).
  destruct Hinv as (_ & _ & Hq & _ & Hall).
  rewrite <- (queued_texts_length _ Hq).
  apply (f_equal (@length string)) in Hall. rewrite !length_app in Hall.
  simpl in Hall. lia.
Qed.

Lemma speech_is_rendered_in_fifo_order_witness :
  let prog := [("Hello there", false); ("How are you", false)] in
  let schedule := [SpeechEngine.Caller; SpeechEngine.Worker; SpeechEngine.Worker;
                   SpeechEngine.Caller] in
  let s := SpeechEngine.run schedule (SpeechEngine.start prog) in
  (exists k, SpeechEngine.said (SpeechEngine.engine s)
             = take k ["Hello there"; "How are you"])
  /\ (SpeechEngine.program s = [] ->
      SpeechEngine.speech_queue (SpeechEngine.engine s) = [] ->
      SpeechEngine.said (SpeechEngine.engine s) = ["Hello there"; "How are you"])
  /\ SpeechEngine.said
       (SpeechEngine.engine
          (SpeechEngine.run
             (schedule ++ [SpeechEngine.Caller; SpeechEngine.Caller;
                           SpeechEngine.Worker; SpeechEngine.Worker])
             (SpeechEngine.start prog)))
     = ["Hello there"; "How are you"].
Proof.
  apply (speech_is_rendered_in_fifo_order "Hello there" "How are you"
           [SpeechEngine.Caller; SpeechEngine.Worker; SpeechEngine.Worker;
            SpeechEngine.Caller]).
  - vm_compute. discriminate.
  - vm_compute. discriminate.
Defined.

(* --------------------------------------------------------------------- *)
(** ** Waiting for the queue *)
(* --------------------------------------------------------------------- *)

Lemma join_blocked_when_stopped (ticks : nat) (s : SpeechEngine.System) :
  SpeechEngine.is_running (SpeechEngine.engine s) = false ->
  SpeechEngine.unfinished_tasks (SpeechEngine.engine s) <> 0 ->
  SpeechEngine.join ticks s = None.
Proof.
  revert s. induction ticks as [|ticks IH]; intros s Hrun Hu; simpl;
    destruct (Nat.eqb_spec (SpeechEngine.unfinished_tasks (SpeechEngine.engine s)) 0);
    try congruence.
  apply IH; unfold SpeechEngine.worker_step, SpeechEngine.worker_iteration;
    destruct (SpeechEngine.worker_alive s); try rewrite Hrun; simpl;
    first [assumption | reflexivity].
Qed.

(** C6 (bounded wait), on the code: [wait_until_done] does not look at
    its timeout.  Its outcome is the same for every timeout, it never
    answers [False], and it returns only when no task is unfinished: with
    two texts queued and a timeout of 0 it is still blocked after one
    round of the worker and returns after the second; after [shutdown()],
    whose signal in the queue is never marked as done, it does not return
    however long one waits. *)
Theorem wait_until_done_ignores_timeout :
  (forall t1 t2 ticks s,
      SpeechEngine.wait_until_done t1 ticks s = SpeechEngine.wait_until_done t2 ticks s)
  /\ (forall t ticks s answer s',
      SpeechEngine.wait_until_done t ticks s = Some (answer, s') ->
      answer = true /\ SpeechEngine.unfinished_tasks (SpeechEngine.engine s') = 0)
  /\ (let s := SpeechEngine.run [SpeechEngine.Caller; SpeechEngine.Caller]
                 (SpeechEngine.start [("first reply", false); ("second reply", false)]) in
      SpeechEngine.wait_until_done (Some 0%Z) 1 s = None
      /\ exists s', SpeechEngine.wait_until_done (Some 0%Z) 2 s = Some (true, s')
                    /\ SpeechEngine.said (SpeechEngine.engine s')
                       = ["first reply"; "second reply"])
  /\ (forall t ticks, SpeechEngine.wait_until_done t ticks after_shutdown = None).
Proof.
  split; [reflexivity|]. split.
  - intros t ticks s answer s'. unfold SpeechEngine.wait_until_done.
    destruct (SpeechEngine.join ticks s) as [s1|] eqn:E; [|discriminate].
    intros [= <- <-]. split; [reflexivity|].
    revert s E. induction ticks as [|ticks IH]; intros s; simpl;
      destruct (Nat.eqb_spec (SpeechEngine.unfinished_tasks (SpeechEngine.engine s)) 0);
      try discriminate; try (intros [= <-]; assumption).
    apply IH.
  - split.
    + split; [reflexivity|]. eexists. split; reflexivity.
    + intros t ticks. unfold SpeechEngine.wait_until_done.
      rewrite join_blocked_when_stopped; [reflexivity | reflexivity | discriminate].
Qed.

(* ===================================================================== *)
(** * More on the string built-ins *)
(* ===================================================================== *)

Lemma append_assoc (a b c : string) : (a ++ b) ++ c = a ++ (b ++ c).
Proof.
  induction a as [|x a IH]; [reflexivity|].
  rewrite !append_cons, IH. reflexivity.
Qed.

Lemma append_empty_r (a : string) : a ++ "" = a.
Proof.
  induction a as [|x a IH]; [reflexivity|]. rewrite append_cons, IH. reflexivity.
Qed.

Lemma length_append (a b : string) :
  String.length (a ++ b) = String.length a + String.length b.
Proof.
  induction a as [|x a IH]; [reflexivity|].
  rewrite append_cons. simpl. rewrite IH. reflexivity.
Qed.

Lemma occurs_in_trans (a b c : string) :
  occurs_in a b -> occurs_in b c -> occurs_in a c.
Proof.
  intros (p1 & q1 & ->) (p2 & q2 & ->).
  exists (p2 ++ p1), (q1 ++ q2). rewrite !append_assoc. reflexivity.
Qed.

Lemma lstrip_cons (c : ascii) (s : string) :
  PyStr.lstrip (String c s) = if PyStr.isspace c then PyStr.lstrip s else String c s.
Proof. reflexivity. Qed.

Lemma rstrip_cons (c : ascii) (s : string) :
  PyStr.rstrip (String c s)
  = match PyStr.rstrip s with
    | EmptyString => if PyStr.isspace c then EmptyString else String c EmptyString
    | r => String c r
    end.
Proof. reflexivity. Qed.

Lemma lstrip_spec (s : string) :
  exists pre, s = pre ++ PyStr.lstrip s /\ all_chars PyStr.isspace pre = true.
Proof.
  induction s as [|c s (pre & Heq & Hpre)].
  - exists "". split; reflexivity.
  - rewrite lstrip_cons. destruct (PyStr.isspace c) eqn:E.
    + exists (String c pre). rewrite append_cons, all_chars_cons, E, Hpre, <- Heq.
      split; reflexivity.
    + exists "". split; reflexivity.
Qed.

Lemma rstrip_spec (s : string) :
  exists post, s = PyStr.rstrip s ++ post /\ all_chars PyStr.isspace post = true.
Proof.
  induction s as [|c s (post & Heq & Hpost)].
  - exists "". split; reflexivity.
  - rewrite rstrip_cons. destruct (PyStr.rstrip s) as [|d r] eqn:Er.
    + rewrite append_nil in Heq. subst post.
      destruct (PyStr.isspace c) eqn:E.
      * exists (String c s). rewrite all_chars_cons, E, Hpost. split; reflexivity.
      * exists s. split; [reflexivity | exact Hpost].
    + exists post. rewrite append_cons, <- Heq. split; [reflexivity | exact Hpost].
Qed.

Lemma strip_occurs (s : string) : occurs_in (PyStr.strip s) s.
Proof.
  destruct (lstrip_spec s) as (pre & Heq & _).
  destruct (rstrip_spec (PyStr.lstrip s)) as (post & Heq' & _).
  exists pre, post. unfold PyStr.strip. rewrite <- Heq'. exact Heq.
Qed.

Lemma strip_length (s : string) : String.length (PyStr.strip s) <= String.length s.
Proof.
  destruct (strip_occurs s) as (pre & post & Heq).
  rewrite Heq at 2. rewrite !length_append. lia.
Qed.

Lemma lstrip_head (s : string) :
  match PyStr.lstrip s with
  | EmptyString => True
  | String c _ => PyStr.isspace c = false
  end.
Proof.
  induction s as [|c s IH]; [exact I|].
  rewrite lstrip_cons. destruct (PyStr.isspace c) eqn:E; [exact IH | exact E].
Qed.

Lemma rstrip_keeps_head (c : ascii) (s : string) :
  PyStr.isspace c = false -> exists r, PyStr.rstrip (String c s) = String c r.
Proof.
  intros E. rewrite rstrip_cons, E. destruct (PyStr.rstrip s); eexists; reflexivity.
Qed.

Lemma rstrip_idempotent (s : string) : PyStr.rstrip (PyStr.rstrip s) = PyStr.rstrip s.
Proof.
  induction s as [|c s IH]; [reflexivity|].
  rewrite rstrip_cons. destruct (PyStr.rstrip s) as [|d r] eqn:Er.
  - destruct (PyStr.isspace c) eqn:E; [reflexivity|].
    rewrite rstrip_cons. simpl. rewrite E. reflexivity.
  - rewrite rstrip_cons, IH. reflexivity.
Qed.

Lemma strip_idempotent (s : string) : PyStr.strip (PyStr.strip s) = PyStr.strip s.
Proof.
  unfold PyStr.strip. pose proof (lstrip_head s) as Hh.
  destruct (PyStr.lstrip s) as [|c t]; [reflexivity|].
  destruct (rstrip_keeps_head c t Hh) as [r Hr]. rewrite Hr.
  rewrite lstrip_cons, Hh, <- Hr. apply rstrip_idempotent.
Qed.

(** A word without white space that occurs in a text still occurs in it
    after [strip]. *)
Lemma lstrip_keeps_word (w pre post : string) (c : ascii) (w' : string) :
  w = String c w' -> PyStr.isspace c = false ->
  exists pre', PyStr.lstrip (pre ++ w ++ post) = pre' ++ w ++ post.
Proof.
  intros -> E. induction pre as [|d pre IH].
  - exists "". rewrite !append_nil, append_cons, lstrip_cons, E. reflexivity.
  - rewrite append_cons, lstrip_cons. destruct (PyStr.isspace d).
    + exact IH.
    + exists (String d pre). rewrite append_cons. reflexivity.
Qed.

Lemma rstrip_app_nonempty (a b : string) :
  PyStr.rstrip b <> "" -> PyStr.rstrip (a ++ b) = a ++ PyStr.rstrip b.
Proof.
  intros Hb. induction a as [|c a IH]; [reflexivity|].
  rewrite !append_cons, rstrip_cons, IH.
  destruct (a ++ PyStr.rstrip b) eqn:E; [|reflexivity].
  exfalso. destruct a; [rewrite append_nil in E; congruence|].
  rewrite append_cons in E. discriminate.
Qed.

Lemma rstrip_keeps_word (w post : string) :
  w <> "" -> all_chars (fun c => negb (PyStr.isspace c)) w = true ->
  exists post', PyStr.rstrip (w ++ post) = w ++ post'.
Proof.
  induction w as [|c w IH]; [congruence|]. intros _ Hall.
  rewrite all_chars_cons in Hall. apply andb_true_iff in Hall as [Hc Hw].
  apply negb_true_iff in Hc.
  rewrite append_cons, rstrip_cons. destruct w as [|d w].
  - rewrite append_nil. destruct (PyStr.rstrip post) as [|e r].
    + rewrite Hc. exists "". reflexivity.
    + exists (String e r). reflexivity.
  - destruct (IH ltac:(discriminate) Hw) as [post' Hp]. rewrite Hp.
    rewrite append_cons. exists post'. reflexivity.
Qed.

Lemma strip_keeps_word (w s : string) :
  w <> "" -> all_chars (fun c => negb (PyStr.isspace c)) w = true ->
  PyStr.contains w s = true -> PyStr.contains w (PyStr.strip s) = true.
Proof.
  intros Hne Hall Hc. apply contains_iff in Hc as (pre & post & ->).
  apply contains_iff. unfold PyStr.strip.
  destruct w as [|c w'] eqn:Ew; [congruence|]. rewrite <- Ew in *.
  assert (Hc : PyStr.isspace c = false).
  { rewrite Ew, all_chars_cons in Hall. apply andb_true_iff in Hall as [H _].
    apply negb_true_iff, H. }
  destruct (lstrip_keeps_word w pre post c w' Ew Hc) as [pre' ->].
  destruct (rstrip_keeps_word w post) as [post' Hp]; [rewrite Ew; discriminate | exact Hall |].
  rewrite rstrip_app_nonempty.
  - rewrite Hp. exists pre', post'. reflexivity.
  - rewrite Hp, Ew, append_cons. discriminate.
Qed.

(* --------------------------------------------------------------------- *)
(** ** [str.replace] *)
(* --------------------------------------------------------------------- *)

Lemma replace_from_cons (old new : string) (c : ascii) (s : string) :
  PyStr.replace_from old new 0 (String c s)
  = if String.prefix old (String c s)
    then new ++ PyStr.replace_from old new (String.length old - 1) s
    else String c (PyStr.replace_from old new 0 s).
Proof. reflexivity. Qed.

Lemma replace_from_absent (old new s : string) :
  PyStr.contains old s = false -> PyStr.replace_from old new 0 s = s.
Proof.
  induction s as [|c s IH]; [reflexivity|].
  rewrite contains_cons. intros H. apply orb_false_iff in H as [Hp Hc].
  rewrite replace_from_cons, Hp, IH by exact Hc. reflexivity.
Qed.

Lemma replace_absent (old new s : string) :
  PyStr.contains old s = false -> PyStr.replace old new s = s.
Proof.
  intros H. destruct old as [|c old].
  - exfalso. destruct s; discriminate.
  - apply replace_from_absent, H.
Qed.

Lemma replace_from_length (old : string) (skip : nat) (s : string) :
  String.length (PyStr.replace_from old "" skip s) <= String.length s.
Proof.
  revert skip. induction s as [|c s IH]; intros skip; [destruct skip; simpl; lia|].
  destruct skip as [|k].
  - rewrite replace_from_cons. destruct (String.prefix old (String c s)).
    + rewrite append_nil. simpl. specialize (IH (String.length old - 1)). lia.
    + simpl. specialize (IH 0). lia.
  - simpl. specialize (IH k). lia.
Qed.

Lemma intersperse_empty (s : string) : PyStr.intersperse "" s = s.
Proof.
  induction s as [|c s IH]; [reflexivity|]. simpl. rewrite append_nil, IH. reflexivity.
Qed.

Lemma replace_length (old s : string) :
  String.length (PyStr.replace old "" s) <= String.length s.
Proof.
  destruct old as [|c old]; simpl.
  - rewrite intersperse_empty. lia.
  - apply replace_from_length.
Qed.

(* ===================================================================== *)
(** * More on the wake-word filter *)
(* ===================================================================== *)

Lemma remove_step_length (text wake_word : string) :
  String.length (PyStr.strip (PyStr.replace wake_word "" text)) <= String.length text.
Proof.
  etransitivity; [apply strip_length | apply replace_length].
Qed.

Lemma remove_wake_words_fold_length (wake_words : list string) (text : string) :
  String.length
    (fold_left (fun text wake_word => PyStr.strip (PyStr.replace wake_word "" text))
               wake_words text)
  <= String.length text.
Proof.
  revert text. induction wake_words as [|w ws IH]; intros text; simpl; [lia|].
  etransitivity; [apply IH | apply remove_step_length].
Qed.

Lemma remove_wake_words_fold_absent (wake_words : list string) (text : string) :
  Forall (fun w => ~ occurs_in w text) wake_words ->
  fold_left (fun text wake_word => PyStr.strip (PyStr.replace wake_word "" text))
            wake_words text
  = match wake_words with [] => text | _ => PyStr.strip text end.
Proof.
  revert text. induction wake_words as [|w ws IH]; intros text Hall; [reflexivity|].
  inversion Hall as [|? ? Hw Hws]; subst. simpl.
  rewrite replace_absent by (apply contains_false_iff, Hw).
  rewrite IH.
  - destruct ws; [reflexivity | apply strip_idempotent].
  - eapply Forall_impl; [exact Hws|]. intros w' Hn Hocc. apply Hn.
    eapply occurs_in_trans; [exact Hocc | apply strip_occurs].
Qed.

(** What [_process_audio] hands on is cut from the lower-cased utterance
    [lowered]: it is never longer than that text and has no white space
    at either end.  Removing the wake phrases never makes a text longer,
    and on a text that has none it only trims. *)
Theorem forwarded_text_is_trimmed_and_no_longer (cfg : Config) (lowered : string) :
  let forwarded := PyStr.strip (VoiceHandler._remove_wake_words cfg lowered) in
  String.length forwarded <= String.length lowered
  /\ PyStr.strip forwarded = forwarded
  /\ String.length (VoiceHandler._remove_wake_words cfg lowered) <= String.length lowered
  /\ (WAKE_WORDS cfg <> [] ->
      (forall wake_word, In wake_word (WAKE_WORDS cfg) -> ~ occurs_in wake_word lowered) ->
      VoiceHandler._remove_wake_words cfg lowered = PyStr.strip lowered).
Proof.
  intros forwarded. subst forwarded.
  unfold VoiceHandler._remove_wake_words. split; [|split; [|split]].
  - etransitivity; [apply strip_length | apply remove_wake_words_fold_length].
  - apply strip_idempotent.
  - apply remove_wake_words_fold_length.
  - intros Hne Hno. rewrite remove_wake_words_fold_absent.
    + destruct (WAKE_WORDS cfg); [congruence | reflexivity].
    + apply Forall_forall. intros w Hw. apply Hno.
      apply list_elem_of_In. exact Hw.
Qed.

(** With the wake phrases of [config.py] the phrase "hey haro" adds
    nothing to the detection: an utterance passes the filter exactly when
    "haro" or "ai" occurs in it, inside a longer word or not. *)
Theorem default_wake_word_detection (text : string) :
  VoiceHandler._contains_wake_word default_config text
  = PyStr.contains "haro" text || PyStr.contains "ai" text.
Proof.
  unfold VoiceHandler._contains_wake_word. simpl.
  rewrite orb_false_r.
  destruct (PyStr.contains "hey haro" text) eqn:E; [|reflexivity].
  simpl. symmetry. apply orb_true_iff. left.
  apply contains_iff. apply contains_iff in E.
  eapply occurs_in_trans; [|exact E].
  exists "hey ", "". reflexivity.
Qed.

(* ===================================================================== *)
(** * More on the session *)
(* ===================================================================== *)

Lemma manage_user_context (cfg : Config) (b : Brain) :
  user_context (snd (_manage_conversation_history cfg b)) = user_context b.
Proof.
  unfold _manage_conversation_history.
  destruct (_ >? _)%Z; [|reflexivity].
  destruct (conversation_history b); reflexivity.
Qed.

Lemma manage_head (cfg : Config) (b : Brain) (h0 : Message) (tl : list Message) :
  conversation_history b = h0 :: tl ->
  exists tl', conversation_history (snd (_manage_conversation_history cfg b)) = h0 :: tl'.
Proof.
  intros Hh. unfold _manage_conversation_history. rewrite Hh.
  destruct (_ >? _)%Z; simpl; [|rewrite Hh]; eexists; reflexivity.
Qed.

(** [process_input] returns on every input and for every behaviour of the
    responder: its result is the answer of the responder or one of the
    apologies, and the user context is as before. *)
Theorem process_input_always_returns
    (cfg : Config) (generate : list Message -> string -> nat -> outcome string)
    (u : string) (r : nat) (b : Brain) :
  exists reply b',
    process_input cfg generate u r b = (Returns reply, b')
    /\ user_context b' = user_context b
    /\ (generate (conversation_history b ++ [{| role := user; content := u |}])%list u r
          = Returns reply
        \/ In reply error_responses).
Proof.
  destruct (generate (conversation_history b ++ [{| role := user; content := u |}])%list u r)
    as [reply|e] eqn:Hgen.
  - destruct (process_input_success cfg generate u r b reply Hgen) as [Heq _].
    eexists reply, _. split; [exact Heq|]. split; [|left; reflexivity].
    rewrite manage_user_context. reflexivity.
  - eexists _, _. split; [apply (process_input_failure cfg generate u r b e Hgen)|].
    split; [reflexivity|]. right. apply choice_In. discriminate.
Qed.

Lemma process_input_head
    (cfg : Config) (generate : list Message -> string -> nat -> outcome string)
    (u : string) (r : nat) (b : Brain) (h0 : Message) (tl : list Message) :
  conversation_history b = h0 :: tl ->
  exists tl', conversation_history (snd (process_input cfg generate u r b)) = h0 :: tl'.
Proof.
  intros Hh.
  destruct (generate (conversation_history b ++ [{| role := user; content := u |}])%list u r)
    as [reply|e] eqn:Hgen.
  - destruct (process_input_success cfg generate u r b reply Hgen) as [-> _]. simpl.
    eapply manage_head. simpl. unfold extended. rewrite Hh. reflexivity.
  - rewrite (process_input_failure cfg generate u r b e Hgen). simpl. rewrite Hh.
    eexists. reflexivity.
Qed.

Lemma count_role_drop_le (ro : Role) (k : nat) (h : list Message) :
  count_role ro (drop k h) <= count_role ro h.
Proof.
  rewrite <- (take_drop k h) at 2. rewrite count_role_app. lia.
Qed.

Lemma process_input_system_count
    (cfg : Config) (generate : list Message -> string -> nat -> outcome string)
    (u : string) (r : nat) (b : Brain) :
  (1 <= MAX_CONVERSATION_HISTORY cfg)%Z ->
  count_role system (conversation_history (snd (process_input cfg generate u r b)))
  <= count_role system (conversation_history b).
Proof.
  intros HB.
  destruct (generate (conversation_history b ++ [{| role := user; content := u |}])%list u r)
    as [reply|e] eqn:Hgen.
  - destruct (process_input_success cfg generate u r b reply Hgen) as [-> _]. simpl.
    set (b1 := set_history (extended b u reply) b).
    assert (Hc : count_role system (conversation_history b1)
                 = count_role system (conversation_history b)).
    { subst b1. simpl. unfold extended. rewrite !count_role_app.
      unfold count_role at 2 3. simpl. lia. }
    rewrite <- Hc.
    destruct (Z.le_gt_cases (Z.of_nat (length (conversation_history b1)))
                (MAX_CONVERSATION_HISTORY cfg * 2 + 1)) as [Hle|Hgt].
    + rewrite manage_keep by exact Hle. simpl. lia.
    + destruct (conversation_history b1) as [|h0 tl1] eqn:Hh1; [simpl in Hgt; lia|].
      rewrite (manage_trim cfg b1 h0 tl1 Hh1) by lia. simpl conversation_history.
      rewrite !count_role_cons.
      pose proof (count_role_drop_le system
                    (length tl1 - Z.to_nat (MAX_CONVERSATION_HISTORY cfg * 2)) tl1).
      lia.
  - rewrite (process_input_failure cfg generate u r b e Hgen). simpl.
    rewrite count_role_app. unfold count_role at 2. simpl. lia.
Qed.

(** In every run of the remote brain, calls that fail included, and for a
    budget of at least one exchange: the system prompt that was first
    stays first, and when it was the only system turn it remains the only
    one. *)
Theorem system_prompt_stays_first_and_single
    (cfg : Config)
    (calls : list ((list Message -> outcome string) * string * nat))
    (b : Brain) (h0 : Message) (tl : list Message) :
  (1 <= MAX_CONVERSATION_HISTORY cfg)%Z ->
  conversation_history b = h0 :: tl ->
  role h0 = system ->
  count_role system (conversation_history b) = 1 ->
  exists tl',
    conversation_history (AIBrain.run cfg calls b) = h0 :: tl'
    /\ count_role system (conversation_history (AIBrain.run cfg calls b)) = 1.
Proof.
  intros HB. revert b tl. induction calls as [|[[endpoint u] r] calls IH];
    intros b tl Hh Hsys Hone.
  - exists tl. simpl. split; assumption.
  - simpl. unfold AIBrain.process_input.
    destruct (process_input_head cfg (AIBrain.generate endpoint) u r b h0 tl Hh)
      as [tl1 Hh1].
    pose proof (process_input_system_count cfg (AIBrain.generate endpoint) u r b HB) as Hle.
    apply (IH _ tl1 Hh1 Hsys).
    rewrite Hh1 in Hle |- *. rewrite count_role_cons in Hle |- *.
    rewrite Hsys in Hle |- *. destruct (decide (system = system)); [|congruence]. lia.
Qed.

Lemma system_prompt_stays_first_and_single_witness :
  exists tl',
    conversation_history
      (AIBrain.run default_config
         [(endpoint_down, "first", 0); (endpoint_answers "reply", "second", 0)]
         (AIBrain.new default_config))
    = {| role := system; content := AI_PERSONALITY default_config |} :: tl'
    /\ count_role system
         (conversation_history
            (AIBrain.run default_config
               [(endpoint_down, "first", 0); (endpoint_answers "reply", "second", 0)]
               (AIBrain.new default_config))) = 1.
Proof.
  apply (system_prompt_stays_first_and_single default_config
           [(endpoint_down, "first", 0); (endpoint_answers "reply", "second", 0)]
           (AIBrain.new default_config)
           {| role := system; content := AI_PERSONALITY default_config |} []).
  - simpl. lia.
  - reflexivity.
  - reflexivity.
  - reflexivity.
Defined.

Lemma successful_call_history
    (cfg : Config) (generate : list Message -> string -> nat -> outcome string)
    (u : string) (r : nat) (b : Brain) (reply : string)
    (h0 : Message) (tl : list Message) :
  (1 <= MAX_CONVERSATION_HISTORY cfg)%Z ->
  conversation_history b = h0 :: tl ->
  generate (conversation_history b ++ [{| role := user; content := u |}])%list u r
    = Returns reply ->
  let turns := (tl ++ [{| role := user; content := u |};
                       {| role := assistant; content := reply |}])%list in
  conversation_history (snd (process_input cfg generate u r b))
  = h0 :: drop (length turns - Z.to_nat (MAX_CONVERSATION_HISTORY cfg * 2)) turns.
Proof.
  intros HB Hh Hgen turns.
  destruct (process_input_success cfg generate u r b reply Hgen) as [-> _]. simpl snd.
  set (b1 := set_history (extended b u reply) b).
  assert (Hh1 : conversation_history b1 = h0 :: turns).
  { subst b1 turns. simpl. unfold extended. rewrite Hh. reflexivity. }
  destruct (Z.le_gt_cases (Z.of_nat (length (h0 :: turns)))
              (MAX_CONVERSATION_HISTORY cfg * 2 + 1)) as [Hle|Hgt].
  - rewrite manage_keep by (rewrite Hh1; exact Hle). cbn [snd]. rewrite Hh1.
    simpl length in Hle.
    replace (length turns - Z.to_nat (MAX_CONVERSATION_HISTORY cfg * 2)) with 0 by lia.
    rewrite drop_0. reflexivity.
  - rewrite (manage_trim cfg b1 h0 turns Hh1) by lia. reflexivity.
Qed.

(** A call whose responder answers keeps, behind the first element, the
    latest [2 * B] turns of the history extended by the two new turns, in
    their order, and drops the older ones; this holds whatever the length
    of the history was, so a history that failed calls let grow is back
    within the budget after the next successful call. *)
Theorem successful_call_keeps_latest_turns
    (cfg : Config) (generate : list Message -> string -> nat -> outcome string)
    (u : string) (r : nat) (b : Brain) (reply : string)
    (h0 : Message) (tl : list Message) :
  (1 <= MAX_CONVERSATION_HISTORY cfg)%Z ->
  conversation_history b = h0 :: tl ->
  generate (conversation_history b ++ [{| role := user; content := u |}])%list u r
    = Returns reply ->
  let turns := (tl ++ [{| role := user; content := u |};
                       {| role := assistant; content := reply |}])%list in
  let kept := Z.to_nat (MAX_CONVERSATION_HISTORY cfg * 2) in
  conversation_history (snd (process_input cfg generate u r b))
  = h0 :: drop (length turns - kept) turns
  /\ length (conversation_history (snd (process_input cfg generate u r b)))
     = S (Nat.min (length turns) kept).
Proof.
  intros HB Hh Hgen turns kept.
  pose proof (successful_call_history cfg generate u r b reply h0 tl HB Hh Hgen) as Heq.
  split; [exact Heq|]. rewrite Heq. simpl. rewrite length_drop.
  subst kept turns. lia.
Qed.

Lemma successful_call_keeps_latest_turns_witness :
  let b := AIBrain.run default_config (repeat (endpoint_down, "hello", 0) 30)
             (AIBrain.new default_config) in
  let h0 := {| role := system; content := AI_PERSONALITY default_config |} in
  let turns := (repeat {| role := user; content := "hello" |} 30
                ++ [{| role := user; content := "again" |};
                    {| role := assistant; content := "reply" |}])%list in
  let kept := Z.to_nat (MAX_CONVERSATION_HISTORY default_config * 2) in
  conversation_history
    (snd (process_input default_config (AIBrain.generate (endpoint_answers "reply"))
            "again" 0 b))
  = h0 :: drop (length turns - kept) turns
  /\ length (conversation_history
               (snd (process_input default_config
                       (AIBrain.generate (endpoint_answers "reply")) "again" 0 b)))
     = S (Nat.min (length turns) kept).
Proof.
  intros b h0.
  apply (successful_call_keeps_latest_turns default_config
           (AIBrain.generate (endpoint_answers "reply")) "again" 0 b "reply"
           h0 (repeat {| role := user; content := "hello" |} 30)).
  - simpl. lia.
  - reflexivity.
  - reflexivity.
Defined.

Lemma local_run_keeps_invariants_witness :
  let kb := LocalAIBrain._load_knowledge_base example_clock in
  let h0 := {| role := system;
               content := "You are Haro, a helpful AI assistant running locally." |} in
  exists tl',
    conversation_history
      (process_all default_config
         (LocalAIBrain.generate default_config kb ArithEval.py_eval)
         [("hello", 0); ("calculate 4*5", 1); ("bye", 2)]
         (LocalAIBrain.new default_config)) = h0 :: tl'
    /\ (Z.of_nat (length tl') <= 2 * MAX_CONVERSATION_HISTORY default_config)%Z
    /\ (Z.of_nat (count_role user (h0 :: tl') + count_role assistant (h0 :: tl'))
        <= 2 * MAX_CONVERSATION_HISTORY default_config)%Z
    /\ paired tl' = true.
Proof.
  intros kb h0.
  apply (local_run_keeps_invariants default_config kb ArithEval.py_eval
           [("hello", 0); ("calculate 4*5", 1); ("bye", 2)]
           (LocalAIBrain.new default_config) h0 []).
  - simpl. lia.
  - reflexivity.
  - reflexivity.
  - simpl. lia.
  - reflexivity.
Defined.

Lemma local_run_history_length (cfg : Config) (kb : LocalAIBrain.KnowledgeBase)
    (py_eval : string -> outcome string) (calls : list (string * nat)) (b : Brain)
    (h0 : Message) (tl : list Message) (n : nat) :
  (1 <= MAX_CONVERSATION_HISTORY cfg)%Z ->
  conversation_history b = h0 :: tl ->
  Z.of_nat (length tl) = (2 * Z.min (Z.of_nat n) (MAX_CONVERSATION_HISTORY cfg))%Z ->
  Z.of_nat (length (conversation_history
                      (process_all cfg (LocalAIBrain.generate cfg kb py_eval) calls b)))
  = (2 * Z.min (Z.of_nat (n + length calls)) (MAX_CONVERSATION_HISTORY cfg) + 1)%Z.
Proof.
  intros HB. revert b tl n. induction calls as [|[u r] calls IH]; intros b tl n Hh Hlen.
  - simpl. rewrite Hh. simpl length. rewrite Nat.add_0_r. lia.
  - simpl process_all.
    pose proof (successful_call_history cfg (LocalAIBrain.generate cfg kb py_eval)
                  u r b (LocalAIBrain._generate_local_response cfg kb py_eval u r)
                  h0 tl HB Hh eq_refl) as Heq.
    rewrite (IH _ _ (S n) Heq).
    + simpl length. f_equal. f_equal. f_equal. lia.
    + rewrite length_drop, length_app. simpl length. lia.
Qed.

(** After any number of calls the fresh local brain remembers as many
    exchanges as were made, up to the budget [B]: the summary reports
    [min n B] exchanges and a history of [2 * min n B + 1] messages. *)
Theorem local_summary_counts_exchanges (cfg : Config) (clock : LocalAIBrain.Clock)
    (py_eval : string -> outcome string) (calls : list (string * nat)) :
  (1 <= MAX_CONVERSATION_HISTORY cfg)%Z ->
  let kb := LocalAIBrain._load_knowledge_base clock in
  let b := process_all cfg (LocalAIBrain.generate cfg kb py_eval) calls
             (LocalAIBrain.new cfg) in
  total_exchanges (LocalAIBrain.get_conversation_summary cfg b)
  = Z.min (Z.of_nat (length calls)) (MAX_CONVERSATION_HISTORY cfg)
  /\ history_length (LocalAIBrain.get_conversation_summary cfg b)
     = (2 * Z.min (Z.of_nat (length calls)) (MAX_CONVERSATION_HISTORY cfg) + 1)%Z.
Proof.
  intros HB kb b.
  assert (Hlen : Z.of_nat (length (conversation_history b))
                 = (2 * Z.min (Z.of_nat (length calls)) (MAX_CONVERSATION_HISTORY cfg) + 1)%Z).
  { subst b. apply (local_run_history_length cfg kb py_eval calls (LocalAIBrain.new cfg)
                      {| role := system; content := LocalAIBrain.system_prompt cfg |} [] 0 HB).
    - reflexivity.
    - simpl. lia. }
  unfold LocalAIBrain.get_conversation_summary, get_conversation_summary. simpl.
  rewrite Hlen. split; [|reflexivity].
  replace (2 * Z.min (Z.of_nat (length calls)) (MAX_CONVERSATION_HISTORY cfg) + 1 - 1)%Z
    with (Z.min (Z.of_nat (length calls)) (MAX_CONVERSATION_HISTORY cfg) * 2)%Z by lia.
  apply Z.div_mul. lia.
Qed.

Lemma local_summary_counts_exchanges_witness :
  let kb := LocalAIBrain._load_knowledge_base example_clock in
  let calls := repeat ("hello", 0) 12 in
  let b := process_all default_config
             (LocalAIBrain.generate default_config kb ArithEval.py_eval) calls
             (LocalAIBrain.new default_config) in
  total_exchanges (LocalAIBrain.get_conversation_summary default_config b)
  = Z.min (Z.of_nat (length calls)) (MAX_CONVERSATION_HISTORY default_config)
  /\ history_length (LocalAIBrain.get_conversation_summary default_config b)
     = (2 * Z.min (Z.of_nat (length calls)) (MAX_CONVERSATION_HISTORY default_config) + 1)%Z.
Proof.
  apply (local_summary_counts_exchanges default_config example_clock ArithEval.py_eval
           (repeat ("hello", 0) 12)).
  simpl. lia.
Defined.

(* --------------------------------------------------------------------- *)
(** ** The user context *)
(* --------------------------------------------------------------------- *)

Lemma process_input_user_context
    (cfg : Config) (generate : list Message -> string -> nat -> outcome string)
    (u : string) (r : nat) (b : Brain) :
  user_context (snd (process_input cfg generate u r b)) = user_context b.
Proof.
  destruct (generate (conversation_history b ++ [{| role := user; content := u |}])%list u r)
    as [reply|e] eqn:Hgen.
  - destruct (process_input_success cfg generate u r b reply Hgen) as [-> _]. simpl.
    rewrite manage_user_context. reflexivity.
  - rewrite (process_input_failure cfg generate u r b e Hgen). reflexivity.
Qed.

Lemma process_all_user_context
    (cfg : Config) (generate : list Message -> string -> nat -> outcome string)
    (calls : list (string * nat)) (b : Brain) :
  user_context (process_all cfg generate calls b) = user_context b.
Proof.
  revert b. induction calls as [|[u r] calls IH]; intros b; [reflexivity|].
  simpl. rewrite IH. apply process_input_user_context.
Qed.

(** A value stored with [set_user_context] is what [get_user_context]
    reads under that key, also after any later calls of [process_input]
    and after a reset; the other keys and the history are as before, and
    a fresh brain has no key. *)
Theorem user_context_round_trip
    (cfg : Config) (generate : list Message -> string -> nat -> outcome string)
    (system_prompt key value : string) (calls : list (string * nat)) (b : Brain) :
  let b1 := snd (set_user_context key value b) in
  get_user_context key b1 = Some value
  /\ (forall other, other <> key -> get_user_context other b1 = get_user_context other b)
  /\ conversation_history b1 = conversation_history b
  /\ get_user_context key (process_all cfg generate calls b1) = Some value
  /\ get_user_context key (snd (reset_conversation system_prompt b1)) = Some value
  /\ get_user_context key (new_brain system_prompt) = None.
Proof.
  intros b1. unfold get_user_context. repeat split.
  - apply lookup_insert_eq.
  - intros other Hne. apply lookup_insert_ne. congruence.
  - rewrite process_all_user_context. apply lookup_insert_eq.
  - apply lookup_insert_eq.
Qed.

(* ===================================================================== *)
(** * More on the local responder *)
(* ===================================================================== *)

(** The evaluator only ever sees trimmed text made of the characters
    [0123456789+-*/.()] and blanks: an evaluator that refuses every other
    text gives the same reply on every utterance. *)
Theorem handle_math_evaluates_allowed_text_only
    (py_eval : string -> outcome string) (u : string) :
  LocalAIBrain._handle_math (guarded py_eval) u = LocalAIBrain._handle_math py_eval u.
Proof.
  unfold LocalAIBrain._handle_math, guarded.
  destruct (LocalAIBrain.re_search u) as [m|]; [|reflexivity].
  destruct (LocalAIBrain.all_allowed (PyStr.strip m)) eqn:E; [|reflexivity].
  rewrite strip_idempotent, String.eqb_refl. reflexivity.
Qed.

Lemma lower_char_question (x : ascii) :
  PyStr.lower_char x = "?"%char <-> x = "?"%char.
Proof.
  unfold PyStr.lower_char.
  destruct ((65 <=? nat_of_ascii x)%nat && (nat_of_ascii x <=? 90)%nat) eqn:E;
    [|reflexivity].
  apply andb_true_iff in E as [E1 E2]. apply Nat.leb_le in E1, E2.
  assert (Hq : nat_of_ascii "?"%char = 63) by reflexivity.
  split; intros H.
  - apply (f_equal nat_of_ascii) in H. rewrite nat_ascii_embedding in H by lia.
    rewrite Hq in H. lia.
  - subst x. rewrite Hq in E1. lia.
Qed.

Lemma prefix_question (s : string) :
  String.prefix "?" (PyStr.lower s) = String.prefix "?" s.
Proof.
  apply eq_iff_eq_true. rewrite !prefix_iff.
  destruct s as [|x s].
  - split; intros [post H]; discriminate.
  - change (PyStr.lower (String x s)) with (String (PyStr.lower_char x) (PyStr.lower s)).
    split; intros [post H]; rewrite append_cons, append_nil in H;
      injection H as Hx Hs.
    + apply (proj1 (lower_char_question x)) in Hx. subst x. exists s. reflexivity.
    + subst x. exists (PyStr.lower s). reflexivity.
Qed.

Lemma contains_question_lower (s : string) :
  PyStr.contains "?" (PyStr.lower s) = PyStr.contains "?" s.
Proof.
  induction s as [|x s IH]; [reflexivity|].
  change (PyStr.lower (String x s)) with (String (PyStr.lower_char x) (PyStr.lower s)).
  rewrite !contains_cons, IH.
  change (String (PyStr.lower_char x) (PyStr.lower s)) with (PyStr.lower (String x s)).
  rewrite prefix_question. reflexivity.
Qed.

(** Intent analysis of the local brain: the label is one of eight, each
    with its fixed confidence; no entity is ever reported; an action is
    asked for exactly when the utterance has no greeting and no goodbye
    word but has a time, date or calculation word; and the analysis does
    not depend on the case of the letters. *)
Theorem local_intent_analysis (u : string) :
  let text := PyStr.lower u in
  let result := Intent.analyze_intent u in
  In (Intent.intent result, Intent.confidence result) intent_labels
  /\ Intent.entities result = []
  /\ Intent.requires_action result
     = negb (LocalAIBrain.any_word_in ["hello"; "hi"; "hey"] text)
       && negb (LocalAIBrain.any_word_in ["goodbye"; "bye"] text)
       && (LocalAIBrain.any_word_in ["time"; "clock"] text
           || LocalAIBrain.any_word_in ["date"; "today"] text
           || LocalAIBrain.any_word_in ["calculate"; "math"; "+"; "-"; "*"; "/"] text)
  /\ Intent.analyze_intent (PyStr.lower u) = Intent.analyze_intent u.
Proof.
  intros text result. subst result. unfold Intent.analyze_intent.
  rewrite lower_idempotent, contains_question_lower. fold text.
  destruct (LocalAIBrain.any_word_in ["hello"; "hi"; "hey"] text);
    [simpl; tauto|].
  destruct (LocalAIBrain.any_word_in ["goodbye"; "bye"] text);
    [simpl; tauto|].
  destruct (LocalAIBrain.any_word_in ["time"; "clock"] text);
    [simpl; tauto|].
  destruct (LocalAIBrain.any_word_in ["date"; "today"] text);
    [simpl; tauto|].
  destruct (LocalAIBrain.any_word_in ["calculate"; "math"; "+"; "-"; "*"; "/"] text);
    [simpl; tauto|].
  destruct (LocalAIBrain.any_word_in ["weather"] text);
    [simpl; tauto|].
  destruct (PyStr.contains "?" u); simpl; tauto.
Qed.

Lemma any_word_in_strip (words : list string) (text : string) :
  Forall (fun w => w <> "" /\ all_chars (fun c => negb (PyStr.isspace c)) w = true) words ->
  LocalAIBrain.any_word_in words text = true ->
  LocalAIBrain.any_word_in words (PyStr.strip text) = true.
Proof.
  unfold LocalAIBrain.any_word_in. intros Hwords H.
  apply existsb_exists in H as (w & Hin & Hw). apply existsb_exists.
  exists w. split; [exact Hin|].
  rewrite Forall_forall in Hwords.
  destruct (Hwords w) as [Hne Hall]; [apply list_elem_of_In, Hin|].
  apply strip_keeps_word; assumption.
Qed.

Lemma any_word_in_more (words more : list string) (text : string) :
  LocalAIBrain.any_word_in words text = true ->
  LocalAIBrain.any_word_in (words ++ more) text = true.
Proof.
  unfold LocalAIBrain.any_word_in. rewrite existsb_app. intros ->. reflexivity.
Qed.

(** The two classifiers of the local brain agree on greetings: whenever
    [analyze_intent] labels an utterance a greeting, the reply comes from
    the greeting pool; and an utterance labelled a goodbye is answered
    from the goodbye pool or, when it has one of the longer greeting
    phrases, from the greeting pool. *)
Theorem intent_and_reply_agree_on_greetings
    (cfg : Config) (clock : LocalAIBrain.Clock)
    (py_eval : string -> outcome string) (u : string) (r : nat) :
  let kb := LocalAIBrain._load_knowledge_base clock in
  let reply := LocalAIBrain._generate_local_response cfg kb py_eval u r in
  (Intent.intent (Intent.analyze_intent u) = "greeting" ->
   In reply LocalAIBrain.greeting_patterns)
  /\ (Intent.intent (Intent.analyze_intent u) = "goodbye" ->
      In reply LocalAIBrain.greeting_patterns \/ In reply LocalAIBrain.goodbye_patterns).
Proof.
  intros kb reply. subst reply. unfold Intent.analyze_intent.
  set (text := PyStr.lower u).
  assert (Hgreet : LocalAIBrain.any_word_in ["hello"; "hi"; "hey"] text = true ->
                   In (LocalAIBrain._generate_local_response cfg kb py_eval u r)
                      LocalAIBrain.greeting_patterns).
  { intros H. unfold LocalAIBrain._generate_local_response. fold text.
    apply any_word_in_strip in H; [|repeat constructor; discriminate].
    apply (any_word_in_more _ ["good morning"; "good afternoon"; "good evening"]) in H.
    simpl app in H. rewrite H. apply choice_In. discriminate. }
  destruct (LocalAIBrain.any_word_in ["hello"; "hi"; "hey"] text) eqn:E1.
  { split; [intros _; apply Hgreet; reflexivity | simpl; discriminate]. }
  destruct (LocalAIBrain.any_word_in ["goodbye"; "bye"] text) eqn:E2.
  { split; [simpl; discriminate|]. intros _.
    unfold LocalAIBrain._generate_local_response. fold text.
    destruct (LocalAIBrain.any_word_in _ (PyStr.strip text)).
    - left. apply choice_In. discriminate.
    - right. apply any_word_in_strip in E2; [|repeat constructor; discriminate].
      apply (any_word_in_more _ ["see you"; "farewell"; "quit"; "exit"]) in E2.
      simpl app in E2. rewrite E2. apply choice_In. discriminate. }
  split; intros H; exfalso; revert H;
    repeat (match goal with
            | |- context [if ?c then _ else _] => destruct c
            end); simpl; discriminate.
Qed.

(* --------------------------------------------------------------------- *)
(** ** Added knowledge *)
(* --------------------------------------------------------------------- *)

(** What [add_knowledge] stores under a topic is what [get_knowledge]
    returns for it, also when the topic is one of the built-in ones; the
    answer for every other topic is as before, and the built-in tables,
    from which the replies are drawn, are never changed. *)
Theorem added_knowledge_round_trip
    (topic information : string) (r : nat) (k : Knowledge.t) :
  Knowledge.get_knowledge topic r (Knowledge.add_knowledge topic information k)
  = Some information
  /\ (forall other r', other <> topic ->
        Knowledge.get_knowledge other r' (Knowledge.add_knowledge topic information k)
        = Knowledge.get_knowledge other r' k)
  /\ Knowledge.builtin (Knowledge.add_knowledge topic information k) = Knowledge.builtin k.
Proof.
  unfold Knowledge.get_knowledge, Knowledge.add_knowledge. simpl. repeat split.
  - rewrite lookup_insert_eq. reflexivity.
  - intros other r' Hne. rewrite lookup_insert_ne by congruence.
    destruct (Knowledge.custom k); [reflexivity|]. rewrite lookup_empty. reflexivity.
Qed.

(** Before anything is added, [get_knowledge] knows the six topics and
    the three facts and nothing else: a topic is answered from its
    responses, a fact with its text, any other key with [None]. *)
Theorem loaded_knowledge_lookup (clock : LocalAIBrain.Clock) (topic : string) (r : nat) :
  let k := Knowledge.loaded clock in
  let kb := LocalAIBrain._load_knowledge_base clock in
  match Knowledge.get_knowledge topic r k with
  | Some text =>
      (exists responses, Knowledge.topics kb !! topic = Some responses /\ In text responses)
      \/ (Knowledge.topics kb !! topic = None /\ Knowledge.facts !! topic = Some text)
  | None =>
      ~ In topic ["weather"; "time"; "date"; "math"; "robot"; "capabilities";
                  "raspberry_pi"; "open_source"; "expandable"]
  end.
Proof.
  intros k kb. unfold Knowledge.get_knowledge. simpl Knowledge.custom. cbv iota.
  change (Knowledge.builtin k) with kb.
  destruct (Knowledge.topics kb !! topic) as [responses|] eqn:Et.
  - destruct responses as [|x rest] eqn:Er.
    + exfalso. unfold Knowledge.topics in Et.
      repeat (rewrite list_to_map_cons in Et;
              apply lookup_insert_Some in Et as [[_ Et]|[_ Et]]; [discriminate|]).
      rewrite list_to_map_nil, lookup_empty in Et. discriminate.
    + left. exists (x :: rest). split; [reflexivity|]. apply choice_In. discriminate.
  - destruct (Knowledge.facts !! topic) as [text|] eqn:Ef.
    + right. split; reflexivity.
    + intros Hin. unfold Knowledge.topics in Et. unfold Knowledge.facts in Ef.
      simpl in Hin.
      repeat (rewrite list_to_map_cons in Et;
              apply lookup_insert_None in Et as [Et ?]).
      repeat (rewrite list_to_map_cons in Ef;
              apply lookup_insert_None in Ef as [Ef ?]).
      repeat (destruct Hin as [Hin|Hin]; [congruence|]). exact Hin.
Qed.

(* ===================================================================== *)
(** * More on the speech queue *)
(* ===================================================================== *)

Lemma clear_loop_empties (rounds : nat) (e : SpeechEngine.t) :
  accounted e ->
  length (SpeechEngine.speech_queue e) <= rounds ->
  snd (SpeechEngine.clear_loop rounds e)
  = SpeechEngine.with_queue []
      (SpeechEngine.unfinished_tasks e - length (SpeechEngine.speech_queue e)) e
  /\ fst (SpeechEngine.clear_loop rounds e) = Returns tt.
Proof.
  unfold accounted. revert e. induction rounds as [|rounds IH]; intros e Hacc Hlen.
  - destruct e as [q u sp rn sd st]. simpl in *.
    destruct q; [|simpl in Hlen; lia]. simpl. rewrite Nat.sub_0_r. split; reflexivity.
  - destruct e as [q u sp rn sd st]. simpl in *.
    destruct q as [|item q]; simpl.
    + rewrite Nat.sub_0_r. split; reflexivity.
    + simpl in Hacc, Hlen. destruct u as [|u]; [lia|].
      unfold bind, SpeechEngine.get_nowait, SpeechEngine.task_done. simpl.
      destruct (IH {| SpeechEngine.speech_queue := q; SpeechEngine.unfinished_tasks := u;
                      SpeechEngine.is_speaking := sp; SpeechEngine.is_running := rn;
                      SpeechEngine.said := sd; SpeechEngine.stops := st |})
        as [H1 H2]; simpl; try lia.
      unfold SpeechEngine.with_queue in *. simpl in *. rewrite H1, H2. split; reflexivity.
Qed.

Lemma clear_queue_empties (e : SpeechEngine.t) :
  accounted e ->
  SpeechEngine.clear_queue e
  = (Returns tt,
     SpeechEngine.with_queue []
       (SpeechEngine.unfinished_tasks e - length (SpeechEngine.speech_queue e)) e).
Proof.
  intros Hacc. unfold SpeechEngine.clear_queue.
  destruct (clear_loop_empties (length (SpeechEngine.speech_queue e)) e Hacc (le_n _))
    as [H1 H2].
  destruct (SpeechEngine.clear_loop _ e) as [o e']. simpl in H1, H2. subst. reflexivity.
Qed.

(** An interrupting [speak] discards everything that waits: afterwards
    the queue holds the new text and nothing else, provided the queue
    holds no more items than there are unfinished tasks (as it does in
    every run, see below); what was said before stays said. *)
Theorem interrupting_speak_leaves_only_the_new_text
    (text : string) (e : SpeechEngine.t) :
  accounted e ->
  PyStr.strip text <> "" ->
  let e' := snd (SpeechEngine.speak text true e) in
  SpeechEngine.speech_queue e' = [Some text]
  /\ SpeechEngine.said e' = SpeechEngine.said e
  /\ SpeechEngine.unfinished_tasks e'
     = S (SpeechEngine.unfinished_tasks e - length (SpeechEngine.speech_queue e))
  /\ accounted e'.
Proof.
  intros Hacc Hnb e'. subst e'. unfold SpeechEngine.speak.
  apply truthy_iff in Hnb. rewrite Hnb. simpl negb. cbv iota.
  destruct e as [q u sp rn sd st]. unfold accounted in *. simpl in Hacc.
  unfold bind, SpeechEngine.stop_speaking, modify. simpl.
  destruct sp; rewrite clear_queue_empties by exact Hacc;
    unfold SpeechEngine.put, modify; simpl; repeat split; lia.
Qed.

Lemma interrupting_speak_leaves_only_the_new_text_witness :
  let e := snd (SpeechEngine.speak "second" false
                  (snd (SpeechEngine.speak "first" false SpeechEngine.new))) in
  let e' := snd (SpeechEngine.speak "stop that" true e) in
  SpeechEngine.speech_queue e' = [Some "stop that"]
  /\ SpeechEngine.said e' = SpeechEngine.said e
  /\ SpeechEngine.unfinished_tasks e'
     = S (SpeechEngine.unfinished_tasks e - length (SpeechEngine.speech_queue e))
  /\ accounted e'.
Proof.
  intros e.
  apply (interrupting_speak_leaves_only_the_new_text "stop that" e).
  - unfold accounted. simpl. lia.
  - vm_compute. discriminate.
Defined.

Lemma steady_accounted (s : SpeechEngine.System) :
  steady s -> accounted (SpeechEngine.engine s).
Proof. intros (_ & _ & _ & _ & Hu). unfold accounted. lia. Qed.

Lemma steady_start (prog : list (string * bool)) : steady (SpeechEngine.start prog).
Proof. unfold steady. simpl. repeat split. constructor. Qed.

(** One call of [speak] on an engine in which nothing is being said. *)
Lemma speak_effect (text : string) (interrupt : bool) (e : SpeechEngine.t) :
  accounted e ->
  SpeechEngine.is_speaking e = false ->
  snd (SpeechEngine.speak text interrupt e)
  = if nonblank text then
      if interrupt then
        SpeechEngine.with_queue [Some text]
          (S (SpeechEngine.unfinished_tasks e - length (SpeechEngine.speech_queue e))) e
      else
        SpeechEngine.with_queue (SpeechEngine.speech_queue e ++ [Some text])
          (S (SpeechEngine.unfinished_tasks e)) e
    else e.
Proof.
  intros Hacc Hsp. unfold SpeechEngine.speak. fold (nonblank text).
  destruct (nonblank text); [|reflexivity]. simpl negb. cbv iota.
  destruct e as [q u sp rn sd st]. simpl in Hsp. subst sp.
  unfold bind, SpeechEngine.stop_speaking, modify. simpl.
  destruct interrupt.
  - rewrite clear_queue_empties by exact Hacc. reflexivity.
  - reflexivity.
Qed.

Lemma steady_step (who : SpeechEngine.thread) (s : SpeechEngine.System) :
  steady s -> steady (SpeechEngine.step who s).
Proof.
  intros Hs. pose proof (steady_accounted s Hs) as Hacc.
  destruct Hs as (Halive & Hrun & Hsp & Hq & Hu).
  destruct who; simpl.
  - unfold SpeechEngine.caller_step.
    destruct (SpeechEngine.program s) as [|[text interrupt] rest].
    + repeat split; assumption.
    + unfold steady. simpl. rewrite (speak_effect text interrupt _ Hacc Hsp).
      destruct (nonblank text); [|repeat split; assumption].
      destruct interrupt; simpl; repeat split; try assumption.
      * repeat constructor. discriminate.
      * lia.
      * apply Forall_app. split; [exact Hq | repeat constructor; discriminate].
      * rewrite length_app. simpl. lia.
  - unfold SpeechEngine.worker_step. rewrite Halive.
    unfold SpeechEngine.worker_iteration. rewrite Hrun.
    destruct (SpeechEngine.speech_queue (SpeechEngine.engine s)) as [|[text|] q] eqn:Eq.
    + unfold steady. simpl. rewrite Eq. repeat split; assumption.
    + inversion Hq; subst. simpl in Hu.
      unfold steady. simpl. unfold SpeechEngine.task_done. simpl. rewrite Hu. simpl.
      repeat split; assumption.
    + inversion Hq; subst. congruence.
Qed.

Lemma steady_run (schedule : list SpeechEngine.thread) (s : SpeechEngine.System) :
  steady s -> steady (SpeechEngine.run schedule s).
Proof.
  revert s. induction schedule as [|who schedule IH]; intros s H; simpl.
  - exact H.
  - apply IH, steady_step, H.
Qed.

(** In every run, whatever the calls of [speak] (interrupting or not) and
    the interleaving with the worker, the queue never holds more items
    than there are unfinished tasks; so [task_done] never raises and an
    interrupting call always empties the queue. *)
Theorem queue_accounting_holds_in_every_run
    (prog : list (string * bool)) (schedule : list SpeechEngine.thread) :
  let s := SpeechEngine.run schedule (SpeechEngine.start prog) in
  accounted (SpeechEngine.engine s)
  /\ fst (SpeechEngine.clear_queue (SpeechEngine.engine s)) = Returns tt
  /\ SpeechEngine.speech_queue (snd (SpeechEngine.clear_queue (SpeechEngine.engine s))) = []
  /\ (forall text q,
        SpeechEngine.speech_queue (SpeechEngine.engine s) = Some text :: q ->
        fst (SpeechEngine.task_done
               (snd (SpeechEngine._speak_now text
                       (SpeechEngine.with_queue q
                          (SpeechEngine.unfinished_tasks (SpeechEngine.engine s))
                          (SpeechEngine.engine s)))))
        = Returns tt).
Proof.
  intros s. pose proof (steady_run schedule _ (steady_start prog)) as Hs. fold s in Hs.
  pose proof (steady_accounted s Hs) as Hacc.
  split; [exact Hacc|]. rewrite (clear_queue_empties _ Hacc).
  split; [reflexivity|]. split; [reflexivity|].
  intros text q Hq. destruct Hs as (_ & _ & _ & _ & Hu). rewrite Hq in Hu. simpl in Hu.
  unfold SpeechEngine.task_done. simpl. rewrite Hu. reflexivity.
Qed.

(** Once the calls are made, waiting for the queue ends after as many
    rounds of the worker as there are texts waiting. *)
Lemma join_returns_when_drained (all : list string) (n : nat) (s : SpeechEngine.System) :
  steady s ->
  fifo_invariant all s ->
  SpeechEngine.program s = [] ->
  length (SpeechEngine.speech_queue (SpeechEngine.engine s)) = n ->
  exists s',
    SpeechEngine.join n s = Some s'
    /\ SpeechEngine.said (SpeechEngine.engine s') = all
    /\ SpeechEngine.speech_queue (SpeechEngine.engine s') = []
    /\ SpeechEngine.is_busy (SpeechEngine.engine s') = false.
Proof.
  revert s. induction n as [|n IH]; intros s Hs Hinv Hprog Hlen.
  - exists s. destruct Hs as (_ & _ & Hsp & _ & Hu). simpl. rewrite Hu, Hlen. simpl.
    destruct (SpeechEngine.speech_queue (SpeechEngine.engine s)) eqn:Eq;
      [|discriminate].
    destruct Hinv as (_ & _ & _ & _ & Hall). rewrite Eq, Hprog in Hall. simpl in Hall.
    rewrite app_nil_r in Hall. unfold SpeechEngine.is_busy. rewrite Hsp, Eq.
    repeat split. exact Hall.
  - simpl. pose proof Hs as (_ & _ & _ & _ & Hu). rewrite Hu, Hlen. simpl.
    apply IH.
    + apply (steady_step SpeechEngine.Worker), Hs.
    + apply (fifo_invariant_step all SpeechEngine.Worker), Hinv.
    + destruct s as [e alive prog]. simpl in *. unfold SpeechEngine.worker_step. simpl.
      destruct alive; [|exact Hprog].
      destruct (SpeechEngine.worker_iteration e). exact Hprog.
    + destruct Hs as (Halive & Hrun & _ & Hq & _).
      unfold SpeechEngine.worker_step. rewrite Halive.
      unfold SpeechEngine.worker_iteration. rewrite Hrun.
      destruct (SpeechEngine.speech_queue (SpeechEngine.engine s)) as [|[text|] q] eqn:Eq;
        simpl in Hlen; try discriminate.
      * simpl. unfold SpeechEngine.task_done. simpl.
        destruct (SpeechEngine.unfinished_tasks (SpeechEngine.engine s)); simpl; lia.
      * inversion Hq; subst. congruence.
Qed.

(** The other side of the wait: when the [speak] calls (none of them
    interrupting) are all made, [wait_until_done] does return, with
    [True], after as many rounds of the worker as there are texts waiting;
    by then every text was said, in the order of the calls, and the
    engine is no longer busy. *)
Theorem wait_until_done_returns_when_drained
    (prog : list (string * bool)) (schedule : list SpeechEngine.thread)
    (timeout : option Z) :
  Forall (fun call => snd call = false) prog ->
  let s := SpeechEngine.run schedule (SpeechEngine.start prog) in
  SpeechEngine.program s = [] ->
  exists s',
    SpeechEngine.wait_until_done timeout
      (length (SpeechEngine.speech_queue (SpeechEngine.engine s))) s = Some (true, s')
    /\ SpeechEngine.said (SpeechEngine.engine s') = enqueued prog
    /\ SpeechEngine.speech_queue (SpeechEngine.engine s') = []
    /\ SpeechEngine.is_busy (SpeechEngine.engine s') = false.
Proof.
  intros Hprog s Hdone.
  destruct (join_returns_when_drained (enqueued prog)
              (length (SpeechEngine.speech_queue (SpeechEngine.engine s))) s)
    as (s' & Hj & Hsaid & Hq & Hbusy).
  - apply steady_run, steady_start.
  - apply fifo_invariant_run, fifo_invariant_start, Hprog.
  - exact Hdone.
  - reflexivity.
  - exists s'. unfold SpeechEngine.wait_until_done. rewrite Hj. repeat split; assumption.
Qed.

Lemma wait_until_done_returns_when_drained_witness :
  let prog := [("Hello there", false); ("How are you", false)] in
  let schedule := [SpeechEngine.Caller; SpeechEngine.Worker; SpeechEngine.Caller] in
  let s := SpeechEngine.run schedule (SpeechEngine.start prog) in
  exists s',
    SpeechEngine.wait_until_done (Some 3%Z)
      (length (SpeechEngine.speech_queue (SpeechEngine.engine s))) s = Some (true, s')
    /\ SpeechEngine.said (SpeechEngine.engine s') = enqueued prog
    /\ SpeechEngine.speech_queue (SpeechEngine.engine s') = []
    /\ SpeechEngine.is_busy (SpeechEngine.engine s') = false.
Proof.
  apply (wait_until_done_returns_when_drained
           [("Hello there", false); ("How are you", false)]
           [SpeechEngine.Caller; SpeechEngine.Worker; SpeechEngine.Caller] (Some 3%Z)).
  - repeat constructor.
  - reflexivity.
Defined.

(* --------------------------------------------------------------------- *)
(** ** Clearing calls, one queue operation at a time *)
(* --------------------------------------------------------------------- *)

Lemma enqueued_cons (text : string) (interrupt : bool) (rest : list (string * bool)) :
  enqueued ((text, interrupt) :: rest)
  = if nonblank text then text :: enqueued rest else enqueued rest.
Proof. unfold enqueued. simpl. destruct (nonblank text); reflexivity. Qed.

(** What a step of the worker does to the queue and to the texts taken:
    nothing, or it moves the text at the head of the queue to the texts
    taken, or it removes a shutdown signal. *)
Lemma worker_step_moves (s : SpeechThreads.System) :
  let s' := SpeechThreads.worker_step s in
  SpeechThreads.caller s' = SpeechThreads.caller s
  /\ SpeechThreads.program s' = SpeechThreads.program s
  /\ SpeechEngine.is_running (SpeechThreads.engine s')
     = SpeechEngine.is_running (SpeechThreads.engine s)
  /\ (thread_accounted s -> thread_accounted s')
  /\ ((SpeechEngine.speech_queue (SpeechThreads.engine s')
       = SpeechEngine.speech_queue (SpeechThreads.engine s)
       /\ SpeechThreads.taken s' = SpeechThreads.taken s)
      \/ (exists text,
             SpeechEngine.speech_queue (SpeechThreads.engine s)
             = Some text :: SpeechEngine.speech_queue (SpeechThreads.engine s')
             /\ SpeechThreads.taken s' = (SpeechThreads.taken s ++ [text])%list)
      \/ (SpeechEngine.speech_queue (SpeechThreads.engine s)
          = None :: SpeechEngine.speech_queue (SpeechThreads.engine s')
          /\ SpeechThreads.taken s' = SpeechThreads.taken s)).
Proof.
  destruct s as [e c p w]. unfold thread_accounted, SpeechThreads.taken,
    SpeechThreads.held, SpeechThreads.in_hand, SpeechThreads.worker_step.
  destruct w; simpl.
  - (* WLoop *)
    destruct (SpeechEngine.is_running e); simpl;
      (split; [reflexivity|]); (split; [reflexivity|]); (split; [reflexivity|]);
      (split; [lia|]); left; split; reflexivity.
  - (* WGet *)
    unfold SpeechEngine.get_nowait.
    destruct (SpeechEngine.speech_queue e) as [|[text|] q] eqn:Eq; simpl;
      try rewrite Eq; simpl;
      (split; [reflexivity|]); (split; [reflexivity|]); (split; [reflexivity|]);
      (split; [lia|]).
    + left. split; reflexivity.
    + right. left. exists text. rewrite app_nil_r. split; reflexivity.
    + right. right. rewrite app_nil_r. split; reflexivity.
  - (* WSay *)
    (split; [reflexivity|]); (split; [reflexivity|]); (split; [reflexivity|]);
      (split; [lia|]).
    left. split; [reflexivity|]. rewrite app_nil_r. reflexivity.
  - (* WSaid *)
    (split; [reflexivity|]); (split; [reflexivity|]); (split; [reflexivity|]);
      (split; [lia|]).
    left. split; reflexivity.
  - (* WTaskDone *)
    unfold SpeechEngine.task_done.
    destruct (SpeechEngine.unfinished_tasks e) eqn:Eu; simpl;
      try rewrite Eu; simpl;
      (split; [reflexivity|]); (split; [reflexivity|]); (split; [reflexivity|]);
      (split; [lia|]); left; split; reflexivity.
  - (* WExit *)
    (split; [reflexivity|]); (split; [reflexivity|]); (split; [reflexivity|]);
      (split; [tauto|]).
    left. split; reflexivity.
Qed.

Lemma worker_step_waiting (s : SpeechThreads.System) :
  taken_and_waiting (SpeechThreads.worker_step s) = taken_and_waiting s.
Proof.
  unfold taken_and_waiting.
  destruct (worker_step_moves s) as (_ & _ & _ & _ & [[-> ->] | [(text & -> & ->) | [-> ->]]]).
  - reflexivity.
  - unfold queued_texts. simpl. rewrite <- app_assoc. reflexivity.
  - reflexivity.
Qed.

Lemma worker_step_queue (s : SpeechThreads.System)
    (P : option string -> Prop) :
  Forall P (SpeechEngine.speech_queue (SpeechThreads.engine s)) ->
  Forall P (SpeechEngine.speech_queue (SpeechThreads.engine (SpeechThreads.worker_step s))).
Proof.
  intros H.
  destruct (worker_step_moves s) as (_ & _ & _ & _ & [[-> _] | [(text & E & _) | [E _]]]).
  - exact H.
  - rewrite E in H. inversion H; assumption.
  - rewrite E in H. inversion H; assumption.
Qed.

Lemma after_put_worker_step (prog : list (string * bool)) (final : SpeechThreads.call)
    (s : SpeechThreads.System) :
  after_put prog final s -> after_put prog final (SpeechThreads.worker_step s).
Proof.
  intros [Hq (p & Hp & Hall)]. split.
  - apply worker_step_queue, Hq.
  - exists p. split; [exact Hp|]. rewrite worker_step_waiting. exact Hall.
Qed.

Lemma clearing_invariant_worker_step (prog : list (string * bool))
    (final : SpeechThreads.call) (s : SpeechThreads.System) :
  clearing_invariant prog final s ->
  clearing_invariant prog final (SpeechThreads.worker_step s).
Proof.
  intros [Hacc Hphase].
  destruct (worker_step_moves s) as (Hc & Hp & Hr & Hacc' & Hmove).
  split; [apply Hacc', Hacc|].
  rewrite Hc, Hp, Hr, worker_step_waiting.
  destruct (SpeechThreads.caller s).
  - destruct Hphase as [Hbefore | (Hnil & Hstop & Hafter)].
    + left. exact Hbefore.
    + right. split; [exact Hnil|]. split; [exact Hstop|].
      apply after_put_worker_step, Hafter.
  - exact Hphase.
  - exact Hphase.
  - exact Hphase.
  - destruct Hphase as (Hi & Hprog & Hstop & Hq & Hsub).
    split; [exact Hi|]. split; [exact Hprog|]. split; [exact Hstop|].
    destruct Hmove as [[-> ->] | [(text & E & _) | [E _]]];
      [split; assumption | rewrite Hq in E; discriminate | rewrite Hq in E; discriminate].
  - destruct Hphase as (Hf & Hprog & Hstop & Hafter).
    split; [exact Hf|]. split; [exact Hprog|]. split; [exact Hstop|].
    apply after_put_worker_step, Hafter.
Qed.

Lemma item_of_shutdown (final : SpeechThreads.call) :
  item_of final = None -> final = SpeechThreads.Shutdown.
Proof. destruct final; [discriminate | reflexivity]. Qed.

Lemma clearing_invariant_caller_step (prog : list (string * bool))
    (final : SpeechThreads.call) (s : SpeechThreads.System) :
  clears final ->
  clearing_invariant prog final s ->
  clearing_invariant prog final (SpeechThreads.caller_step s).
Proof.
  intros Hfinal [Hacc Hphase]. destruct s as [e c p w].
  unfold clearing_invariant, thread_accounted, taken_and_waiting, after_put,
    SpeechThreads.taken, SpeechThreads.held, SpeechThreads.in_hand in *.
  simpl in Hacc, Hphase.
  destruct c as [|item|item|item|item|]; unfold SpeechThreads.caller_step; simpl.
  - (* between two calls *)
    destruct Hphase as [(rest & Hp & Hrest & Hall) | (Hnil & Hstop & Hafter)].
    + subst p. destruct rest as [|[text interrupt] rest]; simpl.
      * (* the clearing call begins *)
        rewrite app_nil_r in Hall.
        destruct final as [text interrupt|]; simpl.
        -- destruct Hfinal as [-> Hnb]. unfold nonblank in Hnb. rewrite Hnb. simpl.
           unfold SpeechEngine.stop_speaking, modify. simpl.
           destruct (SpeechEngine.is_speaking e); simpl;
             (split; [lia|]);
             (split; [reflexivity|]); (split; [reflexivity|]); (split; [discriminate|]);
             rewrite Hall; reflexivity.
        -- split; [lia|].
           split; [reflexivity|]. split; [reflexivity|]. split; [reflexivity|].
           rewrite Hall. reflexivity.
      * inversion Hrest as [|? ? Hi Hrest']; subst. simpl in Hi. subst interrupt.
        rewrite enqueued_cons in Hall. fold (nonblank text).
        destruct (nonblank text); simpl.
        -- rewrite length_app. simpl. split; [lia|].
           left. exists rest. split; [reflexivity|]. split; [exact Hrest'|].
           rewrite queued_texts_snoc, <- Hall, <- !app_assoc. reflexivity.
        -- split; [lia|].
           left. exists rest. split; [reflexivity|]. split; [exact Hrest'|]. exact Hall.
    + subst p. simpl. split; [exact Hacc|]. right.
      split; [reflexivity|]. split; [exact Hstop | exact Hafter].
  - (* the test of the loop *)
    destruct Hphase as (Hi & Hp & Hstop & Hsub).
    destruct (SpeechEngine.speech_queue e) as [|x q] eqn:Eq; simpl; rewrite Eq.
    + split; [simpl in *; lia|].
      split; [exact Hi|]. split; [exact Hp|]. split; [exact Hstop|].
      split; [reflexivity|]. simpl in Hsub. rewrite app_nil_r in Hsub. exact Hsub.
    + split; [simpl in *; lia|].
      split; [exact Hi|]. split; [exact Hp|]. split; [exact Hstop|]. exact Hsub.
  - (* get_nowait *)
    destruct Hphase as (Hi & Hp & Hstop & Hsub).
    unfold SpeechEngine.get_nowait.
    destruct (SpeechEngine.speech_queue e) as [|x q] eqn:Eq; simpl; try rewrite Eq.
    + split; [simpl in *; lia|].
      split; [exact Hi|]. split; [exact Hp|]. split; [exact Hstop|].
      split; [reflexivity|]. simpl in Hsub. rewrite app_nil_r in Hsub. exact Hsub.
    + split; [simpl in *; lia|].
      split; [exact Hi|]. split; [exact Hp|]. split; [exact Hstop|].
      etransitivity; [|exact Hsub].
      apply sublist_app; [reflexivity|].
      destruct x as [text|]; [apply sublist_cons_r; left|]; reflexivity.
  - (* task_done *)
    destruct Hphase as (Hi & Hp & Hstop & Hsub).
    unfold SpeechEngine.task_done.
    destruct (SpeechEngine.unfinished_tasks e) as [|u] eqn:Eu; simpl; [lia|].
    split; [lia|].
    split; [exact Hi|]. split; [exact Hp|]. split; [exact Hstop|]. exact Hsub.
  - (* put *)
    destruct Hphase as (Hi & Hp & Hstop & Hq & Hsub). subst p.
    rewrite Hq in *. destruct item as [text|]; simpl; rewrite ?Hq; simpl.
    + split; [simpl in *; lia|]. right.
      split; [reflexivity|].
      split; [intros ->; discriminate|].
      split; [constructor; [exact Hi | constructor]|].
      eexists. split; [exact Hsub|].
      unfold item_texts. rewrite <- Hi. reflexivity.
    + split; [simpl in *; lia|].
      symmetry in Hi. pose proof (item_of_shutdown final Hi) as Hf.
      split; [exact Hf|]. split; [reflexivity|]. split; [apply Hstop, Hf|].
      split; [constructor; [symmetry; exact Hi | constructor]|].
      eexists. split; [exact Hsub|].
      unfold item_texts. rewrite Hi. reflexivity.
  - (* the worker is joined *)
    destruct Hphase as (Hf & Hp & Hstop & Hafter). subst p. simpl.
    split; [simpl in *; lia|]. right.
    split; [reflexivity|]. split; [intros _; exact Hstop | exact Hafter].
Qed.

Lemma clearing_invariant_run (prog : list (string * bool)) (final : SpeechThreads.call)
    (schedule : list SpeechEngine.thread) (s : SpeechThreads.System) :
  clears final ->
  clearing_invariant prog final s ->
  clearing_invariant prog final (SpeechThreads.run schedule s).
Proof.
  intros Hfinal. revert s. induction schedule as [|who schedule IH]; intros s H; simpl.
  - exact H.
  - apply IH. destruct who; simpl.
    + apply clearing_invariant_caller_step; assumption.
    + apply clearing_invariant_worker_step; assumption.
Qed.

Lemma clearing_invariant_start (prog : list (string * bool)) (final : SpeechThreads.call) :
  Forall (fun call => snd call = false) prog ->
  clearing_invariant prog final (SpeechThreads.start (speak_calls prog ++ [final])).
Proof.
  intros Hprog. split.
  - unfold thread_accounted, SpeechThreads.in_hand. simpl. lia.
  - simpl. left. exists prog. split; [reflexivity|]. split; [exact Hprog | reflexivity].
Qed.

Lemma said_sublist_taken_and_waiting (s : SpeechThreads.System) :
  SpeechEngine.said (SpeechThreads.engine s) `sublist_of` taken_and_waiting s.
Proof.
  unfold taken_and_waiting, SpeechThreads.taken. rewrite <- app_assoc.
  apply sublist_inserts_r. reflexivity.
Qed.

(** In every phase the texts taken and waiting are a selection of the
    earlier texts, with the text of the clearing call at the end once it
    is put. *)
Lemma clearing_invariant_selection (prog : list (string * bool))
    (final : SpeechThreads.call) (s : SpeechThreads.System) :
  clearing_invariant prog final s ->
  SpeechEngine.said (SpeechThreads.engine s)
    `sublist_of` (enqueued prog ++ item_texts final)%list.
Proof.
  intros [_ Hphase].
  assert (Hafter : after_put prog final s ->
                   taken_and_waiting s `sublist_of` (enqueued prog ++ item_texts final)%list).
  { intros [_ (p & Hp & ->)]. apply sublist_app; [exact Hp | reflexivity]. }
  etransitivity; [apply said_sublist_taken_and_waiting|].
  destruct (SpeechThreads.caller s).
  - destruct Hphase as [(rest & _ & _ & Hall) | (_ & _ & H)]; [|apply Hafter, H].
    apply sublist_inserts_r. rewrite <- Hall. apply sublist_inserts_r. reflexivity.
  - destruct Hphase as (_ & _ & _ & Hsub). apply sublist_inserts_r, Hsub.
  - destruct Hphase as (_ & _ & _ & Hsub). apply sublist_inserts_r, Hsub.
  - destruct Hphase as (_ & _ & _ & Hsub). apply sublist_inserts_r, Hsub.
  - destruct Hphase as (_ & _ & _ & Hq & Hsub). apply sublist_inserts_r.
    unfold taken_and_waiting. rewrite Hq. simpl. rewrite app_nil_r. exact Hsub.
  - destruct Hphase as (_ & _ & _ & H). apply Hafter, H.
Qed.

(** Once the program is empty the clearing call has returned. *)
Lemma clearing_invariant_returned (prog : list (string * bool))
    (final : SpeechThreads.call) (s : SpeechThreads.System) :
  clearing_invariant prog final s ->
  SpeechThreads.program s = [] ->
  SpeechThreads.caller s = SpeechThreads.CIdle
  /\ (final = SpeechThreads.Shutdown ->
      SpeechEngine.is_running (SpeechThreads.engine s) = false)
  /\ after_put prog final s.
Proof.
  intros [_ Hphase] Hnil. rewrite Hnil in Hphase.
  destruct (SpeechThreads.caller s).
  - destruct Hphase as [(rest & Hp & _) | (_ & Hstop & Hafter)].
    + destruct rest; discriminate.
    + split; [reflexivity|]. split; assumption.
  - destruct Hphase as (_ & Hp & _). discriminate.
  - destruct Hphase as (_ & Hp & _). discriminate.
  - destruct Hphase as (_ & Hp & _). discriminate.
  - destruct Hphase as (_ & Hp & _). discriminate.
  - destruct Hphase as (_ & Hp & _). discriminate.
Qed.




(** In that run the worker had taken "first" when the interrupting call
    came: "second" is removed and never said. *)
Example interrupt_example :
  let s := SpeechThreads.run
             ([SpeechEngine.Caller; SpeechEngine.Caller; SpeechEngine.Worker;
               SpeechEngine.Worker]
              ++ repeat SpeechEngine.Caller 6 ++ repeat SpeechEngine.Worker 6)%list
             (SpeechThreads.start
                (speak_calls [("first", false); ("second", false)]
                 ++ [SpeechThreads.Speak "stop that" true])) in
  SpeechThreads.program s = []
  /\ SpeechEngine.speech_queue (SpeechThreads.engine s) = []
  /\ SpeechThreads.held s = []
  /\ SpeechEngine.said (SpeechThreads.engine s) = ["first"; "stop that"].
Proof. vm_compute. repeat split. Qed.

(** The worker can take a text between two rounds of the clearing loop:
    here "one" is being said when the interrupting call comes, the call
    removes "two", the worker takes "three", the call removes "four",
    and what is said in the end is "one", "three" and the new text. *)
Example interrupt_between_rounds :
  let W := SpeechEngine.Worker in
  let C := SpeechEngine.Caller in
  let s := SpeechThreads.run
             ([C; W; W; W; C; C; C]            (* "one" is being said; three texts wait *)
              ++ [C; C; C]                     (* the call begins and removes "two" *)
              ++ [W; W; W; W]                  (* the worker takes "three" *)
              ++ [C; C; C; C; C; C]            (* the call removes "four" and puts its text *)
              ++ [W; W; W; W; W; W; W; W; W])
             (SpeechThreads.start
                [SpeechThreads.Speak "one" false; SpeechThreads.Speak "two" false;
                 SpeechThreads.Speak "three" false; SpeechThreads.Speak "four" false;
                 SpeechThreads.Speak "stop that" true]) in
  SpeechEngine.said (SpeechThreads.engine s) = ["one"; "three"; "stop that"]
  /\ SpeechEngine.speech_queue (SpeechThreads.engine s) = []
  /\ SpeechThreads.program s = []
  /\ SpeechEngine.stops (SpeechThreads.engine s) = 1.
Proof. vm_compute. repeat split. Qed.

(* --------------------------------------------------------------------- *)
(** ** Shutting the engine down *)
(* --------------------------------------------------------------------- *)

Lemma shut_down_caller_step (s : SpeechThreads.System) :
  shut_down s -> SpeechThreads.caller_step s = s.
Proof.
  intros (Hc & Hp & _). destruct s as [e c p w]. simpl in Hc, Hp. subst c p. reflexivity.
Qed.

Lemma shut_down_worker_step (s : SpeechThreads.System) :
  shut_down s ->
  shut_down (SpeechThreads.worker_step s)
  /\ SpeechThreads.taken (SpeechThreads.worker_step s) = SpeechThreads.taken s
  /\ steps_to_exit (SpeechThreads.worker_step s) <= pred (steps_to_exit s).
Proof.
  intros (Hc & Hp & Hr & Hq).
  destruct (worker_step_moves s) as (Hc' & Hp' & Hr' & _ & Hmove).
  split; [|split].
  - unfold shut_down. rewrite Hc', Hp', Hr'.
    split; [exact Hc|]. split; [exact Hp|]. split; [exact Hr|].
    apply worker_step_queue, Hq.
  - destruct Hmove as [[_ H] | [(text & E & _) | [_ H]]]; [exact H | | exact H].
    rewrite E in Hq. inversion Hq; discriminate.
  - clear Hmove Hc' Hp' Hr' Hc Hp. destruct s as [e c p w]. simpl in Hr, Hq.
    unfold steps_to_exit, SpeechThreads.worker_step. destruct w; simpl.
    + rewrite Hr. simpl. lia.
    + unfold SpeechEngine.get_nowait.
      destruct (SpeechEngine.speech_queue e) as [|[text|] q] eqn:Eq; simpl.
      * lia.
      * inversion Hq; discriminate.
      * lia.
    + lia.
    + lia.
    + lia.
    + lia.
Qed.

Lemma shut_down_run (more : list SpeechEngine.thread) (s : SpeechThreads.System) :
  shut_down s ->
  shut_down (SpeechThreads.run more s)
  /\ SpeechThreads.taken (SpeechThreads.run more s) = SpeechThreads.taken s
  /\ steps_to_exit (SpeechThreads.run more s) <= steps_to_exit s - worker_steps more.
Proof.
  revert s. induction more as [|who more IH]; intros s Hs.
  - simpl. split; [exact Hs|]. split; [reflexivity|]. unfold worker_steps. simpl. lia.
  - destruct who; simpl.
    + rewrite (shut_down_caller_step s Hs). apply IH, Hs.
    + destruct (shut_down_worker_step s Hs) as (Hs' & Ht & Hn).
      destruct (IH _ Hs') as (H1 & H2 & H3).
      split; [exact H1|]. split; [congruence|].
      unfold worker_steps in *. simpl. lia.
Qed.

Lemma steps_to_exit_zero (s : SpeechThreads.System) :
  steps_to_exit s = 0 -> SpeechThreads.worker s = SpeechThreads.WExit.
Proof.
  unfold steps_to_exit. destruct (SpeechThreads.worker s); try discriminate.
  - destruct (SpeechEngine.speech_queue _); discriminate.
  - reflexivity.
Qed.

Lemma steps_to_exit_bound (s : SpeechThreads.System) : steps_to_exit s <= 4.
Proof.
  unfold steps_to_exit. destruct (SpeechThreads.worker s); try lia.
  destruct (SpeechEngine.speech_queue _); lia.
Qed.

(** [shutdown] after any number of ordinary [speak] calls, with the
    worker taking its steps at any point, also between two operations of
    the call.  What is said is always a selection of the texts of the
    earlier calls, in the order of the calls.  When [shutdown] has
    returned, [is_running] is cleared and the queue holds nothing but
    shutdown signals; from then on the worker takes no further text,
    whatever the schedule, so that a text which still waited is never
    said; and the worker has left its loop after four of its steps at
    the latest. *)
Theorem shutdown_stops_the_worker
    (prog : list (string * bool)) (schedule more : list SpeechEngine.thread) :
  Forall (fun call => snd call = false) prog ->
  let s := SpeechThreads.run schedule
             (SpeechThreads.start (speak_calls prog ++ [SpeechThreads.Shutdown])) in
  SpeechEngine.said (SpeechThreads.engine s) `sublist_of` enqueued prog
  /\ (SpeechThreads.program s = [] ->
      SpeechEngine.is_running (SpeechThreads.engine s) = false
      /\ Forall (fun item => item = None)
                (SpeechEngine.speech_queue (SpeechThreads.engine s))
      /\ SpeechThreads.taken (SpeechThreads.run more s) = SpeechThreads.taken s
      /\ SpeechEngine.said (SpeechThreads.engine (SpeechThreads.run more s))
           `sublist_of` SpeechThreads.taken s
      /\ (4 <= worker_steps more ->
          SpeechThreads.worker (SpeechThreads.run more s) = SpeechThreads.WExit)).
Proof.
  intros Hprog s.
  assert (Hinv : clearing_invariant prog SpeechThreads.Shutdown s).
  { apply clearing_invariant_run; [exact I|]. apply clearing_invariant_start, Hprog. }
  split.
  - pose proof (clearing_invariant_selection _ _ _ Hinv) as H.
    change (item_texts SpeechThreads.Shutdown) with (@nil string) in H.
    rewrite app_nil_r in H. exact H.
  - intros Hnil.
    destruct (clearing_invariant_returned _ _ _ Hinv Hnil) as (Hc & Hstop & Hq & _).
    assert (Hs : shut_down s).
    { split; [exact Hc|]. split; [exact Hnil|]. split; [apply Hstop; reflexivity|].
      exact Hq. }
    destruct (shut_down_run more s Hs) as (_ & Ht & Hn).
    split; [apply Hstop; reflexivity|]. split; [exact Hq|]. split; [exact Ht|].
    split.
    + rewrite <- Ht. unfold SpeechThreads.taken. apply sublist_inserts_r. reflexivity.
    + intros Hmore. apply steps_to_exit_zero.
      pose proof (steps_to_exit_bound s). lia.
Qed.

Lemma shutdown_stops_the_worker_witness :
  let prog := [("first", false); ("second", false)] in
  let schedule := [SpeechEngine.Caller; SpeechEngine.Worker; SpeechEngine.Worker;
                   SpeechEngine.Caller; SpeechEngine.Caller; SpeechEngine.Caller;
                   SpeechEngine.Caller; SpeechEngine.Caller; SpeechEngine.Caller;
                   SpeechEngine.Caller; SpeechEngine.Caller] in
  let more := repeat SpeechEngine.Worker 4 in
  let s := SpeechThreads.run schedule
             (SpeechThreads.start (speak_calls prog ++ [SpeechThreads.Shutdown])) in
  SpeechEngine.said (SpeechThreads.engine s) `sublist_of` enqueued prog
  /\ (SpeechThreads.program s = [] ->
      SpeechEngine.is_running (SpeechThreads.engine s) = false
      /\ Forall (fun item => item = None)
                (SpeechEngine.speech_queue (SpeechThreads.engine s))
      /\ SpeechThreads.taken (SpeechThreads.run more s) = SpeechThreads.taken s
      /\ SpeechEngine.said (SpeechThreads.engine (SpeechThreads.run more s))
           `sublist_of` SpeechThreads.taken s
      /\ (4 <= worker_steps more ->
          SpeechThreads.worker (SpeechThreads.run more s) = SpeechThreads.WExit)).
Proof.
  apply (shutdown_stops_the_worker
           [("first", false); ("second", false)]
           [SpeechEngine.Caller; SpeechEngine.Worker; SpeechEngine.Worker;
            SpeechEngine.Caller; SpeechEngine.Caller; SpeechEngine.Caller;
            SpeechEngine.Caller; SpeechEngine.Caller; SpeechEngine.Caller;
            SpeechEngine.Caller; SpeechEngine.Caller]
           (repeat SpeechEngine.Worker 4)).
  repeat constructor.
Defined.

(** In that run the worker had taken "first" when [shutdown] came;
    "first" is still said afterwards, "second" never. *)
Example shutdown_example :
  let W := SpeechEngine.Worker in
  let C := SpeechEngine.Caller in
  let s := SpeechThreads.run [C; W; W; C; C; C; C; C; C; C; C]
             (SpeechThreads.start
                [SpeechThreads.Speak "first" false; SpeechThreads.Speak "second" false;
                 SpeechThreads.Shutdown]) in
  SpeechThreads.program s = []
  /\ SpeechEngine.said (SpeechThreads.engine s) = []
  /\ SpeechThreads.held s = ["first"]
  /\ SpeechEngine.speech_queue (SpeechThreads.engine s) = [None]
  /\ SpeechEngine.said (SpeechThreads.engine (SpeechThreads.run [W; W; W; W] s)) = ["first"]
  /\ SpeechThreads.worker (SpeechThreads.run [W; W; W; W] s) = SpeechThreads.WExit.
Proof. vm_compute. repeat split. Qed.

(** A second [shutdown] is not without effect: when the worker was
    inside [get] at the first one it takes the signal and leaves, and
    the second call puts a signal that nobody takes and counts one more
    unfinished task. *)
Example second_shutdown_changes_the_queue :
  let W := SpeechEngine.Worker in
  let C := SpeechEngine.Caller in
  let once := SpeechThreads.run [W; C; C; C; W; C]
                (SpeechThreads.start [SpeechThreads.Shutdown; SpeechThreads.Shutdown]) in
  let twice := SpeechThreads.run [C; C; C; C] once in
  SpeechThreads.program once = [SpeechThreads.Shutdown]
  /\ SpeechThreads.caller once = SpeechThreads.CIdle
  /\ SpeechThreads.worker once = SpeechThreads.WExit
  /\ SpeechEngine.speech_queue (SpeechThreads.engine once) = []
  /\ SpeechEngine.unfinished_tasks (SpeechThreads.engine once) = 1
  /\ SpeechThreads.program twice = []
  /\ SpeechEngine.speech_queue (SpeechThreads.engine twice) = [None]
  /\ SpeechEngine.unfinished_tasks (SpeechThreads.engine twice) = 2.
Proof. vm_compute. repeat split. Qed.

(* ===================================================================== *)
(** * The application: every utterance gets a spoken reply *)
(* ===================================================================== *)

Lemma nonblank_head (c : ascii) (s : string) :
  PyStr.isspace c = false -> nonblank (String c s) = true.
Proof.
  intros E. unfold nonblank, PyStr.strip. rewrite lstrip_cons, E.
  destruct (rstrip_keeps_head c s E) as [r ->]. reflexivity.
Qed.

Lemma local_pools_nonblank (clock : LocalAIBrain.Clock) (c : Category) :
  Forall (fun text => nonblank text = true)
         (pool (LocalAIBrain._load_knowledge_base clock) c).
Proof.
  destruct c; simpl; repeat constructor;
    repeat rewrite append_cons; apply nonblank_head; reflexivity.
Qed.

Lemma local_response_nonblank (cfg : Config) (clock : LocalAIBrain.Clock)
    (py_eval : string -> outcome string) (u : string) (r : nat) :
  nonblank (LocalAIBrain._generate_local_response cfg
              (LocalAIBrain._load_knowledge_base clock) py_eval u r) = true.
Proof.
  rewrite generate_by_category.
  assert (Hpool : forall c, pool (LocalAIBrain._load_knowledge_base clock) c <> [] ->
            nonblank (PyList.choice "" r (pool (LocalAIBrain._load_knowledge_base clock) c))
            = true).
  { intros c Hne. pose proof (local_pools_nonblank clock c) as Hall.
    rewrite Forall_forall in Hall. apply Hall, list_elem_of_In, choice_In, Hne. }
  destruct (classify (PyStr.strip (PyStr.lower u))); try (apply Hpool; discriminate).
  - unfold LocalAIBrain._handle_math.
    destruct (LocalAIBrain.re_search u) as [m|]; [|reflexivity].
    destruct (LocalAIBrain.all_allowed _); [|reflexivity].
    destruct (py_eval _); [|reflexivity].
    rewrite append_cons. apply nonblank_head. reflexivity.
  - unfold self_introduction. rewrite append_cons. apply nonblank_head. reflexivity.
Qed.

Lemma speak_plain (text : string) (e : SpeechEngine.t) :
  nonblank text = true ->
  snd (SpeechEngine.speak text false e)
  = SpeechEngine.with_queue (SpeechEngine.speech_queue e ++ [Some text])
      (S (SpeechEngine.unfinished_tasks e)) e.
Proof.
  intros H. unfold SpeechEngine.speak. fold (nonblank text). rewrite H. reflexivity.
Qed.

Lemma successful_call_last_turn
    (cfg : Config) (generate : list Message -> string -> nat -> outcome string)
    (u : string) (r : nat) (b : Brain) (reply : string) :
  (0 <= MAX_CONVERSATION_HISTORY cfg)%Z ->
  generate (conversation_history b ++ [{| role := user; content := u |}])%list u r
    = Returns reply ->
  last (conversation_history (snd (process_input cfg generate u r b)))
  = Some {| role := assistant; content := reply |}.
Proof.
  intros HB Hgen.
  destruct (process_input_success cfg generate u r b reply Hgen) as [-> _]. simpl snd.
  rewrite manage_last.
  - simpl. unfold extended. rewrite app_assoc. apply last_snoc.
  - exact HB.
  - simpl. unfold extended. rewrite !length_app. simpl. lia.
Qed.

Lemma local_reply_queued
    (cfg : Config) (clock : LocalAIBrain.Clock) (py_eval : string -> outcome string)
    (text : string) (r : nat) (app : HaroAI.t) :
  (0 <= MAX_CONVERSATION_HISTORY cfg)%Z ->
  let kb := LocalAIBrain._load_knowledge_base clock in
  let reply := LocalAIBrain._generate_local_response cfg kb py_eval text r in
  let app' := HaroAI._on_speech_detected
                (LocalAIBrain.process_input cfg kb py_eval) r text app in
  SpeechEngine.speech_queue (HaroAI.speech_engine app')
  = (SpeechEngine.speech_queue (HaroAI.speech_engine app) ++ [Some reply])%list
  /\ SpeechEngine.said (HaroAI.speech_engine app')
     = SpeechEngine.said (HaroAI.speech_engine app)
  /\ last (conversation_history (HaroAI.ai_brain app'))
     = Some {| role := assistant; content := reply |}.
Proof.
  intros HB kb reply app'. subst app'. unfold HaroAI._on_speech_detected.
  pose proof (successful_call_last_turn cfg (LocalAIBrain.generate cfg kb py_eval) text r
                (HaroAI.ai_brain app) reply HB eq_refl) as Hlast.
  destruct (process_input_success cfg (LocalAIBrain.generate cfg kb py_eval) text r
              (HaroAI.ai_brain app) reply eq_refl) as [Heq _].
  unfold LocalAIBrain.process_input in *. rewrite Heq in Hlast |- *. simpl in Hlast |- *.
  rewrite speak_plain by (apply local_response_nonblank).
  repeat split. exact Hlast.
Qed.

(** With the local brain every utterance that reaches the application
    puts exactly one text at the end of the speech queue: the reply of
    the responder, which is also the last turn of the history.  The
    budget is an integer from 0 on. *)
Theorem local_reply_is_always_queued
    (cfg : Config) (clock : LocalAIBrain.Clock) (py_eval : string -> outcome string)
    (text : string) (r : nat) (app : HaroAI.t) :
  (0 <= MAX_CONVERSATION_HISTORY cfg)%Z ->
  let kb := LocalAIBrain._load_knowledge_base clock in
  let reply := LocalAIBrain._generate_local_response cfg kb py_eval text r in
  let app' := HaroAI._on_speech_detected
                (LocalAIBrain.process_input cfg kb py_eval) r text app in
  SpeechEngine.speech_queue (HaroAI.speech_engine app')
  = (SpeechEngine.speech_queue (HaroAI.speech_engine app) ++ [Some reply])%list
  /\ SpeechEngine.said (HaroAI.speech_engine app')
     = SpeechEngine.said (HaroAI.speech_engine app)
  /\ last (conversation_history (HaroAI.ai_brain app'))
     = Some {| role := assistant; content := reply |}.
Proof.
  intros HB kb reply app'.
  destruct (local_reply_queued cfg clock py_eval text r app HB) as (Hq & Hs & Hl).
  split; [exact Hq|]. split; [exact Hs | exact Hl].
Qed.

Lemma local_reply_is_always_queued_witness :
  let kb := LocalAIBrain._load_knowledge_base example_clock in
  let app := {| HaroAI.ai_brain := LocalAIBrain.new default_config;
                HaroAI.speech_engine := SpeechEngine.new |} in
  let reply := LocalAIBrain._generate_local_response default_config kb
                 ArithEval.py_eval "calculate 4*5" 0 in
  let app' := HaroAI._on_speech_detected
                (LocalAIBrain.process_input default_config kb ArithEval.py_eval)
                0 "calculate 4*5" app in
  SpeechEngine.speech_queue (HaroAI.speech_engine app')
  = (SpeechEngine.speech_queue (HaroAI.speech_engine app) ++ [Some reply])%list
  /\ SpeechEngine.said (HaroAI.speech_engine app')
     = SpeechEngine.said (HaroAI.speech_engine app)
  /\ last (conversation_history (HaroAI.ai_brain app'))
     = Some {| role := assistant; content := reply |}.
Proof.
  intros kb app.
  apply (local_reply_is_always_queued default_config example_clock ArithEval.py_eval
           "calculate 4*5" 0 app).
  simpl. lia.
Defined.

(* ===================================================================== *)
(** * utils.py *)
(* ===================================================================== *)

Lemma take_chars_length (n : nat) (s : string) :
  String.length (Utils.take_chars n s) = Nat.min n (String.length s).
Proof.
  revert s. induction n as [|n IH]; intros [|c s]; simpl; try reflexivity.
  rewrite IH. reflexivity.
Qed.

Lemma take_chars_prefix (n : nat) (s : string) :
  exists rest, s = Utils.take_chars n s ++ rest.
Proof.
  revert s. induction n as [|n IH]; intros [|c s]; simpl.
  - exists "". reflexivity.
  - exists (String c s). reflexivity.
  - exists "". reflexivity.
  - destruct (IH s) as [rest Hr]. exists rest. rewrite append_cons, <- Hr. reflexivity.
Qed.

Lemma slice_to_length (k : Z) (s : string) :
  Z.of_nat (String.length (Utils.slice_to k s))
  = (if (k <? 0)%Z then Z.max (Z.of_nat (String.length s) + k) 0
     else Z.min k (Z.of_nat (String.length s)))%Z.
Proof.
  unfold Utils.slice_to. rewrite take_chars_length.
  destruct (Z.ltb_spec k 0); lia.
Qed.

(** [truncate_text] with a limit of at least 3: the result is the text
    itself when it fits, and otherwise the first [max_length - 3]
    characters of the text followed by three dots; its length is the
    smaller of the length of the text and the limit. *)
Theorem truncate_text_within_limit (text : string) (max_length : Z) :
  (3 <= max_length)%Z ->
  Z.of_nat (String.length (Utils.truncate_text text max_length))
  = Z.min (Z.of_nat (String.length text)) max_length
  /\ ((Z.of_nat (String.length text) <= max_length)%Z ->
      Utils.truncate_text text max_length = text)
  /\ ((max_length < Z.of_nat (String.length text))%Z ->
      exists kept rest,
        Utils.truncate_text text max_length = kept ++ "..."
        /\ text = kept ++ rest
        /\ Z.of_nat (String.length kept) = (max_length - 3)%Z).
Proof.
  intros Hmax. unfold Utils.truncate_text.
  destruct (Z.leb_spec (Z.of_nat (String.length text)) max_length) as [Hle|Hgt].
  - split; [lia|]. split; [reflexivity|]. intros Hc. lia.
  - pose proof (slice_to_length (max_length - 3) text) as Hl.
    destruct (Z.ltb_spec (max_length - 3) 0) as [Hneg|Hpos]; [lia|].
    split; [|split].
    + rewrite length_append. simpl String.length. lia.
    + intros Hc. lia.
    + intros _. destruct (take_chars_prefix
                            (Z.to_nat (Z.min (max_length - 3) (Z.of_nat (String.length text))))
                            text) as [rest Hrest].
      exists (Utils.slice_to (max_length - 3) text), rest.
      split; [reflexivity|]. split; [|lia].
      unfold Utils.slice_to. destruct (Z.ltb_spec (max_length - 3) 0); [lia|].
      exact Hrest.
Qed.

Lemma truncate_text_within_limit_witness :
  Z.of_nat (String.length (Utils.truncate_text "Added to speech queue" 10))
  = Z.min (Z.of_nat (String.length "Added to speech queue")) 10
  /\ ((Z.of_nat (String.length "Added to speech queue") <= 10)%Z ->
      Utils.truncate_text "Added to speech queue" 10 = "Added to speech queue")
  /\ ((10 < Z.of_nat (String.length "Added to speech queue"))%Z ->
      exists kept rest,
        Utils.truncate_text "Added to speech queue" 10 = kept ++ "..."
        /\ "Added to speech queue" = kept ++ rest
        /\ Z.of_nat (String.length kept) = (10 - 3)%Z).
Proof.
  apply (truncate_text_within_limit "Added to speech queue" 10). lia.
Defined.

(** With a limit below 3 a text that is longer than the limit is not
    brought within it: the slice [text[:max_length-3]] counts from the
    end, three dots are added, and the result has at least three
    characters, more than the limit allows. *)
Theorem truncate_text_small_limit (text : string) (max_length : Z) :
  (max_length < 3)%Z ->
  (max_length < Z.of_nat (String.length text))%Z ->
  Z.of_nat (String.length (Utils.truncate_text text max_length))
  = (Z.max (Z.of_nat (String.length text) + max_length - 3) 0 + 3)%Z
  /\ (max_length < Z.of_nat (String.length (Utils.truncate_text text max_length)))%Z.
Proof.
  intros Hmax Hlen. unfold Utils.truncate_text.
  destruct (Z.leb_spec (Z.of_nat (String.length text)) max_length) as [Hle|Hgt]; [lia|].
  pose proof (slice_to_length (max_length - 3) text) as Hl.
  destruct (Z.ltb_spec (max_length - 3) 0); [|lia].
  rewrite length_append. simpl String.length. split; lia.
Qed.

Lemma truncate_text_small_limit_witness :
  Z.of_nat (String.length (Utils.truncate_text "hello" 2))
  = (Z.max (Z.of_nat (String.length "hello") + 2 - 3) 0 + 3)%Z
  /\ (2 < Z.of_nat (String.length (Utils.truncate_text "hello" 2)))%Z.
Proof.
  apply (truncate_text_small_limit "hello" 2).
  - lia.
  - simpl. lia.
Defined.

Example truncate_text_examples :
  Utils.truncate_text "Added to speech queue" 10 = "Added t..."
  /\ Utils.truncate_text "hello" 5 = "hello"
  /\ Utils.truncate_text "hello" 2 = "hell..."
  /\ Utils.truncate_text "hello" 0 = "he..."
  /\ Utils.truncate_text "hello" (-10) = "...".
Proof. repeat split; reflexivity. Qed.

(** Timers of the performance monitor that have different names do not
    disturb each other: a timer that is started, and stopped after
    another one was started, measures from its own start; the other one
    has no duration yet.  Stopping a name that was never started returns
    [0.0] and records nothing; starting a timer again forgets its
    duration; after [reset] there is no measurement. *)
Theorem performance_monitor_timers
    (T : Type) (minus : T -> T -> T) (zero : T)
    (t1 t2 t3 : T) (a b : string) (m : Utils.Monitor T) :
  a <> b ->
  let m2 := Utils.start T t2 b (Utils.start T t1 a m) in
  let stopped := Utils.stop T minus zero t3 a m2 in
  fst stopped = minus t3 t1
  /\ Utils.get_measurement T a (snd stopped) = Some (minus t3 t1)
  /\ Utils.get_measurement T b (snd stopped) = None
  /\ Utils.get_measurement T a (Utils.start T t3 a (snd stopped)) = None
  /\ (forall name, Utils.measurements T m !! name = None ->
        Utils.stop T minus zero t3 name m = (zero, m))
  /\ (forall name, Utils.get_measurement T name (Utils.reset T (snd stopped)) = None).
Proof.
  intros Hne m2 stopped. subst stopped m2.
  unfold Utils.stop, Utils.start, Utils.get_measurement. simpl.
  rewrite lookup_insert_ne by congruence. rewrite lookup_insert_eq. simpl.
  repeat split.
  - rewrite lookup_insert_eq. reflexivity.
  - rewrite lookup_insert_ne by congruence. rewrite lookup_insert_eq. reflexivity.
  - rewrite lookup_insert_eq. reflexivity.
  - intros name Hn. rewrite Hn. reflexivity.
Qed.

Lemma performance_monitor_timers_witness :
  let m := Utils.new_monitor Z in
  let m2 := Utils.start Z 20%Z "test_response" (Utils.start Z 10%Z "response_time" m) in
  let stopped := Utils.stop Z Z.sub 0%Z 35%Z "response_time" m2 in
  fst stopped = (35 - 10)%Z
  /\ Utils.get_measurement Z "response_time" (snd stopped) = Some (35 - 10)%Z
  /\ Utils.get_measurement Z "test_response" (snd stopped) = None
  /\ Utils.get_measurement Z "response_time"
       (Utils.start Z 35%Z "response_time" (snd stopped)) = None
  /\ (forall name, Utils.measurements Z m !! name = None ->
        Utils.stop Z Z.sub 0%Z 35%Z name m = (0%Z, m))
  /\ (forall name, Utils.get_measurement Z name (Utils.reset Z (snd stopped)) = None).
Proof.
  apply (performance_monitor_timers Z Z.sub 0%Z 10%Z 20%Z 35%Z
           "response_time" "test_response" (Utils.new_monitor Z)).
  discriminate.
Defined.

(* ===================================================================== *)
(** * From the recognized utterance to the spoken reply *)
(* ===================================================================== *)

(** The whole path with the local brain: an utterance without a wake
    phrase changes nothing at all, neither the history nor the queue; an
    utterance with one puts exactly one reply at the end of the speech
    queue, and that reply is the last turn of the history.  The budget is
    an integer from 0 on. *)
Theorem wake_word_to_spoken_reply
    (cfg : Config) (clock : LocalAIBrain.Clock) (py_eval : string -> outcome string)
    (text : string) (r : nat) (app : HaroAI.t) :
  (0 <= MAX_CONVERSATION_HISTORY cfg)%Z ->
  let kb := LocalAIBrain._load_knowledge_base clock in
  let app' := VoiceHandler._process_audio cfg (Returns text)
                (HaroAI._on_speech_detected
                   (LocalAIBrain.process_input cfg kb py_eval) r) app in
  (~ has_wake_word cfg text -> app' = app)
  /\ (has_wake_word cfg text ->
      exists reply,
        SpeechEngine.speech_queue (HaroAI.speech_engine app')
        = (SpeechEngine.speech_queue (HaroAI.speech_engine app) ++ [Some reply])%list
        /\ last (conversation_history (HaroAI.ai_brain app'))
           = Some {| role := assistant; content := reply |}).
Proof.
  intros HB kb app'. subst app'. unfold VoiceHandler._process_audio. split.
  - intros Hno.
    destruct (VoiceHandler._contains_wake_word cfg (PyStr.lower text)) eqn:E;
      [|reflexivity].
    exfalso. apply Hno, contains_wake_word_iff, E.
  - intros Hw. apply contains_wake_word_iff in Hw. rewrite Hw.
    destruct (PyStr.truthy _).
    + destruct (local_reply_queued cfg clock py_eval
                  (PyStr.strip (VoiceHandler._remove_wake_words cfg (PyStr.lower text)))
                  r app HB) as (Hq & _ & Hl).
      eexists. split; [exact Hq | exact Hl].
    + destruct (local_reply_queued cfg clock py_eval
                  VoiceHandler.acknowledgement r app HB) as (Hq & _ & Hl).
      eexists. split; [exact Hq | exact Hl].
Qed.

Lemma wake_word_to_spoken_reply_witness :
  let kb := LocalAIBrain._load_knowledge_base example_clock in
  let app := {| HaroAI.ai_brain := LocalAIBrain.new default_config;
                HaroAI.speech_engine := SpeechEngine.new |} in
  let app' := VoiceHandler._process_audio default_config
                (Returns "Hey Haro what time is it")
                (HaroAI._on_speech_detected
                   (LocalAIBrain.process_input default_config kb ArithEval.py_eval) 0)
                app in
  (~ has_wake_word default_config "Hey Haro what time is it" -> app' = app)
  /\ (has_wake_word default_config "Hey Haro what time is it" ->
      exists reply,
        SpeechEngine.speech_queue (HaroAI.speech_engine app')
        = (SpeechEngine.speech_queue (HaroAI.speech_engine app) ++ [Some reply])%list
        /\ last (conversation_history (HaroAI.ai_brain app'))
           = Some {| role := assistant; content := reply |}).
Proof.
  intros kb app.
  apply (wake_word_to_spoken_reply default_config example_clock ArithEval.py_eval
           "Hey Haro what time is it" 0 app).
  simpl. lia.
Defined.

(** The summary of the remote brain counts turns, not exchanges: after
    [n] calls that all failed, from a fresh brain, it reports [n / 2]
    exchanges although the history holds no assistant turn at all. *)
Theorem summary_counts_failed_calls (cfg : Config) (u : string) (r n : nat) :
  let b := AIBrain.run cfg (repeat (endpoint_down, u, r) n) (AIBrain.new cfg) in
  total_exchanges (AIBrain.get_conversation_summary cfg b) = (Z.of_nat n / 2)%Z
  /\ history_length (AIBrain.get_conversation_summary cfg b) = (Z.of_nat n + 1)%Z
  /\ count_role assistant (conversation_history b) = 0.
Proof.
  intros b.
  assert (Hh : conversation_history b
               = ({| role := system; content := AI_PERSONALITY cfg |}
                  :: repeat {| role := user; content := u |} n)).
  { subst b. rewrite failed_calls_accumulate. reflexivity. }
  unfold AIBrain.get_conversation_summary, get_conversation_summary. simpl.
  rewrite Hh. simpl length. rewrite repeat_length.
  split; [f_equal; lia|]. split; [lia|].
  rewrite count_role_cons. destruct (decide (system = assistant)); [discriminate|].
  simpl. clear Hh b. induction n as [|n IH]; [reflexivity|].
  simpl repeat. rewrite count_role_cons.
  destruct (decide (user = assistant)); [discriminate | exact IH].
Qed.
